(** * Kamaji: konnectivity and datastore resources

    A shallow embedding of three resource kinds of the Kamaji operator:

    - [internal/resources/konnectivity/deployment_resource.go]
      (the sidecar patcher of the shared Deployment),
    - [internal/resources/konnectivity/cluster_role_binding_resource.go],
    - [internal/resources/datastore/datastore_storage_config.go].

    Go structs are records, one module per struct so that fields keep the
    names they have in Go ([Container.Name], [Volume.Name], ...).  Go maps
    are [gmap]s, slices are lists (a nil slice and an empty slice are both
    [[]], as [equality.Semantic.DeepEqual] treats them), [int32] values are
    [Z] (the code never does arithmetic on them), the receiver's
    [r.resource] pointer is threaded explicitly: a method that mutates the
    object takes it and returns the new one.  Logging is left out. *)

From Stdlib Require Import Ascii.
From stdpp Require Import gmap strings list fin_maps sorting pretty.

Local Open Scope string_scope.
Local Open Scope list_scope.

(** ** Kubernetes API objects (the fields this code reads or writes) *)

Module VolumeMount.
Record t := mk {
    Name : string;
    ReadOnly : bool;
    MountPath : string;
    SubPath : string;
  }.
Definition zero : t := mk "" false "" "".
Definition set_Name (v : string) (m : t) : t :=
    mk v (ReadOnly m) (MountPath m) (SubPath m).
Definition set_ReadOnly (v : bool) (m : t) : t :=
    mk (Name m) v (MountPath m) (SubPath m).
Definition set_MountPath (v : string) (m : t) : t :=
    mk (Name m) (ReadOnly m) v (SubPath m).
#[global] Instance eq_dec : EqDecision t.
Proof. solve_decision. Defined.
End VolumeMount.

Module ContainerPort.
Record t := mk {
    Name : string;
    ContainerPort : Z;
    Protocol : string;
  }.
#[global] Instance eq_dec : EqDecision t.
Proof. solve_decision. Defined.
End ContainerPort.

Module HTTPGetAction.
Record t := mk {
    Path : string;
    Port : Z;
    Scheme : string;
  }.
#[global] Instance eq_dec : EqDecision t.
Proof. solve_decision. Defined.
End HTTPGetAction.

Module Probe.
Record t := mk {
    InitialDelaySeconds : Z;
    TimeoutSeconds : Z;
    PeriodSeconds : Z;
    SuccessThreshold : Z;
    FailureThreshold : Z;
    HTTPGet : option HTTPGetAction.t;
  }.
#[global] Instance eq_dec : EqDecision t.
Proof. solve_decision. Defined.
End Probe.

Module ResourceRequirements.
Record t := mk {
    Limits : gmap string string;
    Requests : gmap string string;
  }.
Definition zero : t := mk ∅ ∅.
#[global] Instance eq_dec : EqDecision t.
Proof. solve_decision. Defined.
End ResourceRequirements.

Module Container.
Record t := mk {
    Name : string;
    Image : string;
    Command : list string;
    Args : list string;
    Ports : list ContainerPort.t;
    VolumeMounts : list VolumeMount.t;
    LivenessProbe : option Probe.t;
    ImagePullPolicy : string;
    Resources : ResourceRequirements.t;
  }.
Definition zero : t := mk "" "" [] [] [] [] None "" ResourceRequirements.zero.
Definition set_Name (v : string) (c : t) : t :=
    mk v (Image c) (Command c) (Args c) (Ports c) (VolumeMounts c)
       (LivenessProbe c) (ImagePullPolicy c) (Resources c).
Definition set_Image (v : string) (c : t) : t :=
    mk (Name c) v (Command c) (Args c) (Ports c) (VolumeMounts c)
       (LivenessProbe c) (ImagePullPolicy c) (Resources c).
Definition set_Command (v : list string) (c : t) : t :=
    mk (Name c) (Image c) v (Args c) (Ports c) (VolumeMounts c)
       (LivenessProbe c) (ImagePullPolicy c) (Resources c).
Definition set_Args (v : list string) (c : t) : t :=
    mk (Name c) (Image c) (Command c) v (Ports c) (VolumeMounts c)
       (LivenessProbe c) (ImagePullPolicy c) (Resources c).
Definition set_Ports (v : list ContainerPort.t) (c : t) : t :=
    mk (Name c) (Image c) (Command c) (Args c) v (VolumeMounts c)
       (LivenessProbe c) (ImagePullPolicy c) (Resources c).
Definition set_VolumeMounts (v : list VolumeMount.t) (c : t) : t :=
    mk (Name c) (Image c) (Command c) (Args c) (Ports c) v
       (LivenessProbe c) (ImagePullPolicy c) (Resources c).
Definition set_LivenessProbe (v : option Probe.t) (c : t) : t :=
    mk (Name c) (Image c) (Command c) (Args c) (Ports c) (VolumeMounts c)
       v (ImagePullPolicy c) (Resources c).
Definition set_ImagePullPolicy (v : string) (c : t) : t :=
    mk (Name c) (Image c) (Command c) (Args c) (Ports c) (VolumeMounts c)
       (LivenessProbe c) v (Resources c).
Definition set_Resources (v : ResourceRequirements.t) (c : t) : t :=
    mk (Name c) (Image c) (Command c) (Args c) (Ports c) (VolumeMounts c)
       (LivenessProbe c) (ImagePullPolicy c) v.
#[global] Instance eq_dec : EqDecision t.
Proof. solve_decision. Defined.
End Container.

Module VolumeSource.
Record EmptyDirVolumeSource := mkEmptyDir { Medium : string }.
Record ConfigMapVolumeSource := mkConfigMap {
    LocalObjectReference_Name : string;
    ConfigMap_DefaultMode : option Z;
  }.
Record SecretVolumeSource := mkSecret {
    SecretName : string;
    Secret_DefaultMode : option Z;
  }.
Record t := mk {
    EmptyDir : option EmptyDirVolumeSource;
    ConfigMap : option ConfigMapVolumeSource;
    Secret : option SecretVolumeSource;
  }.
Definition zero : t := mk None None None.
#[global] Instance emptydir_eq_dec : EqDecision EmptyDirVolumeSource.
Proof. solve_decision. Defined.
#[global] Instance configmap_eq_dec : EqDecision ConfigMapVolumeSource.
Proof. solve_decision. Defined.
#[global] Instance secret_eq_dec : EqDecision SecretVolumeSource.
Proof. solve_decision. Defined.
#[global] Instance eq_dec : EqDecision t.
Proof. solve_decision. Defined.
End VolumeSource.

Module Volume.
Record t := mk {
    Name : string;
    Source : VolumeSource.t;
  }.
Definition zero : t := mk "" VolumeSource.zero.
Definition set_Name (v : string) (x : t) : t := mk v (Source x).
Definition set_VolumeSource (v : VolumeSource.t) (x : t) : t := mk (Name x) v.
#[global] Instance eq_dec : EqDecision t.
Proof. solve_decision. Defined.
End Volume.

(** [appsv1.Deployment]: its identity and [Spec.Template.Spec]. *)
Module Deployment.
Record t := mk {
    Name : string;
    Namespace : string;
    Containers : list Container.t;
    Volumes : list Volume.t;
  }.
Definition set_Containers (v : list Container.t) (d : t) : t :=
    mk (Name d) (Namespace d) v (Volumes d).
Definition set_Volumes (v : list Volume.t) (d : t) : t :=
    mk (Name d) (Namespace d) (Containers d) v.
#[global] Instance eq_dec : EqDecision t.
Proof. solve_decision. Defined.
End Deployment.

(** Go's [error] values, as far as this code builds or inspects them. *)
Inductive StatusReason :=
  | StatusReasonNotFound
  | StatusReasonConflict
  | StatusReasonOther (reason : string).

Inductive error :=
  | Errorf (msg : string)
  | Wrap (err : error) (msg : string)
  | StatusError (reason : StatusReason) (msg : string).

#[global] Instance StatusReason_eq_dec : EqDecision StatusReason.
Proof. solve_decision. Defined.
#[global] Instance error_eq_dec : EqDecision error.
Proof. solve_decision. Defined.

(** [k8serrors.IsNotFound] and [k8serrors.IsConflict]. *)
Definition IsNotFound (err : error) : bool :=
  match err with
  | StatusError StatusReasonNotFound _ => true
  | _ => false
  end.

Definition IsConflict (err : error) : bool :=
  match err with
  | StatusError StatusReasonConflict _ => true
  | _ => false
  end.

(** [controllerutil.OperationResult]. *)
Inductive OperationResult :=
  | OperationResultNone
  | OperationResultCreated
  | OperationResultUpdated.

#[global] Instance OperationResult_eq_dec : EqDecision OperationResult.
Proof. solve_decision. Defined.

(** ** The tenant instance ([kamajiv1alpha1.TenantControlPlane]) *)

(** [Spec.Addons.Konnectivity.KonnectivityServerSpec]. *)
Module KonnectivityServerSpec.
Record t := mk {
    Port : Z;
    Version : string;
    Image : string;
    Resources : option ResourceRequirements.t;
    ExtraArgs : list string;
  }.
End KonnectivityServerSpec.

(** The fields of the tenant instance that the three resources read or
    write; a field is named by its Go path.  [Spec_Addons_Konnectivity] is
    the pointer [Spec.Addons.Konnectivity]: [None] is [nil]. *)
Module TenantControlPlane.
Record t := mk {
    Name : string;
    Namespace : string;
    Spec_Addons_Konnectivity : option KonnectivityServerSpec.t;
    Spec_ControlPlane_Deployment_Replicas : Z;
    Status_Addons_Konnectivity_Enabled : bool;
    Status_Addons_Konnectivity_ConfigMap_Name : string;
    Status_Addons_Konnectivity_Kubeconfig_SecretName : string;
    Status_Addons_Konnectivity_ClusterRoleBinding_Name : string;
    Status_Storage_Driver : string;
    Status_Storage_DataStoreName : string;
    Status_Storage_Config_SecretName : string;
    Status_Storage_Config_Checksum : string;
    Status_Storage_Setup_Schema : string;
    Status_Storage_Setup_User : string;
  }.
End TenantControlPlane.

(** ** The [utilities] package

    The package [internal/utilities] is used by all three files; its
    helpers are given here as the design describes them. *)

Module utilities.

  (** Modelled from the spec: the Named-Element Locator behind
      [HasNamedContainer], [HasNamedVolume] and [HasNamedVolumeMount]
      "finds an element by name inside an ordered collection, returning
      found/not-found plus position"; the position is that of the first
      element with the name, and 0 when there is none. *)
Fixpoint hasNamed {A : Type} (nameOf : A → string) (l : list A)
      (name : string) : bool * nat :=
    match l with
    | [] => (false, 0%nat)
    | x :: l' =>
        if decide (nameOf x = name) then (true, 0%nat)
        else
          let '(found, index) := hasNamed nameOf l' name in
          (found, if found then S index else 0%nat)
    end.

Definition HasNamedContainer := hasNamed Container.Name.
Definition HasNamedVolume := hasNamed Volume.Name.
Definition HasNamedVolumeMount := hasNamed VolumeMount.Name.

  (** [strings.SplitN(arg, "=", 2)]: the text before the first ['='] and,
      when there is one, the text after it. *)
Fixpoint SplitN2 (arg : string) : string * option string :=
    match arg with
    | EmptyString => ("", None)
    | String c rest =>
        if decide (c = "="%char) then ("", Some rest)
        else let '(flag, value) := SplitN2 rest in (String c flag, value)
    end.

  (** Modelled from the spec: the Argument-List Codec "converts between an
      ordered list of [--flag=value] tokens and a key→value mapping,
      preserving round-trip fidelity for flags whose value is empty or
      whose flag is repeated-by-overwrite".  Decoding reads the tokens in
      order, a later token overwriting an earlier one with the same
      flag. *)
Definition ArgsFromSliceToMap (args : list string) : gmap string string :=
    foldl (λ m arg,
             let '(flag, value) := SplitN2 arg in
             <[flag := default "" value]> m)
          ∅ args.

  (** One token: [flag=value], or the bare flag when the value is empty. *)
Definition argToken (kv : string * string) : string :=
    if decide (kv.2 = "") then kv.1 else kv.1 +:+ "=" +:+ kv.2.

  (** Modelled from the spec: the mapping is "re-serialized to a
      deterministic ordered list" with "no duplicate flags"; the order is
      the lexicographic order of the tokens. *)
Definition ArgsFromMapToSlice (args : gmap string string) : list string :=
    merge_sort String.le (argToken <$> map_to_list args).

  (** Modelled from the spec: "add-if-absent, overwrite-if-present — never
      duplicate"; the boolean tells whether the flag was created. *)
Definition ArgsAddFlagValue (args : gmap string string) (flag value : string)
      : bool * gmap string string :=
    (bool_decide (args !! flag = None), <[flag := value]> args).

  (** Modelled from the spec: strips "exactly the one flag" and tells
      whether it was there. *)
Definition ArgsRemoveFlag (args : gmap string string) (flag : string)
      : bool * gmap string string :=
    match args !! flag with
    | Some _ => (true, delete flag args)
    | None => (false, args)
    end.

  (** The object store as one reconciliation attempt sees it: the answer
      to the fetch by identity, and the outcome of each write. *)
Inductive GetResult (A : Type) :=
    | GetFound (obj : A)
    | GetNotFound
    | GetError (err : error).
Arguments GetFound {A} obj.
Arguments GetNotFound {A}.
Arguments GetError {A} err.

Record Client (A : Type) := mkClient {
    Get : GetResult A;
    Create : A → option error;
    Update : A → option error;
    Delete : A → option error;
  }.
Arguments Get {A} c.
Arguments Create {A} c obj.
Arguments Update {A} c obj.
Arguments Delete {A} c obj.

  (** [controllerutil.MutateFn]: the closure mutates the object it
      captured and returns an error or nil. *)
Definition MutateFn (A : Type) := A → A * option error.

  (** [controllerutil.CreateOrUpdate] of controller-runtime: fetch into
      [obj]; when absent, mutate and create; when present, mutate and
      update only if the mutation changed the object. *)
Definition CreateOrUpdate {A : Type} `{EqDecision A} (c : Client A) (obj : A)
      (f : MutateFn A) : (OperationResult * option error) * A :=
    match Get c with
    | GetError err => ((OperationResultNone, Some err), obj)
    | GetNotFound =>
        let '(obj', ferr) := f obj in
        match ferr with
        | Some err => ((OperationResultNone, Some err), obj')
        | None =>
            match Create c obj' with
            | Some err => ((OperationResultNone, Some err), obj')
            | None => ((OperationResultCreated, None), obj')
            end
        end
    | GetFound existing =>
        let '(obj', ferr) := f existing in
        match ferr with
        | Some err => ((OperationResultNone, Some err), obj')
        | None =>
            if decide (existing = obj') then ((OperationResultNone, None), obj')
            else
              match Update c obj' with
              | Some err => ((OperationResultNone, Some err), obj')
              | None => ((OperationResultUpdated, None), obj')
              end
        end
    end.

  (** Modelled from the spec: [CreateOrUpdateWithConflict] "fetches the
      current object by identity; if absent, creates it; if present,
      applies the resource's mutation function and persists if changed.
      On an optimistic-concurrency conflict the whole fetch-mutate-persist
      sequence is retried; any other persistence error propagates".  The
      store's answers to the first attempt are [c], those to the retries
      are [retries]; when the retries run out the conflict is returned. *)
Fixpoint CreateOrUpdateWithConflict {A : Type} `{EqDecision A}
      (c : Client A) (retries : list (Client A)) (resource : A)
      (f : MutateFn A) : (OperationResult * option error) * A :=
    let '((res, err), resource') := CreateOrUpdate c resource f in
    match err, retries with
    | Some e, c' :: retries' =>
        if IsConflict e then CreateOrUpdateWithConflict c' retries' resource' f
        else ((res, err), resource')
    | _, _ => ((res, err), resource')
    end.

End utilities.

(** ** [internal/resources/konnectivity] *)

Module konnectivity.
Import utilities.

Definition konnectivityEgressSelectorConfigurationPath : string :=
  "/etc/kubernetes/konnectivity/configurations/egress-selector-configuration.yaml".
Definition konnectivityServerName : string := "konnectivity-server".
Definition konnectivityServerPath : string := "/run/konnectivity".

Definition egressSelectorConfigurationVolume : string := "egress-selector-configuration".
Definition konnectivityUDSVolume : string := "konnectivity-uds".
Definition konnectivityServerKubeconfigVolume : string := "konnectivity-server-kubeconfig".

(** [rbacv1.GroupName] and [rbacv1.UserKind]. *)
Definition rbacv1_GroupName : string := "rbac.authorization.k8s.io".
Definition rbacv1_UserKind : string := "User".

Module RoleRef.
Record t := mk {
  APIGroup : string;
  Kind : string;
  Name : string;
}.
#[global] Instance eq_dec : EqDecision t.
Proof. solve_decision. Defined.
End RoleRef.

Module Subject.
Record t := mk {
  APIGroup : string;
  Kind : string;
  Name : string;
}.
#[global] Instance eq_dec : EqDecision t.
Proof. solve_decision. Defined.
End Subject.

(** [rbacv1.ClusterRoleBinding]. *)
Module ClusterRoleBinding.
Record t := mk {
  Name : string;
  Labels : gmap string string;
  RoleRef : RoleRef.t;
  Subjects : list Subject.t;
}.
#[global] Instance eq_dec : EqDecision t.
Proof. solve_decision. Defined.
End ClusterRoleBinding.

(** *** [KubernetesDeploymentResource] *)

Module KubernetesDeploymentResource.
Section Resource.

(** The package constants [AgentName] and [CertCommonName] are declared in
    a file of the package that is not part of this development. *)
Variable AgentName : string.
Variable CertCommonName : string.

Definition ShouldStatusBeUpdated (tenantControlPlane : TenantControlPlane.t) : bool :=
  let spec := TenantControlPlane.Spec_Addons_Konnectivity tenantControlPlane in
  let enabled := TenantControlPlane.Status_Addons_Konnectivity_Enabled tenantControlPlane in
  match spec with
  | None => if enabled then true else false
  | Some _ => if negb enabled then true else false
  end.

Definition ShouldCleanup (tenantControlPlane : TenantControlPlane.t) : bool :=
  bool_decide (TenantControlPlane.Spec_Addons_Konnectivity tenantControlPlane = None)
  && TenantControlPlane.Status_Addons_Konnectivity_Enabled tenantControlPlane.

(** [append(s[:index], s[index+1:]...)] into a fresh slice. *)
Definition removeAt {A : Type} (index : nat) (s : list A) : list A :=
  take index s ++ drop (S index) s.

(** The body of the loop over the volume names. *)
Definition removeVolume (r : Deployment.t) (volumeName : string) : Deployment.t :=
  let '(volumeFound, volumeIndex) := HasNamedVolume (Deployment.Volumes r) volumeName in
  if volumeFound then
    Deployment.set_Volumes (removeAt volumeIndex (Deployment.Volumes r)) r
  else r.

(** The body of the loop over the names of the volume mounts of
    [Containers[index]]. *)
Definition removeVolumeMount (index : nat) (r : Deployment.t) (volumeMountName : string)
    : Deployment.t :=
  let volumeMounts :=
    Container.VolumeMounts (default Container.zero (Deployment.Containers r !! index)) in
  let '(ok, i) := HasNamedVolumeMount volumeMounts volumeMountName in
  if ok then
    Deployment.set_Containers
      (alter (Container.set_VolumeMounts (removeAt i volumeMounts)) index
             (Deployment.Containers r)) r
  else r.

(** The closure that [CleanUp] hands to [CreateOrUpdateWithConflict].  It
    always returns nil. *)
Definition cleanUpMutate (r : Deployment.t) : Deployment.t * option error :=
  let r :=
    let '(found, index) := HasNamedContainer (Deployment.Containers r) konnectivityServerName in
    if found then Deployment.set_Containers (removeAt index (Deployment.Containers r)) r
    else r in
  let r :=
    let '(found, index) := HasNamedContainer (Deployment.Containers r) "kube-apiserver" in
    if found then
      let container := default Container.zero (Deployment.Containers r !! index) in
      let argsMap := ArgsFromSliceToMap (Container.Args container) in
      let '(removed, argsMap) := ArgsRemoveFlag argsMap "--egress-selector-config-file" in
      let r :=
        if removed then
          Deployment.set_Containers
            (alter (Container.set_Args (ArgsFromMapToSlice argsMap)) index
                   (Deployment.Containers r)) r
        else r in
      let r :=
        foldl removeVolume r [konnectivityUDSVolume; egressSelectorConfigurationVolume] in
      foldl (removeVolumeMount index) r
            [konnectivityUDSVolume; egressSelectorConfigurationVolume;
             konnectivityServerKubeconfigVolume]
    else r in
  (r, None).

(** [CleanUp]: the fetch, the closure and the write, against the store
    answers [client] (and [retries] after a conflict). *)
Definition CleanUp (client : Client Deployment.t) (retries : list (Client Deployment.t))
    (resource : Deployment.t) : (bool * option error) * Deployment.t :=
  let '((res, err), resource) :=
    CreateOrUpdateWithConflict client retries resource cleanUpMutate in
  ((bool_decide (res = OperationResultUpdated), err), resource).

Definition Define (tenantControlPlane : TenantControlPlane.t) : Deployment.t :=
  Deployment.mk (TenantControlPlane.Name tenantControlPlane)
                (TenantControlPlane.Namespace tenantControlPlane) [] [].

(** The argument map of the sidecar: the user's extra arguments first, the
    thirteen assignments after them, in the order of the source. *)
Definition serverArgs (tenantControlPlane : TenantControlPlane.t)
    (spec : KonnectivityServerSpec.t) : gmap string string :=
  let args := ArgsFromSliceToMap (KonnectivityServerSpec.ExtraArgs spec) in
  let args := <["--uds-name" := konnectivityServerPath +:+ "/konnectivity-server.socket"]> args in
  let args := <["--cluster-cert" := "/etc/kubernetes/pki/apiserver.crt"]> args in
  let args := <["--cluster-key" := "/etc/kubernetes/pki/apiserver.key"]> args in
  let args := <["--mode" := "grpc"]> args in
  let args := <["--server-port" := "0"]> args in
  let args := <["--agent-port" := pretty (KonnectivityServerSpec.Port spec)]> args in
  let args := <["--admin-port" := "8133"]> args in
  let args := <["--health-port" := "8134"]> args in
  let args := <["--agent-namespace" := "kube-system"]> args in
  let args := <["--agent-service-account" := AgentName]> args in
  let args := <["--kubeconfig" := "/etc/kubernetes/konnectivity-server.conf"]> args in
  let args := <["--authentication-audience" := CertCommonName]> args in
  let args := <["--server-count" :=
                 pretty (TenantControlPlane.Spec_ControlPlane_Deployment_Replicas
                           tenantControlPlane)]> args in
  args.

(** The field assignments of [syncContainer] on [Containers[index]], in
    the order of the source. *)
Definition syncContainerFields (tenantControlPlane : TenantControlPlane.t)
    (spec : KonnectivityServerSpec.t) (c : Container.t) : Container.t :=
  let c := Container.set_Name konnectivityServerName c in
  let c := Container.set_Image
             (KonnectivityServerSpec.Image spec +:+ ":" +:+ KonnectivityServerSpec.Version spec) c in
  let c := Container.set_Command ["/proxy-server"] c in
  let c := Container.set_Args (ArgsFromMapToSlice (serverArgs tenantControlPlane spec)) c in
  let c := Container.set_LivenessProbe
             (Some (Probe.mk 30 60 10 1 3
                      (Some (HTTPGetAction.mk "/healthz" 8134 "HTTP")))) c in
  let c := Container.set_Ports
             [ContainerPort.mk "agentport" (KonnectivityServerSpec.Port spec) "TCP";
              ContainerPort.mk "adminport" 8133 "TCP";
              ContainerPort.mk "healthport" 8134 "TCP"] c in
  let c := Container.set_VolumeMounts
             [VolumeMount.mk "etc-kubernetes-pki" true "/etc/kubernetes/pki" "";
              VolumeMount.mk "konnectivity-server-kubeconfig" true
                "/etc/kubernetes/konnectivity-server.conf" "konnectivity-server.conf";
              VolumeMount.mk konnectivityUDSVolume false konnectivityServerPath ""] c in
  let c := Container.set_ImagePullPolicy "Always" c in
  let c := Container.set_Resources ResourceRequirements.zero c in
  match KonnectivityServerSpec.Resources spec with
  | Some resources =>
      Container.set_Resources
        (ResourceRequirements.mk (ResourceRequirements.Limits resources)
                                 (ResourceRequirements.Requests resources)) c
  | None => c
  end.

(** [syncContainer]; [spec] is the dereferenced
    [Spec.Addons.Konnectivity], which [mutate] has checked to be non-nil. *)
Definition syncContainer (tenantControlPlane : TenantControlPlane.t)
    (spec : KonnectivityServerSpec.t) (r : Deployment.t) : Deployment.t :=
  let '(found, index) := HasNamedContainer (Deployment.Containers r) konnectivityServerName in
  let containers :=
    if found then Deployment.Containers r
    else Deployment.Containers r ++ [Container.zero] in
  let index := if found then index else (length containers - 1)%nat in
  Deployment.set_Containers
    (alter (syncContainerFields tenantControlPlane spec) index containers) r.

(** The mount patch of [patchKubeAPIServerContainer]: locate the mount by
    name, append an empty one when absent, then assign the three fields. *)
Definition patchVolumeMount (name : string) (readOnly : bool) (mountPath : string)
    (volumeMounts : list VolumeMount.t) : list VolumeMount.t :=
  let '(vFound, vIndex) := HasNamedVolumeMount volumeMounts name in
  let volumeMounts := if vFound then volumeMounts else volumeMounts ++ [VolumeMount.zero] in
  let vIndex := if vFound then vIndex else (length volumeMounts - 1)%nat in
  alter (λ m, VolumeMount.set_MountPath mountPath
                (VolumeMount.set_ReadOnly readOnly (VolumeMount.set_Name name m)))
        vIndex volumeMounts.

(** What [patchKubeAPIServerContainer] does to [Containers[index]]: the
    flag is put into the decoded arguments, which are encoded again, and
    the two mounts are patched. *)
Definition patchKubeAPIServer (c : Container.t) : Container.t :=
  let args := ArgsFromSliceToMap (Container.Args c) in
  let '(_, args) :=
    ArgsAddFlagValue args "--egress-selector-config-file"
                     konnectivityEgressSelectorConfigurationPath in
  let c := Container.set_Args (ArgsFromMapToSlice args) c in
  let c := Container.set_VolumeMounts
             (patchVolumeMount konnectivityUDSVolume false konnectivityServerPath
                (Container.VolumeMounts c)) c in
  Container.set_VolumeMounts
    (patchVolumeMount egressSelectorConfigurationVolume false
       "/etc/kubernetes/konnectivity/configurations" (Container.VolumeMounts c)) c.

Definition patchKubeAPIServerContainer (r : Deployment.t) : Deployment.t * option error :=
  let '(found, index) := HasNamedContainer (Deployment.Containers r) "kube-apiserver" in
  if negb found then
    (r, Some (Errorf "missing kube-apiserver container, cannot patch arguments"))
  else
    (Deployment.set_Containers
       (alter patchKubeAPIServer index (Deployment.Containers r)) r, None).

(** One volume of [syncVolumes]: locate by name, append an empty one when
    absent, then assign the name and the whole volume source. *)
Definition syncVolume (name : string) (source : VolumeSource.t)
    (volumes : list Volume.t) : list Volume.t :=
  let '(found, index) := HasNamedVolume volumes name in
  let volumes := if found then volumes else volumes ++ [Volume.zero] in
  let index := if found then index else (length volumes - 1)%nat in
  alter (λ v, Volume.set_VolumeSource source (Volume.set_Name name v)) index volumes.

Definition syncVolumes (tenantControlPlane : TenantControlPlane.t) (r : Deployment.t)
    : Deployment.t :=
  let volumes := Deployment.Volumes r in
  let volumes :=
    syncVolume konnectivityUDSVolume
      (VolumeSource.mk (Some (VolumeSource.mkEmptyDir "Memory")) None None) volumes in
  let volumes :=
    syncVolume egressSelectorConfigurationVolume
      (VolumeSource.mk None
         (Some (VolumeSource.mkConfigMap
                  (TenantControlPlane.Status_Addons_Konnectivity_ConfigMap_Name
                     tenantControlPlane) (Some 420%Z))) None) volumes in
  let volumes :=
    syncVolume konnectivityServerKubeconfigVolume
      (VolumeSource.mk None None
         (Some (VolumeSource.mkSecret
                  (TenantControlPlane.Status_Addons_Konnectivity_Kubeconfig_SecretName
                     tenantControlPlane) (Some 420%Z)))) volumes in
  Deployment.set_Volumes volumes r.

(** The closure returned by [mutate]. *)
Definition mutate (tenantControlPlane : TenantControlPlane.t) (r : Deployment.t)
    : Deployment.t * option error :=
  match TenantControlPlane.Spec_Addons_Konnectivity tenantControlPlane with
  | None => (r, None)
  | Some spec =>
      if bool_decide (length (Deployment.Containers r) = 0%nat) then
        (r, Some (Errorf "the Deployment resource is not ready to be mangled for Konnectivity server enrichment"))
      else
        let r := syncContainer tenantControlPlane spec r in
        let '(r, err) := patchKubeAPIServerContainer r in
        match err with
        | Some err => (r, Some (Wrap err "cannot sync patch kube-apiserver container"))
        | None => (syncVolumes tenantControlPlane r, None)
        end
  end.

Definition CreateOrUpdate (client : Client Deployment.t) (retries : list (Client Deployment.t))
    (tenantControlPlane : TenantControlPlane.t) (resource : Deployment.t)
    : (OperationResult * option error) * Deployment.t :=
  CreateOrUpdateWithConflict client retries resource (mutate tenantControlPlane).

End Resource.
End KubernetesDeploymentResource.

(** *** [ClusterRoleBindingResource] *)

Module ClusterRoleBindingResource.
Section Resource.

(** [CertCommonName] and [roleAuthDelegator] are constants of the package,
    [KamajiLabels] and [MergeMaps] helpers of [utilities] that build the
    label map; none of them is declared in the three files at hand. *)
Variable CertCommonName : string.
Variable roleAuthDelegator : string.
Variable KamajiLabels : gmap string string.
Variable MergeMaps : gmap string string → gmap string string → gmap string string.

Definition ShouldStatusBeUpdated (resource : ClusterRoleBinding.t)
    (tenantControlPlane : TenantControlPlane.t) : bool :=
  bool_decide
    (TenantControlPlane.Status_Addons_Konnectivity_ClusterRoleBinding_Name tenantControlPlane
     ≠ ClusterRoleBinding.Name resource).

Definition ShouldCleanup (tenantControlPlane : TenantControlPlane.t) : bool :=
  bool_decide (TenantControlPlane.Spec_Addons_Konnectivity tenantControlPlane = None)
  && bool_decide
       (0 < String.length
              (TenantControlPlane.Status_Addons_Konnectivity_ClusterRoleBinding_Name
                 tenantControlPlane))%nat.

(** [CleanUp]: [tenantClient.Delete] answers nil or an error. *)
Definition CleanUp (tenantClient : Client ClusterRoleBinding.t)
    (resource : ClusterRoleBinding.t) : bool * option error :=
  match Delete tenantClient resource with
  | Some err =>
      if IsNotFound err then (false, None)
      else (false, Some err)
  | None => (true, None)
  end.

(** [Define]: the shell of the binding; [getTenantClient] is the outcome
    of [utilities.GetTenantClient]. *)
Definition Define (getTenantClient : Client ClusterRoleBinding.t + error)
    : (ClusterRoleBinding.t * option (Client ClusterRoleBinding.t)) * option error :=
  let resource :=
    ClusterRoleBinding.mk CertCommonName ∅ (RoleRef.mk "" "" "") [] in
  match getTenantClient with
  | inr err => ((resource, None), Some err)
  | inl tenantClient => ((resource, Some tenantClient), None)
  end.

(** The closure returned by [mutate]. *)
Definition mutate (resource : ClusterRoleBinding.t)
    : ClusterRoleBinding.t * option error :=
  let labels :=
    MergeMaps KamajiLabels
      (<["addonmanager.kubernetes.io/mode" := "Reconcile"]>
         (<["kubernetes.io/cluster-service" := "true"]> ∅)) in
  let roleRef := RoleRef.mk rbacv1_GroupName "ClusterRole" roleAuthDelegator in
  let subjects := [Subject.mk rbacv1_GroupName rbacv1_UserKind CertCommonName] in
  (ClusterRoleBinding.mk (ClusterRoleBinding.Name resource) labels roleRef subjects, None).

Definition CreateOrUpdate (tenantClient : Client ClusterRoleBinding.t)
    (tcp : TenantControlPlane.t) (resource : ClusterRoleBinding.t)
    : (OperationResult * option error) * ClusterRoleBinding.t :=
  match TenantControlPlane.Spec_Addons_Konnectivity tcp with
  | Some _ => utilities.CreateOrUpdate tenantClient resource mutate
  | None => ((OperationResultNone, None), resource)
  end.

Definition GetName : string := "konnectivity-clusterrolebinding".

End Resource.
End ClusterRoleBindingResource.

End konnectivity.

(** ** [internal/resources/datastore] *)

Module datastore.
Import utilities.

#[global] Instance byte_eq_dec : EqDecision Byte.byte := Byte.byte_eq_dec.

(** [[]byte(s)]. *)
Definition bytes (s : string) : list Byte.byte := String.list_byte_of_string s.

(** [metav1.OwnerReference], as [ctrl.SetControllerReference] fills it. *)
Module OwnerReference.
Record t := mk {
  Kind : string;
  Name : string;
  Controller : bool;
}.
#[global] Instance eq_dec : EqDecision t.
Proof. solve_decision. Defined.
End OwnerReference.

(** [corev1.Secret].  A nil map is the empty map, and [m[k]] on a missing
    key is the zero value ([mapIndex]). *)
Module Secret.
Record t := mk {
  Name : string;
  Namespace : string;
  Annotations : gmap string string;
  Labels : gmap string string;
  OwnerReferences : list OwnerReference.t;
  Data : gmap string (list Byte.byte);
}.
Definition set_Data (v : gmap string (list Byte.byte)) (s : t) : t :=
  mk (Name s) (Namespace s) (Annotations s) (Labels s) (OwnerReferences s) v.
Definition SetAnnotations (v : gmap string string) (s : t) : t :=
  mk (Name s) (Namespace s) v (Labels s) (OwnerReferences s) (Data s).
Definition SetLabels (v : gmap string string) (s : t) : t :=
  mk (Name s) (Namespace s) (Annotations s) v (OwnerReferences s) (Data s).
Definition SetOwnerReferences (v : list OwnerReference.t) (s : t) : t :=
  mk (Name s) (Namespace s) (Annotations s) (Labels s) v (Data s).
#[global] Instance eq_dec : EqDecision t.
Proof. solve_decision. Defined.
End Secret.

Definition mapIndex (m : gmap string (list Byte.byte)) (key : string) : list Byte.byte :=
  default [] (m !! key).

(** [kamajiv1alpha1.DataStore]. *)
Module DataStore.
Record t := mk {
  Name : string;
  Spec_Driver : string;
}.
End DataStore.

Module Config.

(** The receiver: [resource] is the Secret behind the pointer. *)
Record t := mk {
  resource : Secret.t;
  ConnString : string;
  DataStore : DataStore.t;
}.
Definition set_resource (v : Secret.t) (r : t) : t := mk v (ConnString r) (DataStore r).

Section Resource.

(** [constants.Checksum], [utilities.CalculateMapChecksum],
    [utilities.KamajiLabels], [utilities.MergeMaps] and
    [utilities.AddTenantPrefix] belong to packages that are not part of
    this development. *)
Variable Checksum : string.
Variable CalculateMapChecksum : gmap string (list Byte.byte) → string.
Variable KamajiLabels : gmap string string.
Variable MergeMaps : gmap string string → gmap string string → gmap string string.
Variable AddTenantPrefix : string → TenantControlPlane.t → string.

(** [ctrl.SetControllerReference] of controller-runtime writes nothing but
    the owner references of the controlled object: [controllerRef owner
    controlled] is the list it leaves there, or the error it returns. *)
Variable controllerRef : TenantControlPlane.t → Secret.t → list OwnerReference.t + error.

Definition SetControllerReference (owner : TenantControlPlane.t) (controlled : Secret.t)
    : Secret.t * option error :=
  match controllerRef owner controlled with
  | inl refs => (Secret.SetOwnerReferences refs controlled, None)
  | inr err => (controlled, Some err)
  end.

Definition GetName : string := "datastore-config".

Definition ShouldStatusBeUpdated (r : t) (tenantControlPlane : TenantControlPlane.t) : bool :=
  bool_decide (TenantControlPlane.Status_Storage_Config_Checksum tenantControlPlane
               ≠ default "" (Secret.Annotations (resource r) !! Checksum))
  || bool_decide (TenantControlPlane.Status_Storage_DataStoreName tenantControlPlane
                  ≠ DataStore.Name (DataStore r)).

Definition ShouldCleanup (_ : TenantControlPlane.t) : bool := false.

(** [CleanUp] ignores both of its arguments; the receiver and the tenant
    instance come back as they went in. *)
Definition CleanUp (r : t) (tenantControlPlane : TenantControlPlane.t)
    : (bool * option error) * (t * TenantControlPlane.t) :=
  ((false, None), (r, tenantControlPlane)).

Definition getPrefixedName (tenantControlPlane : TenantControlPlane.t) : string :=
  AddTenantPrefix GetName tenantControlPlane.

Definition Define (r : t) (tenantControlPlane : TenantControlPlane.t) : t * option error :=
  (set_resource
     (Secret.mk (getPrefixedName tenantControlPlane)
                (TenantControlPlane.Namespace tenantControlPlane) ∅ ∅ [] ∅) r,
   None).

(** [coalesceFn] of [mutate]. *)
Definition coalesceFn (tenantControlPlane : TenantControlPlane.t) (fromStatus : string)
    : list Byte.byte :=
  if bool_decide (0 < String.length fromStatus)%nat then bytes fromStatus
  else bytes (TenantControlPlane.Namespace tenantControlPlane +:+ "_"
              +:+ TenantControlPlane.Name tenantControlPlane).

(** The closure returned by [mutate]; [uuid] is the string that
    [uuid.New().String()] would yield in this run. *)
Definition mutate (uuid : string) (tenantControlPlane : TenantControlPlane.t) (r : t)
    : t * option error :=
  let res := resource r in
  let password :=
    match Secret.Annotations res !! Checksum with
    | Some savedHash =>
        if bool_decide (savedHash = CalculateMapChecksum (Secret.Data res))
        then mapIndex (Secret.Data res) "DB_PASSWORD"
        else bytes uuid
    | None => bytes uuid
    end in
  let data : gmap string (list Byte.byte) :=
    <["DB_PASSWORD" := password]>
      (<["DB_USER" := coalesceFn tenantControlPlane
                        (TenantControlPlane.Status_Storage_Setup_User tenantControlPlane)]>
         (<["DB_SCHEMA" := coalesceFn tenantControlPlane
                             (TenantControlPlane.Status_Storage_Setup_Schema tenantControlPlane)]>
            (<["DB_CONNECTION_STRING" := bytes (ConnString r)]> ∅))) in
  let res := Secret.set_Data data res in
  let annotations := Secret.Annotations res in
  let annotations := <[Checksum := CalculateMapChecksum (Secret.Data res)]> annotations in
  let res := Secret.SetAnnotations annotations res in
  let res :=
    Secret.SetLabels
      (MergeMaps KamajiLabels
         (<["kamaji.clastix.io/component" := GetName]>
            (<["kamaji.clastix.io/name" := TenantControlPlane.Name tenantControlPlane]> ∅)))
      res in
  let '(res, err) := SetControllerReference tenantControlPlane res in
  (set_resource res r, err).

End Resource.
End Config.
End datastore.

(** * Properties *)

(** ** The argument codec *)

Module codec.
Import utilities.

(** A flag that [ArgsFromSliceToMap] can produce has no ['='] in it. *)
Fixpoint noEq (s : string) : bool :=
  match s with
  | EmptyString => true
  | String c rest => if decide (c = "="%char) then false else noEq rest
  end.

(** One token read back: the flag and its value. *)
Definition parseArg (arg : string) : string * string :=
  ((SplitN2 arg).1, default "" (SplitN2 arg).2).

Lemma SplitN2_noEq arg : noEq (SplitN2 arg).1 = true.
Proof.
  induction arg as [|c rest IH]; simpl; [done|].
  destruct (decide (c = "="%char)) as [->|Hc]; simpl; [done|].
  destruct (SplitN2 rest) as [flag value]; simpl in *.
  by destruct (decide (c = "="%char)).
Qed.

Lemma SplitN2_bare flag : noEq flag = true → SplitN2 flag = (flag, None).
Proof.
  induction flag as [|c rest IH]; simpl; [done|].
  destruct (decide (c = "="%char)); [done|].
  intros H. by rewrite (IH H).
Qed.

Lemma SplitN2_assign flag value :
  noEq flag = true → SplitN2 (flag +:+ "=" +:+ value) = (flag, Some value).
Proof.
  induction flag as [|c rest IH]; simpl; [done|].
  destruct (decide (c = "="%char)); [done|].
  intros H. by rewrite (IH H).
Qed.

Lemma parseArg_argToken kv : noEq kv.1 = true → parseArg (argToken kv) = kv.
Proof.
  destruct kv as [flag value]; simpl. intros H.
  unfold parseArg, argToken; simpl.
  destruct (decide (value = "")) as [->|Hv].
  - by rewrite SplitN2_bare.
  - by rewrite SplitN2_assign.
Qed.

Lemma ArgsFromSliceToMap_foldl args :
  ArgsFromSliceToMap args
  = foldl (λ m kv, <[kv.1 := kv.2]> m) ∅ (parseArg <$> args).
Proof.
  unfold ArgsFromSliceToMap. generalize (∅ : gmap string string).
  induction args as [|arg args IH]; intros m; simpl; [done|].
  rewrite <-IH. unfold parseArg. by destruct (SplitN2 arg).
Qed.

Lemma foldl_insert_list_to_map (l : list (string * string)) :
  NoDup l.*1 →
  foldl (λ m kv, <[kv.1 := kv.2]> m) (∅ : gmap string string) l = list_to_map l.
Proof.
  induction l as [|[k v] l IH] using rev_ind; [done|].
  rewrite fmap_app, foldl_snoc. simpl. intros Hnd.
  apply NoDup_app in Hnd as (Hl & Hk & _).
  rewrite list_to_map_snoc, IH; [done|done|].
  intros Hin. apply (Hk k Hin). by left.
Qed.

(** Every flag of a decoded map is free of ['=']. *)
Lemma ArgsFromSliceToMap_noEq args flag :
  is_Some (ArgsFromSliceToMap args !! flag) → noEq flag = true.
Proof.
  unfold ArgsFromSliceToMap.
  assert (∀ m : gmap string string,
    (∀ k, is_Some (m !! k) → noEq k = true) →
    is_Some (foldl (λ m arg, let '(flag, value) := SplitN2 arg in
                             <[flag := default "" value]> m) m args !! flag) →
    noEq flag = true) as H.
  { induction args as [|arg args IH]; intros m Hm; simpl; [by apply Hm|].
    apply IH. intros k. pose proof (SplitN2_noEq arg) as Hk.
    destruct (SplitN2 arg) as [f v]; simpl in *.
    destruct (decide (f = k)) as [<-|Hne]; [done|].
    rewrite lookup_insert_ne by done. apply Hm. }
  apply H. intros k. rewrite lookup_empty. by intros [? ?].
Qed.

(** The flags of a map are all free of ['=']. *)
Definition flagsNoEq (m : gmap string string) : Prop :=
  ∀ flag, is_Some (m !! flag) → noEq flag = true.

Lemma flagsNoEq_decode args : flagsNoEq (ArgsFromSliceToMap args).
Proof. intros flag. apply ArgsFromSliceToMap_noEq. Qed.

Lemma flagsNoEq_insert m flag value :
  noEq flag = true → flagsNoEq m → flagsNoEq (<[flag := value]> m).
Proof.
  intros Hf Hm k. destruct (decide (flag = k)) as [<-|Hne]; [done|].
  rewrite lookup_insert_ne by done. apply Hm.
Qed.

Lemma flagsNoEq_delete m flag : flagsNoEq m → flagsNoEq (delete flag m).
Proof.
  intros Hm k. destruct (decide (flag = k)) as [<-|Hne].
  - rewrite lookup_delete_eq. by intros [? ?].
  - rewrite lookup_delete_ne by done. apply Hm.
Qed.

(** The tokens of an encoded map, up to order. *)
Lemma ArgsFromMapToSlice_Permutation m :
  ArgsFromMapToSlice m ≡ₚ argToken <$> map_to_list m.
Proof. apply merge_sort_Permutation. Qed.

Lemma elem_of_ArgsFromMapToSlice m arg :
  arg ∈ ArgsFromMapToSlice m ↔
  ∃ flag value, m !! flag = Some value ∧ arg = argToken (flag, value).
Proof.
  rewrite ArgsFromMapToSlice_Permutation, list_elem_of_fmap. split.
  - intros ([flag value] & -> & Hin). exists flag, value.
    by apply elem_of_map_to_list in Hin.
  - intros (flag & value & Hm & ->). exists (flag, value).
    by rewrite elem_of_map_to_list.
Qed.

(** Round trip: decoding what was encoded gives the map back. *)
Lemma decode_encode m :
  flagsNoEq m → ArgsFromSliceToMap (ArgsFromMapToSlice m) = m.
Proof.
  intros Hm. rewrite ArgsFromSliceToMap_foldl.
  assert (parseArg <$> ArgsFromMapToSlice m ≡ₚ map_to_list m) as Hperm.
  { rewrite ArgsFromMapToSlice_Permutation, <-list_fmap_compose.
    assert (parseArg ∘ argToken <$> map_to_list m = map_to_list m) as ->; [|done].
    rewrite <-(list_fmap_id (map_to_list m)) at 2.
    apply list_fmap_ext.
    intros i [flag value] Hin%list_elem_of_lookup_2%elem_of_map_to_list. simpl.
    apply parseArg_argToken. simpl. apply Hm. by exists value. }
  rewrite foldl_insert_list_to_map.
  - rewrite <-(list_to_map_to_list m) at 2. symmetry.
    apply list_to_map_proper; [apply NoDup_fst_map_to_list|by symmetry].
  - rewrite Hperm. apply NoDup_fst_map_to_list.
Qed.

End codec.

(** ** The named-element locator and the patch it makes idempotent *)

Module locator.
Import utilities.

Section hasNamed.
Context {A : Type} (nameOf : A → string).

(** Locate by name, append [zero] when absent, then apply the field
    assignments [g] at the index: the shape shared by [syncContainer],
    [syncVolumes] and the mount patch. *)
Definition upsert (zero : A) (g : A → A) (name : string) (l : list A) : list A :=
  let '(found, index) := hasNamed nameOf l name in
  let l' := if found then l else l ++ [zero] in
  let index := if found then index else (length l' - 1)%nat in
  alter g index l'.

(** The element called [name] is there and [g] has nothing left to do on it. *)
Definition settled (g : A → A) (name : string) (l : list A) : Prop :=
  ∃ i x, hasNamed nameOf l name = (true, i) ∧ l !! i = Some x ∧ g x = x.

Lemma hasNamed_fmap l name :
  hasNamed nameOf l name = hasNamed id (nameOf <$> l) name.
Proof.
  induction l as [|x l IH]; csimpl; [done|]. by rewrite IH.
Qed.

Lemma hasNamed_true (l : list A) name (i : nat) :
  hasNamed nameOf l name = (true, i) →
  ∃ x, l !! i = Some x ∧ nameOf x = name ∧ Forall (λ y, nameOf y ≠ name) (take i l).
Proof.
  revert i. induction l as [|x l IH]; intros i; simpl; [done|].
  destruct (decide (nameOf x = name)) as [Hx|Hx].
  - intros [= <-]. exists x. by rewrite take_0.
  - destruct (hasNamed nameOf l name) as [[] j]; intros [= <-].
    destruct (IH j eq_refl) as (y & Hy & Hn & Hall).
    exists y. simpl. split_and!; [done|done|]. by constructor.
Qed.

Lemma hasNamed_false (l : list A) name (i : nat) :
  hasNamed nameOf l name = (false, i) →
  i = 0%nat ∧ Forall (λ y, nameOf y ≠ name) l.
Proof.
  revert i. induction l as [|x l IH]; intros i; simpl.
  - by intros [= <-].
  - destruct (decide (nameOf x = name)) as [Hx|Hx]; [done|].
    destruct (hasNamed nameOf l name) as [[] j]; intros [= <-].
    destruct (IH j eq_refl) as [_ Hall]. split; [done|]. by constructor.
Qed.

Lemma hasNamed_absent l name :
  Forall (λ y, nameOf y ≠ name) l → hasNamed nameOf l name = (false, 0%nat).
Proof.
  induction 1 as [|x l Hx _ IH]; simpl; [done|].
  destruct (decide (nameOf x = name)); [done|]. by rewrite IH.
Qed.

Lemma hasNamed_present (l : list A) name (i : nat) x :
  l !! i = Some x → nameOf x = name →
  Forall (λ y, nameOf y ≠ name) (take i l) →
  hasNamed nameOf l name = (true, i).
Proof.
  revert i. induction l as [|y l IH]; intros i; [done|].
  destruct i as [|i]; simpl.
  - intros [= ->] Hx _. by destruct (decide (nameOf x = name)).
  - intros Hl Hx Hall. apply Forall_cons in Hall as [Hy Hall].
    destruct (decide (nameOf y = name)); [done|].
    by rewrite (IH i Hl Hx Hall).
Qed.

(** Found or not, one or the other. *)
Lemma hasNamed_cases l name :
  (∃ i, hasNamed nameOf l name = (true, i)) ∨ hasNamed nameOf l name = (false, 0%nat).
Proof.
  destruct (hasNamed nameOf l name) as [[] i] eqn:H.
  - left. by exists i.
  - right. by destruct (hasNamed_false _ _ _ H) as [-> _].
Qed.

Lemma hasNamed_found_iff l name :
  (hasNamed nameOf l name).1 = true ↔ ∃ x, x ∈ l ∧ nameOf x = name.
Proof.
  split.
  - destruct (hasNamed nameOf l name) as [[] i] eqn:H; [|done]. intros _.
    destruct (hasNamed_true _ _ _ H) as (x & Hx & Hn & _).
    exists x. split; [|done]. by eapply list_elem_of_lookup_2.
  - intros (x & Hin & Hn).
    destruct (hasNamed_cases l name) as [[i ->]|H]; [done|].
    apply hasNamed_false in H as [_ Hall].
    rewrite Forall_forall in Hall. by destruct (Hall x Hin).
Qed.

(** Locating depends on the names only. *)
Lemma hasNamed_names {B : Type} (nameOf' : B → string) (l : list A) (l' : list B) name :
  nameOf <$> l = nameOf' <$> l' →
  hasNamed nameOf l name = hasNamed nameOf' l' name.
Proof.
  intros H. rewrite hasNamed_fmap, H.
  clear. induction l' as [|x l IH]; csimpl; [done|]. by rewrite IH.
Qed.

Lemma names_alter (h : A → A) (j : nat) (l : list A) :
  (∀ x, l !! j = Some x → nameOf (h x) = nameOf x) →
  nameOf <$> alter h j l = nameOf <$> l.
Proof.
  revert j. induction l as [|y l IH]; intros j Hh; [done|].
  destruct j as [|j]; simpl.
  - by rewrite (Hh y eq_refl).
  - f_equal. apply IH. intros x Hx. by apply Hh.
Qed.

Lemma hasNamed_alter (h : A → A) (j : nat) (l : list A) name :
  (∀ x, l !! j = Some x → nameOf (h x) = nameOf x) →
  hasNamed nameOf (alter h j l) name = hasNamed nameOf l name.
Proof. intros Hh. apply hasNamed_names. by apply names_alter. Qed.

Lemma hasNamed_snoc_other l x name :
  nameOf x ≠ name → hasNamed nameOf (l ++ [x]) name = hasNamed nameOf l name.
Proof.
  intros Hx. induction l as [|y l IH]; simpl.
  - by destruct (decide (nameOf x = name)).
  - by rewrite IH.
Qed.

Section upsert.
Context (zero : A) (g : A → A) (name : string).
Hypothesis g_name : ∀ x, nameOf (g x) = name.
Hypothesis g_idem : ∀ x, g (g x) = g x.

Lemma upsert_found l i :
  hasNamed nameOf l name = (true, i) → upsert zero g name l = alter g i l.
Proof. unfold upsert. by intros ->. Qed.

Lemma upsert_absent l :
  hasNamed nameOf l name = (false, 0%nat) → upsert zero g name l = l ++ [g zero].
Proof.
  unfold upsert. intros ->. rewrite length_app. simpl.
  replace (length l + 1 - 1)%nat with (length l + 0)%nat by lia.
  by rewrite alter_app_r.
Qed.

Lemma upsert_settled l : settled g name (upsert zero g name l).
Proof.
  destruct (hasNamed_cases l name) as [[i H]|H].
  - rewrite (upsert_found _ _ H).
    destruct (hasNamed_true _ _ _ H) as (x & Hx & Hn & Hall).
    exists i, (g x). split_and!; [| |done].
    + rewrite hasNamed_alter; [done|]. intros y Hy.
      rewrite g_name. congruence.
    + by rewrite list_lookup_alter_eq, Hx.
  - rewrite (upsert_absent _ H).
    apply hasNamed_false in H as [_ Hall].
    exists (length l), (g zero). split_and!; [| |done].
    + apply hasNamed_present with (g zero); [|done|].
      * by rewrite lookup_app_r, Nat.sub_diag.
      * by rewrite take_app_length.
    + by rewrite lookup_app_r, Nat.sub_diag.
Qed.

Lemma settled_upsert l : settled g name l → upsert zero g name l = l.
Proof.
  intros (i & x & H & Hx & Hg). rewrite (upsert_found _ _ H).
  apply list_eq. intros j. destruct (decide (i = j)) as [<-|Hne].
  - by rewrite list_lookup_alter_eq, Hx; simpl; rewrite Hg.
  - by rewrite list_lookup_alter_ne.
Qed.

Lemma hasNamed_upsert_other l name' :
  name' ≠ name →
  hasNamed nameOf (upsert zero g name l) name' = hasNamed nameOf l name'.
Proof.
  intros Hne. destruct (hasNamed_cases l name) as [[i H]|H].
  - rewrite (upsert_found _ _ H). apply hasNamed_alter.
    destruct (hasNamed_true _ _ _ H) as (x & Hx & Hn & _).
    intros y Hy. rewrite g_name. congruence.
  - rewrite (upsert_absent _ H). apply hasNamed_snoc_other.
    rewrite g_name. congruence.
Qed.

(** Patching the element called [name] leaves the others where and as
    they were. *)
Lemma lookup_upsert_other (l : list A) (j : nat) y :
  l !! j = Some y → nameOf y ≠ name → upsert zero g name l !! j = Some y.
Proof.
  intros Hy Hn. destruct (hasNamed_cases l name) as [[i H]|H].
  - rewrite (upsert_found _ _ H).
    destruct (hasNamed_true _ _ _ H) as (x & Hx & Hxn & _).
    rewrite list_lookup_alter_ne; [done|]. intros ->. congruence.
  - rewrite (upsert_absent _ H). by apply lookup_app_l_Some.
Qed.

End upsert.

Lemma settled_upsert_other zero g name g' name' l :
  (∀ x, nameOf (g x) = name) → name' ≠ name →
  settled g' name' l → settled g' name' (upsert zero g name l).
Proof.
  intros Hg Hne (i & x & H & Hx & Hfix).
  exists i, x. split_and!; [| |done].
  - by rewrite (hasNamed_upsert_other zero g name Hg).
  - apply (lookup_upsert_other zero g name); [done|].
    destruct (hasNamed_true _ _ _ H) as (x' & Hx' & Hn & _). congruence.
Qed.

Lemma alter_fixed (h : A → A) (i : nat) (l : list A) x :
  l !! i = Some x → h x = x → alter h i l = l.
Proof.
  intros Hx Hh. apply list_eq. intros k. destruct (decide (i = k)) as [<-|Hne].
  - by rewrite list_lookup_alter_eq, Hx; simpl; rewrite Hh.
  - by rewrite list_lookup_alter_ne.
Qed.

Lemma alter_beyond (h : A → A) (i : nat) (l : list A) :
  l !! i = None → alter h i l = l.
Proof.
  intros Hx. apply list_eq. intros k. destruct (decide (i = k)) as [<-|Hne].
  - by rewrite list_lookup_alter_eq, Hx.
  - by rewrite list_lookup_alter_ne.
Qed.

(** Field assignments at the located index, without the append. *)
Lemma settled_alter g name (l : list A) (j : nat) :
  settled g name l → hasNamed nameOf l name = (true, j) → alter g j l = l.
Proof.
  intros (i & x & H & Hx & Hg) Hj. assert (i = j) as -> by congruence.
  apply list_eq. intros k. destruct (decide (j = k)) as [<-|Hne].
  - by rewrite list_lookup_alter_eq, Hx; simpl; rewrite Hg.
  - by rewrite list_lookup_alter_ne.
Qed.

Lemma settled_alter_self h name (l : list A) (j : nat) :
  (∀ x, nameOf (h x) = nameOf x) → (∀ x, h (h x) = h x) →
  hasNamed nameOf l name = (true, j) → settled h name (alter h j l).
Proof.
  intros Hname Hidem H.
  destruct (hasNamed_true _ _ _ H) as (x & Hx & _).
  exists j, (h x). split_and!; [| |done].
  - by rewrite hasNamed_alter.
  - by rewrite list_lookup_alter_eq, Hx.
Qed.

Lemma settled_alter_other g name h name' (l : list A) (j : nat) :
  (∀ x, nameOf (h x) = nameOf x) → name' ≠ name →
  hasNamed nameOf l name' = (true, j) →
  settled g name l → settled g name (alter h j l).
Proof.
  intros Hname Hne Hj (i & x & H & Hx & Hg).
  exists i, x. split_and!; [| |done].
  - by rewrite hasNamed_alter.
  - rewrite list_lookup_alter_ne; [done|]. intros ->.
    destruct (hasNamed_true _ _ _ H) as (y & Hy & Hyn & _).
    destruct (hasNamed_true _ _ _ Hj) as (z & Hz & Hzn & _). congruence.
Qed.

(** Locate by name and cut the element out, when it is there: the shape
    of every deletion of [CleanUp]. *)
Definition deleteNamed (name : string) (l : list A) : list A :=
  let '(found, index) := hasNamed nameOf l name in
  if found then konnectivity.KubernetesDeploymentResource.removeAt index l else l.

Lemma removeAt_sublist (i : nat) (l : list A) :
  konnectivity.KubernetesDeploymentResource.removeAt i l `sublist_of` l.
Proof.
  unfold konnectivity.KubernetesDeploymentResource.removeAt.
  rewrite <-(take_drop i l) at 3. apply sublist_app; [done|].
  replace (S i) with (i + 1)%nat by lia.
  rewrite <-drop_drop. apply sublist_drop.
Qed.

Lemma removeAt_filter (P : A → Prop) `{!∀ x, Decision (P x)} (i : nat) (l : list A) x :
  l !! i = Some x → ¬ P x →
  filter P (konnectivity.KubernetesDeploymentResource.removeAt i l) = filter P l.
Proof.
  intros Hx HP. unfold konnectivity.KubernetesDeploymentResource.removeAt.
  rewrite <-(take_drop_middle l i x Hx) at 3.
  by rewrite !filter_app, filter_cons_False.
Qed.

Lemma deleteNamed_absent name (l : list A) :
  Forall (λ y, nameOf y ≠ name) l → deleteNamed name l = l.
Proof. intros H. unfold deleteNamed. by rewrite (hasNamed_absent _ _ H). Qed.

Lemma deleteNamed_sublist name (l : list A) : deleteNamed name l `sublist_of` l.
Proof.
  unfold deleteNamed. destruct (hasNamed nameOf l name) as [[] i]; [|done].
  apply removeAt_sublist.
Qed.

(** Only an element called [name] can go. *)
Lemma deleteNamed_filter (P : A → Prop) `{!∀ x, Decision (P x)} name (l : list A) :
  (∀ x, nameOf x = name → ¬ P x) →
  filter P (deleteNamed name l) = filter P l.
Proof.
  intros HP. unfold deleteNamed.
  destruct (hasNamed nameOf l name) as [[] i] eqn:Hi; [|done].
  destruct (hasNamed_true _ _ _ Hi) as (x & Hx & Hn & _).
  apply (removeAt_filter P i l x); [done|]. by apply HP.
Qed.

Lemma deleteNamed_middle name (l rest : list A) x :
  Forall (λ y, nameOf y ≠ name) l → nameOf x = name →
  deleteNamed name (l ++ x :: rest) = l ++ rest.
Proof.
  intros Hl Hx. unfold deleteNamed.
  rewrite (hasNamed_present (l ++ x :: rest) name (length l) x).
  - unfold konnectivity.KubernetesDeploymentResource.removeAt.
    rewrite take_app_length. f_equal.
    rewrite drop_app_ge by lia.
    by replace (S (length l) - length l)%nat with 1%nat by lia.
  - by rewrite list_lookup_middle.
  - done.
  - by rewrite take_app_length.
Qed.

Lemma hasNamed_app_absent name (l k : list A) :
  Forall (λ y, nameOf y ≠ name) l → Forall (λ y, nameOf y ≠ name) k →
  hasNamed nameOf (l ++ k) name = (false, 0%nat).
Proof. intros Hl Hk. apply hasNamed_absent. by apply Forall_app. Qed.

End hasNamed.
End locator.

(** ** The sidecar patcher *)

Module deployment_facts.
Import utilities konnectivity konnectivity.KubernetesDeploymentResource codec locator.

Section Facts.
Variable AgentName : string.
Variable CertCommonName : string.

Abbreviation serverArgs := (serverArgs AgentName CertCommonName).
Abbreviation syncContainerFields := (syncContainerFields AgentName CertCommonName).
Abbreviation syncContainer := (syncContainer AgentName CertCommonName).
Abbreviation mutate := (mutate AgentName CertCommonName).

Lemma syncContainerFields_name tcp spec c :
  Container.Name (syncContainerFields tcp spec c) = konnectivityServerName.
Proof.
  unfold KubernetesDeploymentResource.syncContainerFields.
  by destruct (KonnectivityServerSpec.Resources spec).
Qed.

(** Every modelled field of the slot is overwritten. *)
Lemma syncContainerFields_const tcp spec c c' :
  syncContainerFields tcp spec c = syncContainerFields tcp spec c'.
Proof.
  unfold KubernetesDeploymentResource.syncContainerFields.
  by destruct (KonnectivityServerSpec.Resources spec).
Qed.

Lemma syncContainerFields_idem tcp spec c :
  syncContainerFields tcp spec (syncContainerFields tcp spec c)
  = syncContainerFields tcp spec c.
Proof. apply syncContainerFields_const. Qed.

Lemma syncContainer_upsert tcp spec r :
  syncContainer tcp spec r
  = Deployment.set_Containers
      (upsert Container.Name Container.zero (syncContainerFields tcp spec)
              konnectivityServerName (Deployment.Containers r)) r.
Proof.
  unfold KubernetesDeploymentResource.syncContainer, upsert, HasNamedContainer.
  by destruct (hasNamed Container.Name (Deployment.Containers r) konnectivityServerName).
Qed.

Lemma syncContainer_kube_apiserver tcp spec r :
  HasNamedContainer (Deployment.Containers (syncContainer tcp spec r)) "kube-apiserver"
  = HasNamedContainer (Deployment.Containers r) "kube-apiserver".
Proof.
  rewrite syncContainer_upsert. simpl.
  apply hasNamed_upsert_other; [|done].
  intros x. apply syncContainerFields_name.
Qed.

(** The error of [mutate], when the add-on is enabled: there is one exactly
    when no container is called kube-apiserver. *)
Lemma mutate_error tcp spec r :
  TenantControlPlane.Spec_Addons_Konnectivity tcp = Some spec →
  (mutate tcp r).2
  = if (HasNamedContainer (Deployment.Containers r) "kube-apiserver").1 then None
    else if bool_decide (length (Deployment.Containers r) = 0%nat) then
      Some (Errorf "the Deployment resource is not ready to be mangled for Konnectivity server enrichment")
    else
      Some (Wrap (Errorf "missing kube-apiserver container, cannot patch arguments")
                 "cannot sync patch kube-apiserver container").
Proof.
  intros Hspec. unfold KubernetesDeploymentResource.mutate. rewrite Hspec.
  case_bool_decide as Hlen.
  - apply length_zero_iff_nil in Hlen. by rewrite Hlen.
  - unfold patchKubeAPIServerContainer.
    rewrite syncContainer_kube_apiserver.
    by destruct (HasNamedContainer (Deployment.Containers r) "kube-apiserver") as [[] i].
Qed.

(** C4: with the add-on enabled, the inject mutation returns an error when
    the container list is empty or has no container named kube-apiserver,
    and returns no error when a kube-apiserver container is present. *)
Theorem mutate_fails_iff_no_kube_apiserver tcp spec r :
  TenantControlPlane.Spec_Addons_Konnectivity tcp = Some spec →
  (Deployment.Containers r = []
   ∨ Forall (λ c, Container.Name c ≠ "kube-apiserver") (Deployment.Containers r) →
   is_Some (mutate tcp r).2)
  ∧ ((∃ c, c ∈ Deployment.Containers r ∧ Container.Name c = "kube-apiserver") →
     (mutate tcp r).2 = None).
Proof.
  intros Hspec. rewrite (mutate_error _ _ _ Hspec). split.
  - intros Habsent.
    assert (Forall (λ c, Container.Name c ≠ "kube-apiserver") (Deployment.Containers r))
      as Hall by (destruct Habsent as [->|?]; [constructor|done]).
    unfold HasNamedContainer. rewrite (hasNamed_absent _ _ _ Hall). simpl.
    by case_bool_decide.
  - intros Hpresent. apply (hasNamed_found_iff Container.Name) in Hpresent.
    unfold HasNamedContainer. by rewrite Hpresent.
Qed.

(** The thirteen flags that [syncContainer] assigns, with the values it
    gives them. *)
Definition requiredFlags (tcp : TenantControlPlane.t) (spec : KonnectivityServerSpec.t)
    : list (string * string) :=
  [("--uds-name", "/run/konnectivity/konnectivity-server.socket");
   ("--cluster-cert", "/etc/kubernetes/pki/apiserver.crt");
   ("--cluster-key", "/etc/kubernetes/pki/apiserver.key");
   ("--mode", "grpc");
   ("--server-port", "0");
   ("--agent-port", pretty (KonnectivityServerSpec.Port spec));
   ("--admin-port", "8133");
   ("--health-port", "8134");
   ("--agent-namespace", "kube-system");
   ("--agent-service-account", AgentName);
   ("--kubeconfig", "/etc/kubernetes/konnectivity-server.conf");
   ("--authentication-audience", CertCommonName);
   ("--server-count",
    pretty (TenantControlPlane.Spec_ControlPlane_Deployment_Replicas tcp))].

Lemma serverArgs_required tcp spec flag value :
  (flag, value) ∈ requiredFlags tcp spec → serverArgs tcp spec !! flag = Some value.
Proof.
  unfold requiredFlags, KubernetesDeploymentResource.serverArgs. intros Hin.
  repeat (apply elem_of_cons in Hin as [[= -> ->]|Hin];
    [repeat (rewrite lookup_insert_ne by done); apply lookup_insert_eq|]).
  by apply elem_of_nil in Hin.
Qed.

Lemma serverArgs_noEq tcp spec : flagsNoEq (serverArgs tcp spec).
Proof.
  unfold KubernetesDeploymentResource.serverArgs.
  repeat (apply flagsNoEq_insert; [done|]). apply flagsNoEq_decode.
Qed.

(** What [syncContainer] leaves behind: the sidecar is located by name
    and carries the freshly computed fields. *)
Lemma syncContainer_sidecar tcp spec r :
  ∃ index c,
    HasNamedContainer (Deployment.Containers (syncContainer tcp spec r))
                      konnectivityServerName = (true, index)
    ∧ Deployment.Containers (syncContainer tcp spec r) !! index = Some c
    ∧ c = syncContainerFields tcp spec c.
Proof.
  rewrite syncContainer_upsert. simpl.
  destruct (upsert_settled Container.Name Container.zero
              (syncContainerFields tcp spec) konnectivityServerName
              (λ x, syncContainerFields_name tcp spec x)
              (λ x, syncContainerFields_idem tcp spec x)
              (Deployment.Containers r)) as (i & x & H & Hx & Hfix).
  by exists i, x.
Qed.

Lemma syncContainerFields_Args tcp spec c :
  Container.Args (syncContainerFields tcp spec c)
  = ArgsFromMapToSlice (serverArgs tcp spec).
Proof.
  unfold KubernetesDeploymentResource.syncContainerFields.
  by destruct (KonnectivityServerSpec.Resources spec).
Qed.

(** A flag that is not one of the thirteen is in the argument map of the
    sidecar as the user's extra arguments have it. *)
Lemma serverArgs_extra tcp spec flag :
  flag ∉ (requiredFlags tcp spec).*1 →
  serverArgs tcp spec !! flag
  = ArgsFromSliceToMap (KonnectivityServerSpec.ExtraArgs spec) !! flag.
Proof.
  intros Hflag. unfold KubernetesDeploymentResource.serverArgs.
  rewrite !lookup_insert_ne; [done|..];
    intros <-; apply Hflag; apply list_elem_of_In; simpl; tauto.
Qed.

(** C5: the sidecar's arguments are the user's [ExtraArgs] decoded into a
    map with every required flag assigned afterwards.  So whatever
    [ExtraArgs] say about a required flag, the argument list of the
    sidecar carries the required value for it: the decoded list maps the
    flag to that value, the one token of the flag is in the list, and no
    other token of the list has this flag.  Every other flag is in the
    argument list as [ExtraArgs] have it: the decoded list maps it to what
    the decoded [ExtraArgs] map it to (or to nothing), and the token of a
    flag that [ExtraArgs] set is in the list. *)
Theorem syncContainer_required_flags_win tcp spec r flag value :
  (flag, value) ∈ requiredFlags tcp spec →
  ∃ index c,
    HasNamedContainer (Deployment.Containers (syncContainer tcp spec r))
                      konnectivityServerName = (true, index)
    ∧ Deployment.Containers (syncContainer tcp spec r) !! index = Some c
    ∧ Container.Args c = ArgsFromMapToSlice (serverArgs tcp spec)
    ∧ ArgsFromSliceToMap (Container.Args c) !! flag = Some value
    ∧ argToken (flag, value) ∈ Container.Args c
    ∧ (∀ arg, arg ∈ Container.Args c → (SplitN2 arg).1 = flag →
              arg = argToken (flag, value))
    ∧ (∀ flag', flag' ∉ (requiredFlags tcp spec).*1 →
                ArgsFromSliceToMap (Container.Args c) !! flag'
                = ArgsFromSliceToMap (KonnectivityServerSpec.ExtraArgs spec) !! flag')
    ∧ (∀ flag' value',
         flag' ∉ (requiredFlags tcp spec).*1 →
         ArgsFromSliceToMap (KonnectivityServerSpec.ExtraArgs spec) !! flag' = Some value' →
         argToken (flag', value') ∈ Container.Args c).
Proof.
  intros Hreq%serverArgs_required.
  destruct (syncContainer_sidecar tcp spec r) as (index & c & Hfound & Hc & Hfields).
  exists index, c. split_and!; [done|done|..].
  - rewrite Hfields. apply syncContainerFields_Args.
  - rewrite Hfields, syncContainerFields_Args, decode_encode; [done|].
    apply serverArgs_noEq.
  - rewrite Hfields, syncContainerFields_Args.
    apply elem_of_ArgsFromMapToSlice. by exists flag, value.
  - intros arg. rewrite Hfields, syncContainerFields_Args.
    intros (flag' & value' & Hm & ->)%elem_of_ArgsFromMapToSlice Hflag.
    assert (noEq flag' = true) as Hno by (apply (serverArgs_noEq tcp spec); eauto).
    pose proof (parseArg_argToken (flag', value') Hno) as Hparse.
    unfold parseArg in Hparse. rewrite Hflag in Hparse.
    injection Hparse as <- _. congruence.
  - intros flag' Hflag'.
    rewrite Hfields, syncContainerFields_Args, decode_encode by apply serverArgs_noEq.
    by apply serverArgs_extra.
  - intros flag' value' Hflag' Hextra.
    rewrite Hfields, syncContainerFields_Args.
    apply elem_of_ArgsFromMapToSlice. exists flag', value'. split; [|done].
    by rewrite serverArgs_extra.
Qed.

(** *** Injection is idempotent *)

(** The field assignments of the two mounts and the three volumes. *)
Definition mountFields (name : string) (readOnly : bool) (mountPath : string)
    (m : VolumeMount.t) : VolumeMount.t :=
  VolumeMount.set_MountPath mountPath
    (VolumeMount.set_ReadOnly readOnly (VolumeMount.set_Name name m)).

Definition volumeFields (name : string) (source : VolumeSource.t) (v : Volume.t)
    : Volume.t :=
  Volume.set_VolumeSource source (Volume.set_Name name v).

Definition udsSource : VolumeSource.t :=
  VolumeSource.mk (Some (VolumeSource.mkEmptyDir "Memory")) None None.

Definition egressSource (tcp : TenantControlPlane.t) : VolumeSource.t :=
  VolumeSource.mk None
    (Some (VolumeSource.mkConfigMap
             (TenantControlPlane.Status_Addons_Konnectivity_ConfigMap_Name tcp)
             (Some 420%Z))) None.

Definition kubeconfigSource (tcp : TenantControlPlane.t) : VolumeSource.t :=
  VolumeSource.mk None None
    (Some (VolumeSource.mkSecret
             (TenantControlPlane.Status_Addons_Konnectivity_Kubeconfig_SecretName tcp)
             (Some 420%Z))).

Lemma patchVolumeMount_upsert name readOnly mountPath volumeMounts :
  patchVolumeMount name readOnly mountPath volumeMounts
  = upsert VolumeMount.Name VolumeMount.zero (mountFields name readOnly mountPath)
           name volumeMounts.
Proof.
  unfold patchVolumeMount, upsert, HasNamedVolumeMount.
  by destruct (hasNamed VolumeMount.Name volumeMounts name).
Qed.

Lemma syncVolume_upsert name source volumes :
  syncVolume name source volumes
  = upsert Volume.Name Volume.zero (volumeFields name source) name volumes.
Proof.
  unfold syncVolume, upsert, HasNamedVolume.
  by destruct (hasNamed Volume.Name volumes name).
Qed.

Lemma mountFields_name name readOnly mountPath m :
  VolumeMount.Name (mountFields name readOnly mountPath m) = name.
Proof. done. Qed.

Lemma mountFields_idem name readOnly mountPath m :
  mountFields name readOnly mountPath (mountFields name readOnly mountPath m)
  = mountFields name readOnly mountPath m.
Proof. done. Qed.

Lemma volumeFields_name name source v : Volume.Name (volumeFields name source v) = name.
Proof. done. Qed.

Lemma volumeFields_idem name source v :
  volumeFields name source (volumeFields name source v) = volumeFields name source v.
Proof. done. Qed.

(** The mounts of the primary container after the patch: both mounts are
    there with their fields assigned. *)
Definition mountsPatched (volumeMounts : list VolumeMount.t) : Prop :=
  settled VolumeMount.Name (mountFields konnectivityUDSVolume false konnectivityServerPath)
          konnectivityUDSVolume volumeMounts
  ∧ settled VolumeMount.Name
            (mountFields egressSelectorConfigurationVolume false
                         "/etc/kubernetes/konnectivity/configurations")
            egressSelectorConfigurationVolume volumeMounts.

Definition patchMounts (volumeMounts : list VolumeMount.t) : list VolumeMount.t :=
  patchVolumeMount egressSelectorConfigurationVolume false
    "/etc/kubernetes/konnectivity/configurations"
    (patchVolumeMount konnectivityUDSVolume false konnectivityServerPath volumeMounts).

Lemma patchMounts_patched volumeMounts : mountsPatched (patchMounts volumeMounts).
Proof.
  unfold patchMounts. rewrite !patchVolumeMount_upsert. split.
  - apply settled_upsert_other; [done|done|].
    apply upsert_settled; [apply mountFields_name|apply mountFields_idem].
  - apply upsert_settled; [apply mountFields_name|apply mountFields_idem].
Qed.

Lemma mountsPatched_fix volumeMounts :
  mountsPatched volumeMounts → patchMounts volumeMounts = volumeMounts.
Proof.
  intros [Huds Hegress]. unfold patchMounts. rewrite !patchVolumeMount_upsert.
  rewrite (settled_upsert _ _ _ _ _ Huds).
  by rewrite (settled_upsert _ _ _ _ _ Hegress).
Qed.

Lemma patchKubeAPIServer_eq c :
  patchKubeAPIServer c
  = Container.set_VolumeMounts (patchMounts (Container.VolumeMounts c))
      (Container.set_Args
         (ArgsFromMapToSlice
            (<["--egress-selector-config-file" :=
                 konnectivityEgressSelectorConfigurationPath]>
               (ArgsFromSliceToMap (Container.Args c)))) c).
Proof. done. Qed.

Lemma patchKubeAPIServer_name c :
  Container.Name (patchKubeAPIServer c) = Container.Name c.
Proof. done. Qed.

Lemma patchKubeAPIServer_idem c :
  patchKubeAPIServer (patchKubeAPIServer c) = patchKubeAPIServer c.
Proof.
  rewrite !patchKubeAPIServer_eq. destruct c; simpl.
  rewrite decode_encode
    by (apply flagsNoEq_insert; [done|apply flagsNoEq_decode]).
  rewrite insert_insert_eq.
  by rewrite (mountsPatched_fix _ (patchMounts_patched _)).
Qed.

(** The state that injection reaches and keeps: the sidecar, the patched
    primary container and the three volumes are all in place. *)
Definition injected (tcp : TenantControlPlane.t) (spec : KonnectivityServerSpec.t)
    (r : Deployment.t) : Prop :=
  settled Container.Name (syncContainerFields tcp spec) konnectivityServerName
          (Deployment.Containers r)
  ∧ settled Container.Name patchKubeAPIServer "kube-apiserver" (Deployment.Containers r)
  ∧ settled Volume.Name (volumeFields konnectivityUDSVolume udsSource)
            konnectivityUDSVolume (Deployment.Volumes r)
  ∧ settled Volume.Name (volumeFields egressSelectorConfigurationVolume (egressSource tcp))
            egressSelectorConfigurationVolume (Deployment.Volumes r)
  ∧ settled Volume.Name
            (volumeFields konnectivityServerKubeconfigVolume (kubeconfigSource tcp))
            konnectivityServerKubeconfigVolume (Deployment.Volumes r).

Lemma syncVolumes_eq tcp r :
  syncVolumes tcp r
  = Deployment.set_Volumes
      (syncVolume konnectivityServerKubeconfigVolume (kubeconfigSource tcp)
         (syncVolume egressSelectorConfigurationVolume (egressSource tcp)
            (syncVolume konnectivityUDSVolume udsSource (Deployment.Volumes r)))) r.
Proof. done. Qed.

(** [mutate] on a Deployment with a primary container, step by step. *)
Lemma mutate_present tcp spec r j :
  TenantControlPlane.Spec_Addons_Konnectivity tcp = Some spec →
  HasNamedContainer (Deployment.Containers r) "kube-apiserver" = (true, j) →
  mutate tcp r
  = (syncVolumes tcp
       (Deployment.set_Containers
          (alter patchKubeAPIServer j
             (Deployment.Containers (syncContainer tcp spec r)))
          (syncContainer tcp spec r)), None).
Proof.
  intros Hspec Hj. unfold KubernetesDeploymentResource.mutate. rewrite Hspec.
  case_bool_decide as Hlen.
  { apply length_zero_iff_nil in Hlen. by rewrite Hlen in Hj. }
  unfold patchKubeAPIServerContainer.
  by rewrite syncContainer_kube_apiserver, Hj.
Qed.

Lemma mutate_injected tcp spec r j :
  TenantControlPlane.Spec_Addons_Konnectivity tcp = Some spec →
  HasNamedContainer (Deployment.Containers r) "kube-apiserver" = (true, j) →
  injected tcp spec (mutate tcp r).1.
Proof.
  intros Hspec Hj. rewrite (mutate_present _ _ _ _ Hspec Hj). simpl.
  pose proof (syncContainer_kube_apiserver tcp spec r) as Hj'. rewrite Hj in Hj'.
  rewrite syncContainer_upsert in *. simpl in *.
  unfold injected; simpl. rewrite !syncVolume_upsert. split_and!.
  - eapply settled_alter_other; [apply patchKubeAPIServer_name| |exact Hj'|]; [done|].
    apply upsert_settled;
      [apply syncContainerFields_name|apply syncContainerFields_idem].
  - apply settled_alter_self;
      [apply patchKubeAPIServer_name|apply patchKubeAPIServer_idem|exact Hj'].
  - do 2 (apply settled_upsert_other; [done|done|]).
    apply upsert_settled; [apply volumeFields_name|apply volumeFields_idem].
  - apply settled_upsert_other; [done|done|].
    apply upsert_settled; [apply volumeFields_name|apply volumeFields_idem].
  - apply upsert_settled; [apply volumeFields_name|apply volumeFields_idem].
Qed.

Lemma injected_fix tcp spec r :
  TenantControlPlane.Spec_Addons_Konnectivity tcp = Some spec →
  injected tcp spec r → mutate tcp r = (r, None).
Proof.
  intros Hspec (Hside & Hkube & Huds & Hegress & Hconf).
  destruct Hkube as (j & x & Hj & Hx & Hfix).
  rewrite (mutate_present _ _ _ _ Hspec Hj).
  assert (syncContainer tcp spec r = r) as ->.
  { rewrite syncContainer_upsert, (settled_upsert _ _ _ _ _ Hside). by destruct r. }
  rewrite (settled_alter Container.Name patchKubeAPIServer "kube-apiserver" _ j)
    by (done || by exists j, x).
  rewrite syncVolumes_eq. simpl. rewrite !syncVolume_upsert.
  rewrite (settled_upsert _ _ _ _ _ Huds), (settled_upsert _ _ _ _ _ Hegress),
    (settled_upsert _ _ _ _ _ Hconf).
  by destruct r.
Qed.

(** C3: with the add-on enabled and a container named kube-apiserver in
    the pod template, applying the inject mutation to its own result
    changes nothing: the Deployment (containers, volumes, mounts and
    argument lists) is the one the first application produced, and neither
    application returns an error. *)
Theorem mutate_idempotent tcp spec r :
  TenantControlPlane.Spec_Addons_Konnectivity tcp = Some spec →
  (∃ c, c ∈ Deployment.Containers r ∧ Container.Name c = "kube-apiserver") →
  mutate tcp (mutate tcp r).1 = mutate tcp r
  ∧ (mutate tcp r).2 = None.
Proof.
  intros Hspec Hpresent.
  apply (hasNamed_found_iff Container.Name) in Hpresent.
  destruct (hasNamed Container.Name (Deployment.Containers r) "kube-apiserver")
    as [found j] eqn:Hj; simpl in Hpresent; subst found.
  pose proof (mutate_injected tcp spec r j Hspec Hj) as Hinj.
  rewrite (injected_fix _ _ _ Hspec Hinj).
  by rewrite (mutate_present _ _ _ _ Hspec Hj).
Qed.

(** *** Clean-up *)

(** What the closure of [CleanUp] does to the primary container and to the
    volumes, deletion by deletion. *)
Definition cleanArgs (c : Container.t) : Container.t :=
  let argsMap := ArgsFromSliceToMap (Container.Args c) in
  match argsMap !! "--egress-selector-config-file" with
  | Some _ =>
      Container.set_Args
        (ArgsFromMapToSlice (delete "--egress-selector-config-file" argsMap)) c
  | None => c
  end.

Definition deleteMount (name : string) (c : Container.t) : Container.t :=
  Container.set_VolumeMounts
    (deleteNamed VolumeMount.Name name (Container.VolumeMounts c)) c.

Definition cleanContainer (c : Container.t) : Container.t :=
  deleteMount konnectivityServerKubeconfigVolume
    (deleteMount egressSelectorConfigurationVolume
       (deleteMount konnectivityUDSVolume (cleanArgs c))).

Definition cleanVolumes (volumes : list Volume.t) : list Volume.t :=
  deleteNamed Volume.Name egressSelectorConfigurationVolume
    (deleteNamed Volume.Name konnectivityUDSVolume volumes).

Lemma removeVolume_eq r volumeName :
  removeVolume r volumeName
  = Deployment.set_Volumes (deleteNamed Volume.Name volumeName (Deployment.Volumes r)) r.
Proof.
  unfold removeVolume, deleteNamed, HasNamedVolume.
  destruct (hasNamed Volume.Name (Deployment.Volumes r) volumeName) as [[] i];
    [done|by destruct r].
Qed.

Lemma removeVolumeMount_eq index r volumeMountName :
  removeVolumeMount index r volumeMountName
  = Deployment.set_Containers
      (alter (deleteMount volumeMountName) index (Deployment.Containers r)) r.
Proof.
  unfold removeVolumeMount, HasNamedVolumeMount.
  destruct (Deployment.Containers r !! index) as [x|] eqn:Hx; simpl.
  - unfold deleteNamed.
    destruct (hasNamed VolumeMount.Name (Container.VolumeMounts x) volumeMountName)
      as [[] i] eqn:Hi.
    + f_equal. apply list_alter_ext; [|done]. intros y Hy.
      assert (y = x) as -> by congruence.
      unfold deleteMount, deleteNamed. by rewrite Hi.
    + rewrite (alter_fixed (deleteMount volumeMountName) index _ x Hx);
        [by destruct r|].
      unfold deleteMount, deleteNamed. rewrite Hi. by destruct x.
  - rewrite (alter_beyond (deleteMount volumeMountName) index _ Hx).
    by destruct r.
Qed.

Lemma cleanUpMutate_eq r :
  cleanUpMutate r
  = let containers :=
      deleteNamed Container.Name konnectivityServerName (Deployment.Containers r) in
    match hasNamed Container.Name containers "kube-apiserver" with
    | (true, index) =>
        (Deployment.mk (Deployment.Name r) (Deployment.Namespace r)
           (alter cleanContainer index containers)
           (cleanVolumes (Deployment.Volumes r)), None)
    | (false, _) =>
        (Deployment.mk (Deployment.Name r) (Deployment.Namespace r)
           containers (Deployment.Volumes r), None)
    end.
Proof.
  unfold cleanUpMutate.
  assert ((let '(found, index) :=
             HasNamedContainer (Deployment.Containers r) konnectivityServerName in
           if found then
             Deployment.set_Containers (removeAt index (Deployment.Containers r)) r
           else r)
          = Deployment.set_Containers
              (deleteNamed Container.Name konnectivityServerName
                 (Deployment.Containers r)) r) as ->.
  { unfold deleteNamed, HasNamedContainer.
    destruct (hasNamed Container.Name (Deployment.Containers r) konnectivityServerName)
      as [[] i]; [done|by destruct r]. }
  destruct r as [name namespace containers volumes]. cbn [Deployment.Containers
    Deployment.set_Containers Deployment.Name Deployment.Namespace Deployment.Volumes].
  set (cs := deleteNamed Container.Name konnectivityServerName containers).
  unfold HasNamedContainer.
  destruct (hasNamed Container.Name cs "kube-apiserver") as [[] j] eqn:Hj; [|done].
  destruct (hasNamed_true _ _ _ _ Hj) as (x & Hx & _).
  rewrite Hx. change (default Container.zero (Some x)) with x. cbn [foldl].
  assert (alter cleanContainer j cs
          = alter (deleteMount konnectivityServerKubeconfigVolume) j
              (alter (deleteMount egressSelectorConfigurationVolume) j
                 (alter (deleteMount konnectivityUDSVolume) j
                    (alter cleanArgs j cs)))) as ->.
  { by rewrite !list_alter_alter_eq. }
  unfold ArgsRemoveFlag, cleanVolumes.
  destruct (ArgsFromSliceToMap (Container.Args x) !! "--egress-selector-config-file")
    as [value|] eqn:Hflag;
    rewrite !removeVolumeMount_eq, !removeVolume_eq;
    unfold Deployment.set_Containers, Deployment.set_Volumes; simpl; do 5 f_equal.
  - apply list_alter_ext; [|done]. intros y Hy. assert (y = x) as -> by congruence.
    unfold cleanArgs. by rewrite Hflag.
  - symmetry. apply (alter_fixed cleanArgs j cs x Hx).
    unfold cleanArgs. by rewrite Hflag.
Qed.

(** The names that clean-up looks for among volumes and mounts. *)
Definition konnectivityVolumeNames : list string :=
  [konnectivityUDSVolume; egressSelectorConfigurationVolume;
   konnectivityServerKubeconfigVolume].

(** A Deployment that carries nothing of the add-on: no container named
    konnectivity-server, no [--egress-selector-config-file] flag among the
    arguments of a kube-apiserver container and none of the konnectivity
    names among its mounts, none of them among the volumes either. *)
Definition neverInjected (r : Deployment.t) : Prop :=
  Forall (λ c, Container.Name c ≠ konnectivityServerName) (Deployment.Containers r)
  ∧ Forall (λ c, Container.Name c = "kube-apiserver" →
               Forall (λ arg, (SplitN2 arg).1 ≠ "--egress-selector-config-file")
                      (Container.Args c)
               ∧ Forall (λ m, VolumeMount.Name m ∉ konnectivityVolumeNames)
                        (Container.VolumeMounts c))
           (Deployment.Containers r)
  ∧ Forall (λ v, Volume.Name v ∉ konnectivityVolumeNames) (Deployment.Volumes r).

#[global] Instance neverInjected_dec r : Decision (neverInjected r).
Proof. unfold neverInjected. apply _. Defined.

Lemma decode_absent args flag :
  Forall (λ arg, (SplitN2 arg).1 ≠ flag) args →
  ArgsFromSliceToMap args !! flag = None.
Proof.
  unfold ArgsFromSliceToMap. intros Hall.
  assert (∀ m : gmap string string,
    foldl (λ m arg, let '(flag, value) := SplitN2 arg in
                    <[flag := default "" value]> m) m args !! flag
    = m !! flag) as H.
  { induction Hall as [|arg args Harg _ IH]; intros m; simpl; [done|].
    rewrite IH. destruct (SplitN2 arg) as [f v]; simpl in *.
    by rewrite lookup_insert_ne. }
  by rewrite H.
Qed.

Lemma not_elem_of_names (names : list string) {A : Type} (nameOf : A → string)
    (l : list A) name :
  name ∈ names → Forall (λ x, nameOf x ∉ names) l →
  Forall (λ x, nameOf x ≠ name) l.
Proof.
  intros Hin Hall. eapply Forall_impl; [exact Hall|].
  simpl. intros x Hx Heq. apply Hx. by rewrite Heq.
Qed.

Lemma cleanContainer_fixed c :
  Forall (λ arg, (SplitN2 arg).1 ≠ "--egress-selector-config-file") (Container.Args c) →
  Forall (λ m, VolumeMount.Name m ∉ konnectivityVolumeNames) (Container.VolumeMounts c) →
  cleanContainer c = c.
Proof.
  intros Hargs Hmounts. unfold cleanContainer, cleanArgs.
  rewrite (decode_absent _ _ Hargs). unfold deleteMount. destruct c; simpl in *.
  assert (∀ name, name ∈ konnectivityVolumeNames →
            deleteNamed VolumeMount.Name name VolumeMounts = VolumeMounts) as Hdel.
  { intros name Hin. apply deleteNamed_absent. by eapply not_elem_of_names. }
  rewrite (Hdel konnectivityUDSVolume), (Hdel egressSelectorConfigurationVolume),
    (Hdel konnectivityServerKubeconfigVolume);
    [done|..]; unfold konnectivityVolumeNames; set_solver.
Qed.


Lemma cleanContainer_name c : Container.Name (cleanContainer c) = Container.Name c.
Proof. unfold cleanContainer, cleanArgs. simpl. by case_match. Qed.




(** *** Injection followed by clean-up *)

(** The volume that clean-up leaves behind. *)
Definition kubeconfigVolume (tcp : TenantControlPlane.t) : Volume.t :=
  Volume.mk konnectivityServerKubeconfigVolume (kubeconfigSource tcp).

Lemma patchMounts_absent volumeMounts :
  Forall (λ m, VolumeMount.Name m ∉ konnectivityVolumeNames) volumeMounts →
  patchMounts volumeMounts
  = volumeMounts
    ++ [VolumeMount.mk konnectivityUDSVolume false konnectivityServerPath "";
        VolumeMount.mk egressSelectorConfigurationVolume false
          "/etc/kubernetes/konnectivity/configurations" ""].
Proof.
  intros Hall. unfold patchMounts. rewrite !patchVolumeMount_upsert.
  rewrite (upsert_absent _ _ _ konnectivityUDSVolume).
  - rewrite upsert_absent; [by rewrite <-app_assoc|].
    apply hasNamed_app_absent; [|by repeat constructor].
    eapply not_elem_of_names; [|exact Hall].
    unfold konnectivityVolumeNames; set_solver.
  - apply hasNamed_absent. eapply not_elem_of_names; [|exact Hall].
    unfold konnectivityVolumeNames; set_solver.
Qed.

Lemma cleanMounts_patchMounts volumeMounts :
  Forall (λ m, VolumeMount.Name m ∉ konnectivityVolumeNames) volumeMounts →
  deleteNamed VolumeMount.Name konnectivityServerKubeconfigVolume
    (deleteNamed VolumeMount.Name egressSelectorConfigurationVolume
       (deleteNamed VolumeMount.Name konnectivityUDSVolume (patchMounts volumeMounts)))
  = volumeMounts.
Proof.
  intros Hall. rewrite (patchMounts_absent _ Hall).
  assert (∀ name, name ∈ konnectivityVolumeNames →
            Forall (λ m, VolumeMount.Name m ≠ name) volumeMounts) as Habsent.
  { intros name Hin. by eapply not_elem_of_names. }
  rewrite deleteNamed_middle; [|apply Habsent|done];
    [|unfold konnectivityVolumeNames; set_solver].
  rewrite deleteNamed_middle; [|apply Habsent|done];
    [|unfold konnectivityVolumeNames; set_solver].
  rewrite app_nil_r. apply deleteNamed_absent, Habsent.
  unfold konnectivityVolumeNames; set_solver.
Qed.

(** The patch of the primary container undone: the mounts are those of
    before, the arguments are those of before in their encoded form. *)
Lemma cleanContainer_patchKubeAPIServer c :
  Forall (λ arg, (SplitN2 arg).1 ≠ "--egress-selector-config-file") (Container.Args c) →
  Forall (λ m, VolumeMount.Name m ∉ konnectivityVolumeNames) (Container.VolumeMounts c) →
  cleanContainer (patchKubeAPIServer c)
  = Container.set_Args
      (ArgsFromMapToSlice (ArgsFromSliceToMap (Container.Args c))) c.
Proof.
  intros Hargs Hmounts. rewrite patchKubeAPIServer_eq.
  unfold cleanContainer, deleteMount, cleanArgs. destruct c; simpl in *.
  rewrite decode_encode by (apply flagsNoEq_insert; [done|apply flagsNoEq_decode]).
  rewrite lookup_insert_eq. simpl.
  rewrite (cleanMounts_patchMounts _ Hmounts).
  rewrite delete_insert_eq, delete_id by (by apply decode_absent).
  done.
Qed.

Lemma syncVolumes_absent tcp r :
  Forall (λ v, Volume.Name v ∉ konnectivityVolumeNames) (Deployment.Volumes r) →
  Deployment.Volumes (syncVolumes tcp r)
  = Deployment.Volumes r
    ++ [Volume.mk konnectivityUDSVolume udsSource;
        Volume.mk egressSelectorConfigurationVolume (egressSource tcp);
        kubeconfigVolume tcp].
Proof.
  intros Hall. rewrite syncVolumes_eq. simpl. rewrite !syncVolume_upsert.
  assert (∀ name, name ∈ konnectivityVolumeNames →
            Forall (λ v, Volume.Name v ≠ name) (Deployment.Volumes r)) as Habsent.
  { intros name Hin. by eapply not_elem_of_names. }
  rewrite (upsert_absent _ _ _ konnectivityUDSVolume);
    [|apply hasNamed_absent, Habsent; unfold konnectivityVolumeNames; set_solver].
  rewrite (upsert_absent _ _ _ egressSelectorConfigurationVolume);
    [|apply hasNamed_app_absent; [apply Habsent|by repeat constructor];
      unfold konnectivityVolumeNames; set_solver].
  rewrite (upsert_absent _ _ _ konnectivityServerKubeconfigVolume);
    [by rewrite <-!app_assoc|].
  apply hasNamed_app_absent; [|by repeat constructor].
  apply Forall_app. split; [|by repeat constructor].
  apply Habsent. unfold konnectivityVolumeNames; set_solver.
Qed.

Lemma cleanVolumes_syncVolumes tcp r :
  Forall (λ v, Volume.Name v ∉ konnectivityVolumeNames) (Deployment.Volumes r) →
  cleanVolumes (Deployment.Volumes (syncVolumes tcp r))
  = Deployment.Volumes r ++ [kubeconfigVolume tcp].
Proof.
  intros Hall. rewrite (syncVolumes_absent _ _ Hall). unfold cleanVolumes.
  assert (∀ name, name ∈ konnectivityVolumeNames →
            Forall (λ v, Volume.Name v ≠ name) (Deployment.Volumes r)) as Habsent.
  { intros name Hin. by eapply not_elem_of_names. }
  rewrite deleteNamed_middle; [|apply Habsent|done];
    [|unfold konnectivityVolumeNames; set_solver].
  rewrite deleteNamed_middle; [done|apply Habsent|done].
  unfold konnectivityVolumeNames; set_solver.
Qed.

(** Injection then clean-up on a pod template that holds the primary
    container alone. *)
Lemma cleanUpMutate_mutate tcp spec r c :
  TenantControlPlane.Spec_Addons_Konnectivity tcp = Some spec →
  Deployment.Containers r = [c] → Container.Name c = "kube-apiserver" →
  neverInjected r →
  cleanUpMutate (mutate tcp r).1
  = (Deployment.mk (Deployment.Name r) (Deployment.Namespace r)
       [Container.set_Args
          (ArgsFromMapToSlice (ArgsFromSliceToMap (Container.Args c))) c]
       (Deployment.Volumes r ++ [kubeconfigVolume tcp]), None).
Proof.
  intros Hspec Hcs Hname (_ & Hkube & Hvolumes).
  rewrite Hcs in Hkube. apply Forall_inv in Hkube.
  destruct (Hkube Hname) as [Hargs Hmounts].
  assert (HasNamedContainer (Deployment.Containers r) "kube-apiserver" = (true, 0%nat))
    as Hj.
  { rewrite Hcs. unfold HasNamedContainer. simpl. by rewrite Hname. }
  rewrite (mutate_present _ _ _ _ Hspec Hj). simpl.
  rewrite cleanUpMutate_eq.
  assert (Deployment.Containers (syncContainer tcp spec r)
          = [c; syncContainerFields tcp spec Container.zero]) as Hsync.
  { rewrite syncContainer_upsert. simpl. rewrite Hcs.
    rewrite upsert_absent; [done|].
    apply hasNamed_absent. constructor; [|done]. by rewrite Hname. }
  set (r1 := Deployment.set_Containers _ _).
  assert (Deployment.Containers r1
          = [patchKubeAPIServer c] ++ [syncContainerFields tcp spec Container.zero])
    as Hcs1 by (unfold r1; simpl; by rewrite Hsync).
  assert (Deployment.Volumes r1 = Deployment.Volumes r) as Hvs1
    by (unfold r1; rewrite syncContainer_upsert; done).
  assert (Deployment.Name r1 = Deployment.Name r
          ∧ Deployment.Namespace r1 = Deployment.Namespace r) as [Hn1 Hns1]
    by (unfold r1; rewrite syncContainer_upsert; done).
  assert (cleanVolumes (Deployment.Volumes (syncVolumes tcp r1))
          = Deployment.Volumes r ++ [kubeconfigVolume tcp]) as Hclean.
  { rewrite cleanVolumes_syncVolumes; by rewrite Hvs1. }
  change (Deployment.Containers (syncVolumes tcp r1)) with (Deployment.Containers r1).
  change (Deployment.Name (syncVolumes tcp r1)) with (Deployment.Name r1).
  change (Deployment.Namespace (syncVolumes tcp r1)) with (Deployment.Namespace r1).
  cbv zeta. rewrite Hclean, Hcs1, Hn1, Hns1.
  rewrite deleteNamed_middle;
    [|constructor; [by rewrite patchKubeAPIServer_name, Hname|done]
     |apply syncContainerFields_name].
  rewrite (hasNamed_present Container.Name _ "kube-apiserver" 0%nat
             (patchKubeAPIServer c)); [|done|by rewrite patchKubeAPIServer_name|done].
  simpl. by rewrite (cleanContainer_patchKubeAPIServer c Hargs Hmounts).
Qed.

(** C1, as the code has it: on a pod template that holds the primary
    kube-apiserver container alone, with nothing of the add-on in its
    arguments, its mounts or the volumes, injection followed by clean-up
    returns no error and restores the single container (its arguments in
    their encoded form, the same flag-to-value mapping; its mounts as
    they were), but the volume list comes back with the
    konnectivity-server-kubeconfig volume appended, which clean-up never
    removes: it is not the list of before. *)
Theorem inject_then_cleanUp_leaves_kubeconfig_volume tcp spec r c :
  TenantControlPlane.Spec_Addons_Konnectivity tcp = Some spec →
  Deployment.Containers r = [c] → Container.Name c = "kube-apiserver" →
  neverInjected r →
  let r' := (cleanUpMutate (mutate tcp r).1).1 in
  (mutate tcp r).2 = None
  ∧ (cleanUpMutate (mutate tcp r).1).2 = None
  ∧ (∃ c', Deployment.Containers r' = [c']
           ∧ c' = Container.set_Args (Container.Args c') c
           ∧ ArgsFromSliceToMap (Container.Args c') = ArgsFromSliceToMap (Container.Args c)
           ∧ Container.VolumeMounts c' = Container.VolumeMounts c)
  ∧ Deployment.Volumes r' = Deployment.Volumes r ++ [kubeconfigVolume tcp]
  ∧ Deployment.Volumes r' ≠ Deployment.Volumes r.
Proof.
  intros Hspec Hcs Hname Hnever. cbv zeta.
  rewrite (cleanUpMutate_mutate _ _ _ _ Hspec Hcs Hname Hnever). simpl.
  split_and!; [|done| |done|].
  - rewrite (mutate_error _ _ _ Hspec), Hcs. unfold HasNamedContainer. simpl.
    by rewrite Hname.
  - eexists. split; [done|]. destruct c; simpl. split_and!; [done| |done].
    apply decode_encode, flagsNoEq_decode.
  - intros Heq. apply (f_equal length) in Heq. rewrite length_app in Heq.
    simpl in Heq. lia.
Qed.

End Facts.
End deployment_facts.

(** ** The RBAC binding *)

Module binding_facts.
Import utilities konnectivity konnectivity.ClusterRoleBindingResource.

Section Facts.
Variable CertCommonName : string.
Variable roleAuthDelegator : string.
Variable KamajiLabels : gmap string string.
Variable MergeMaps : gmap string string → gmap string string → gmap string string.

Abbreviation mutate :=
  (mutate CertCommonName roleAuthDelegator KamajiLabels MergeMaps).
Abbreviation CreateOrUpdate :=
  (CreateOrUpdate CertCommonName roleAuthDelegator KamajiLabels MergeMaps).

(** C7: [CleanUp] returns (false, nil) when the delete fails with a
    not-found error, (false, err) when it fails with any other error, and
    (true, nil) when it succeeds. *)
Theorem CleanUp_outcomes (tenantClient : Client ClusterRoleBinding.t)
    (resource : ClusterRoleBinding.t) :
  (∀ err, Delete tenantClient resource = Some err → IsNotFound err = true →
          CleanUp tenantClient resource = (false, None))
  ∧ (∀ err, Delete tenantClient resource = Some err → IsNotFound err = false →
            CleanUp tenantClient resource = (false, Some err))
  ∧ (Delete tenantClient resource = None →
     CleanUp tenantClient resource = (true, None)).
Proof.
  unfold CleanUp. split_and!.
  - intros err -> Hnf. by rewrite Hnf.
  - intros err -> Hnf. by rewrite Hnf.
  - by intros ->.
Qed.

Lemma mutate_eq resource :
  mutate resource
  = (ClusterRoleBinding.mk (ClusterRoleBinding.Name resource)
       (MergeMaps KamajiLabels
          (<["addonmanager.kubernetes.io/mode" := "Reconcile"]>
             (<["kubernetes.io/cluster-service" := "true"]> ∅)))
       (RoleRef.mk rbacv1_GroupName "ClusterRole" roleAuthDelegator)
       [Subject.mk rbacv1_GroupName rbacv1_UserKind CertCommonName], None).
Proof. done. Qed.

(** C8: with [Spec.Addons.Konnectivity] nil, [CreateOrUpdate] returns
    "no operation performed" and no error and leaves the binding alone.
    With the add-on enabled it runs the library's create-or-update with
    the resource's mutation, which never fails and overwrites the binding
    whatever it held: the role reference is the fixed ClusterRole one, and
    the subjects are exactly the one User subject named [CertCommonName];
    so is every binding that [CreateOrUpdate] returns without an error. *)
Theorem CreateOrUpdate_binding (tenantClient : Client ClusterRoleBinding.t)
    (tcp : TenantControlPlane.t) (resource : ClusterRoleBinding.t) :
  (TenantControlPlane.Spec_Addons_Konnectivity tcp = None →
   CreateOrUpdate tenantClient tcp resource = ((OperationResultNone, None), resource))
  ∧ (TenantControlPlane.Spec_Addons_Konnectivity tcp ≠ None →
     CreateOrUpdate tenantClient tcp resource
     = utilities.CreateOrUpdate tenantClient resource mutate
     ∧ (∀ binding,
          (mutate binding).2 = None
          ∧ ClusterRoleBinding.RoleRef (mutate binding).1
            = RoleRef.mk rbacv1_GroupName "ClusterRole" roleAuthDelegator
          ∧ ClusterRoleBinding.Subjects (mutate binding).1
            = [Subject.mk rbacv1_GroupName rbacv1_UserKind CertCommonName])
     ∧ (∀ out binding,
          CreateOrUpdate tenantClient tcp resource = ((out, None), binding) →
          ClusterRoleBinding.RoleRef binding
          = RoleRef.mk rbacv1_GroupName "ClusterRole" roleAuthDelegator
          ∧ ClusterRoleBinding.Subjects binding
            = [Subject.mk rbacv1_GroupName rbacv1_UserKind CertCommonName])).
Proof.
  unfold ClusterRoleBindingResource.CreateOrUpdate. split.
  - by intros ->.
  - intros Hspec.
    destruct (TenantControlPlane.Spec_Addons_Konnectivity tcp) as [spec|]; [|done].
    split_and!; [done|done|].
    intros out binding. unfold utilities.CreateOrUpdate.
    destruct (Get tenantClient) as [existing| |err]; [| |done].
    + rewrite mutate_eq. case_decide.
      * by intros [= <- <-].
      * destruct (Update tenantClient _); [done|]. by intros [= <- <-].
    + rewrite mutate_eq. destruct (Create tenantClient _); [done|].
      by intros [= <- <-].
Qed.

End Facts.
End binding_facts.

(** ** The datastore configuration *)

Module config_facts.
Import utilities datastore datastore.Config.

Section Facts.
Variable Checksum : string.
Variable CalculateMapChecksum : gmap string (list Byte.byte) → string.
Variable KamajiLabels : gmap string string.
Variable MergeMaps : gmap string string → gmap string string → gmap string string.
Variable controllerRef : TenantControlPlane.t → Secret.t → list OwnerReference.t + error.

Abbreviation mutate :=
  (mutate Checksum CalculateMapChecksum KamajiLabels MergeMaps controllerRef).

(** The credential that [mutate] carries forward or generates. *)
Definition password (uuid : string) (res : Secret.t) : list Byte.byte :=
  match Secret.Annotations res !! Checksum with
  | Some savedHash =>
      if bool_decide (savedHash = CalculateMapChecksum (Secret.Data res))
      then mapIndex (Secret.Data res) "DB_PASSWORD"
      else bytes uuid
  | None => bytes uuid
  end.

(** The payload that [mutate] writes. *)
Definition payload (uuid : string) (tcp : TenantControlPlane.t) (r : Config.t)
    : gmap string (list Byte.byte) :=
  <["DB_PASSWORD" := password uuid (resource r)]>
    (<["DB_USER" := coalesceFn tcp (TenantControlPlane.Status_Storage_Setup_User tcp)]>
       (<["DB_SCHEMA" := coalesceFn tcp (TenantControlPlane.Status_Storage_Setup_Schema tcp)]>
          (<["DB_CONNECTION_STRING" := bytes (ConnString r)]> ∅))).

Lemma mutate_Data uuid tcp r :
  Secret.Data (resource (mutate uuid tcp r).1) = payload uuid tcp r.
Proof.
  unfold Config.mutate, SetControllerReference.
  by destruct (controllerRef tcp _).
Qed.

Lemma mutate_Annotations uuid tcp r :
  Secret.Annotations (resource (mutate uuid tcp r).1)
  = <[Checksum := CalculateMapChecksum (payload uuid tcp r)]>
      (Secret.Annotations (resource r)).
Proof.
  unfold Config.mutate, SetControllerReference.
  by destruct (controllerRef tcp _).
Qed.

Lemma mutate_ConnString uuid tcp r : ConnString (mutate uuid tcp r).1 = ConnString r.
Proof.
  unfold Config.mutate, SetControllerReference.
  by destruct (controllerRef tcp _).
Qed.

Lemma payload_password uuid tcp r :
  payload uuid tcp r !! "DB_PASSWORD" = Some (password uuid (resource r)).
Proof. apply lookup_insert_eq. Qed.

(** C2: when the secret carries a checksum annotation equal to the
    checksum of its current [Data], the mutation leaves
    [Data["DB_PASSWORD"]] as it was; when the annotation is absent or
    differs from the checksum of [Data], [DB_PASSWORD] becomes the freshly
    generated value.  Re-running the mutation on its own result keeps the
    password, whatever would be generated in the second run. *)
Theorem mutate_password uuid tcp r :
  (∀ savedHash,
     Secret.Annotations (resource r) !! Checksum = Some savedHash →
     savedHash = CalculateMapChecksum (Secret.Data (resource r)) →
     mapIndex (Secret.Data (resource (mutate uuid tcp r).1)) "DB_PASSWORD"
     = mapIndex (Secret.Data (resource r)) "DB_PASSWORD")
  ∧ (Secret.Annotations (resource r) !! Checksum = None
     ∨ (∃ savedHash,
          Secret.Annotations (resource r) !! Checksum = Some savedHash
          ∧ savedHash ≠ CalculateMapChecksum (Secret.Data (resource r))) →
     Secret.Data (resource (mutate uuid tcp r).1) !! "DB_PASSWORD" = Some (bytes uuid))
  ∧ (∀ uuid',
       Secret.Data (resource (mutate uuid' tcp (mutate uuid tcp r).1).1) !! "DB_PASSWORD"
       = Secret.Data (resource (mutate uuid tcp r).1) !! "DB_PASSWORD").
Proof.
  split_and!.
  - intros savedHash Hsaved Heq. rewrite mutate_Data.
    unfold mapIndex at 1. rewrite payload_password. simpl.
    unfold password. rewrite Hsaved. by rewrite bool_decide_eq_true_2.
  - intros Hstale. rewrite mutate_Data, payload_password. f_equal.
    unfold password. destruct Hstale as [->|(savedHash & -> & Hne)]; [done|].
    by rewrite bool_decide_eq_false_2.
  - intros uuid'. rewrite (mutate_Data uuid'), payload_password.
    unfold password. rewrite mutate_Annotations, lookup_insert_eq.
    rewrite mutate_Data. case_bool_decide; [|done].
    unfold mapIndex. by rewrite payload_password.
Qed.

(** C9: [DB_SCHEMA] and [DB_USER] are the values recorded in
    [Status.Storage.Setup.Schema] and [Status.Storage.Setup.User] when
    these are non-empty, and the default [<namespace>_<name>] of the
    tenant instance otherwise. *)
Theorem mutate_schema_user uuid tcp r :
  let data := Secret.Data (resource (mutate uuid tcp r).1) in
  let fallback :=
    bytes (TenantControlPlane.Namespace tcp +:+ "_" +:+ TenantControlPlane.Name tcp) in
  (TenantControlPlane.Status_Storage_Setup_Schema tcp ≠ "" →
   data !! "DB_SCHEMA" = Some (bytes (TenantControlPlane.Status_Storage_Setup_Schema tcp)))
  ∧ (TenantControlPlane.Status_Storage_Setup_Schema tcp = "" →
     data !! "DB_SCHEMA" = Some fallback)
  ∧ (TenantControlPlane.Status_Storage_Setup_User tcp ≠ "" →
     data !! "DB_USER" = Some (bytes (TenantControlPlane.Status_Storage_Setup_User tcp)))
  ∧ (TenantControlPlane.Status_Storage_Setup_User tcp = "" →
     data !! "DB_USER" = Some fallback).
Proof.
  simpl. rewrite mutate_Data. unfold payload.
  assert (∀ s, s ≠ "" → coalesceFn tcp s = bytes s) as Hset.
  { intros [|c s] Hs; [done|]. unfold coalesceFn.
    by rewrite bool_decide_eq_true_2 by (simpl; lia). }
  split_and!.
  - intros Hs. rewrite lookup_insert_ne, lookup_insert_ne, lookup_insert_eq by done.
    by rewrite Hset.
  - intros ->. by rewrite lookup_insert_ne, lookup_insert_ne, lookup_insert_eq by done.
  - intros Hs. rewrite lookup_insert_ne, lookup_insert_eq by done. by rewrite Hset.
  - intros ->. by rewrite lookup_insert_ne, lookup_insert_eq by done.
Qed.

(** C10: [ShouldCleanup] is false and [CleanUp] returns (false, nil) with
    the secret and the tenant instance as they were.  The resource has no
    clean-up of its own; what ties the secret to the tenant instance is
    the controller reference, and [mutate] sets it: when [mutate] returns
    no error, the owner references of the secret are those that
    [SetControllerReference] computed for this tenant instance. *)
Theorem Config_has_no_cleanup (r : Config.t) (tcp : TenantControlPlane.t) :
  ShouldCleanup tcp = false
  ∧ CleanUp r tcp = ((false, None), (r, tcp))
  ∧ (∀ uuid,
       (mutate uuid tcp r).2 = None →
       ∃ controlled refs,
         controllerRef tcp controlled = inl refs
         ∧ Secret.OwnerReferences (resource (mutate uuid tcp r).1) = refs).
Proof.
  split_and!; [done|done|].
  intros uuid. unfold Config.mutate, SetControllerReference.
  destruct (controllerRef tcp _) as [refs|err] eqn:Href; [|done].
  intros _. eexists _, refs. by split.
Qed.

End Facts.
End config_facts.

(** ** A tenant, worked through *)

Module example.
Import utilities konnectivity codec locator.

Definition AgentName : string := "konnectivity-agent".
Definition CertCommonName : string := "system:konnectivity-server".
Definition roleAuthDelegator : string := "system:auth-delegator".

Definition spec : KonnectivityServerSpec.t :=
  KonnectivityServerSpec.mk 8132 "v0.0.32"
    "registry.k8s.io/kas-network-proxy/proxy-server" None
    ["--mode=http-connect"; "--log-level=4"].

Definition tcp : TenantControlPlane.t :=
  TenantControlPlane.mk "tenant-00" "tenants" (Some spec) 2 false
    "tenant-00-konnectivity-egress-selector-configuration"
    "tenant-00-konnectivity-kubeconfig" "" "" "" "" "" "" "".

Definition disabled : TenantControlPlane.t :=
  TenantControlPlane.mk "tenant-00" "tenants" None 2 false "" "" "" "" "" "" "" "" "".

Definition apiserver : Container.t :=
  Container.mk "kube-apiserver" "registry.k8s.io/kube-apiserver:v1.25.0"
    ["kube-apiserver"]
    ["--advertise-address=10.0.0.1"; "--etcd-servers=https://etcd:2379"]
    [] [VolumeMount.mk "etc-kubernetes-pki" true "/etc/kubernetes/pki" ""]
    None "" ResourceRequirements.zero.

Definition pki : Volume.t :=
  Volume.mk "etc-kubernetes-pki"
    (VolumeSource.mk None None
       (Some (VolumeSource.mkSecret "tenant-00-api-server-certificate" (Some 420%Z)))).

(** The Deployment as the control-plane resource leaves it: the primary
    container alone. *)
Definition deployment : Deployment.t :=
  Deployment.mk "tenant-00" "tenants" [apiserver] [pki].

(** The shell that [Define] allocates. *)
Definition shell : Deployment.t := Deployment.mk "tenant-00" "tenants" [] [].

Definition found (r : Deployment.t) : Client Deployment.t :=
  mkClient _ (GetFound r) (λ _, None) (λ _, None) (λ _, None).

Lemma neverInjected_deployment : deployment_facts.neverInjected deployment.
Proof. apply (bool_decide_unpack _). vm_compute. exact I. Defined.

(** Injection followed by clean-up, computed: the container list is the
    one of before, the volume list has grown by the kubeconfig volume. *)
Example inject_then_cleanUp_computed :
  let r1 := (KubernetesDeploymentResource.mutate AgentName CertCommonName tcp deployment).1 in
  let r2 := (KubernetesDeploymentResource.cleanUpMutate r1).1 in
  Deployment.Containers r2 = Deployment.Containers deployment
  ∧ Deployment.Volumes r2
    = [pki;
       Volume.mk "konnectivity-server-kubeconfig"
         (VolumeSource.mk None None
            (Some (VolumeSource.mkSecret "tenant-00-konnectivity-kubeconfig"
                     (Some 420%Z))))]
  ∧ Deployment.Volumes r2 ≠ Deployment.Volumes deployment.
Proof. vm_compute. split_and!; [reflexivity|reflexivity|discriminate]. Qed.

Lemma inject_then_cleanUp_witness :
  TenantControlPlane.Spec_Addons_Konnectivity tcp = Some spec
  ∧ Deployment.Containers deployment = [apiserver]
  ∧ Container.Name apiserver = "kube-apiserver"
  ∧ Deployment.Volumes
      (KubernetesDeploymentResource.cleanUpMutate
         (KubernetesDeploymentResource.mutate AgentName CertCommonName tcp deployment).1).1
    ≠ Deployment.Volumes deployment.
Proof.
  split_and!; [reflexivity|reflexivity|reflexivity|].
  apply (deployment_facts.inject_then_cleanUp_leaves_kubeconfig_volume
           AgentName CertCommonName tcp spec deployment apiserver);
    [reflexivity|reflexivity|reflexivity|apply neverInjected_deployment].
Defined.

Lemma mutate_idempotent_witness :
  TenantControlPlane.Spec_Addons_Konnectivity tcp = Some spec
  ∧ (∃ c, c ∈ Deployment.Containers deployment ∧ Container.Name c = "kube-apiserver")
  ∧ KubernetesDeploymentResource.mutate AgentName CertCommonName tcp
      (KubernetesDeploymentResource.mutate AgentName CertCommonName tcp deployment).1
    = KubernetesDeploymentResource.mutate AgentName CertCommonName tcp deployment.
Proof.
  assert (∃ c, c ∈ Deployment.Containers deployment ∧ Container.Name c = "kube-apiserver")
    as Hpresent by (exists apiserver; split; [left|reflexivity]).
  split_and!; [reflexivity|exact Hpresent|].
  apply (deployment_facts.mutate_idempotent AgentName CertCommonName tcp spec deployment);
    [reflexivity|exact Hpresent].
Defined.

Lemma mutate_fails_witness :
  TenantControlPlane.Spec_Addons_Konnectivity tcp = Some spec
  ∧ Deployment.Containers shell = []
  ∧ is_Some (KubernetesDeploymentResource.mutate AgentName CertCommonName tcp shell).2.
Proof.
  split_and!; [reflexivity|reflexivity|].
  apply (deployment_facts.mutate_fails_iff_no_kube_apiserver
           AgentName CertCommonName tcp spec shell); [reflexivity|].
  left. reflexivity.
Defined.

(** The user asks for [--mode=http-connect] and [--log-level=4]; the
    sidecar gets [--mode=grpc] and keeps [--log-level=4]. *)
Lemma required_flags_win_witness :
  ("--mode", "grpc") ∈ deployment_facts.requiredFlags AgentName CertCommonName tcp spec
  ∧ "--mode=http-connect" ∈ KonnectivityServerSpec.ExtraArgs spec
  ∧ "--log-level=4" ∈ KonnectivityServerSpec.ExtraArgs spec
  ∧ ∃ index c,
      HasNamedContainer
        (Deployment.Containers
           (KubernetesDeploymentResource.syncContainer AgentName CertCommonName
              tcp spec deployment))
        konnectivityServerName = (true, index)
      ∧ Deployment.Containers
          (KubernetesDeploymentResource.syncContainer AgentName CertCommonName
             tcp spec deployment) !! index = Some c
      ∧ "--mode=grpc" ∈ Container.Args c
      ∧ ("--mode=http-connect" ∉ Container.Args c)
      ∧ "--log-level=4" ∈ Container.Args c.
Proof.
  assert (("--mode", "grpc")
          ∈ deployment_facts.requiredFlags AgentName CertCommonName tcp spec) as Hreq.
  { unfold deployment_facts.requiredFlags. do 3 right. left. }
  split_and!; [exact Hreq|left|right; left|].
  destruct (deployment_facts.syncContainer_required_flags_win
              AgentName CertCommonName tcp spec deployment "--mode" "grpc" Hreq)
    as (index & c & Hfound & Hc & _ & _ & Htoken & Hone & _ & Hextra).
  exists index, c. split_and!; [exact Hfound|exact Hc|exact Htoken| |].
  - intros Hin. specialize (Hone _ Hin eq_refl). discriminate Hone.
  - apply (Hextra "--log-level" "4"); [|vm_compute; reflexivity].
    apply (bool_decide_unpack _). vm_compute. exact I.
Defined.

(** The binding and the answers of the tenant's API server. *)
Definition binding : ClusterRoleBinding.t :=
  ClusterRoleBinding.mk CertCommonName ∅ (RoleRef.mk "" "" "") [].

Definition gone : Client ClusterRoleBinding.t :=
  mkClient _ GetNotFound (λ _, None) (λ _, None)
    (λ _, Some (StatusError StatusReasonNotFound "clusterrolebindings not found")).

Definition KamajiLabels : gmap string string := {["kamaji.clastix.io/project" := "kamaji"]}.
Definition MergeMaps (m1 m2 : gmap string string) : gmap string string := m2 ∪ m1.

Lemma CleanUp_outcomes_witness :
  Delete gone binding = Some (StatusError StatusReasonNotFound "clusterrolebindings not found")
  ∧ IsNotFound (StatusError StatusReasonNotFound "clusterrolebindings not found") = true
  ∧ ClusterRoleBindingResource.CleanUp gone binding = (false, None).
Proof.
  split_and!; [reflexivity|reflexivity|].
  apply (proj1 (binding_facts.CleanUp_outcomes gone binding)
           (StatusError StatusReasonNotFound "clusterrolebindings not found"));
    reflexivity.
Defined.

Lemma CreateOrUpdate_binding_witness :
  TenantControlPlane.Spec_Addons_Konnectivity disabled = None
  ∧ ClusterRoleBindingResource.CreateOrUpdate CertCommonName roleAuthDelegator
      KamajiLabels MergeMaps gone disabled binding
    = ((OperationResultNone, None), binding).
Proof.
  split; [reflexivity|].
  apply (proj1 (binding_facts.CreateOrUpdate_binding CertCommonName roleAuthDelegator
                  KamajiLabels MergeMaps gone disabled binding)).
  reflexivity.
Defined.

(** The datastore secret of the tenant. *)
Definition Checksum : string := "kamaji.clastix.io/checksum".

(** A stand-in for the digest: the keys and the lengths of the values. *)
Definition CalculateMapChecksum (data : gmap string (list Byte.byte)) : string :=
  foldr (λ kv acc, kv.1 +:+ ":" +:+ pretty (length kv.2) +:+ ";" +:+ acc) ""
        (map_to_list data).

Definition controllerRef (owner : TenantControlPlane.t) (controlled : datastore.Secret.t)
    : list datastore.OwnerReference.t + error :=
  inl [datastore.OwnerReference.mk "TenantControlPlane" (TenantControlPlane.Name owner) true].

Definition stored : gmap string (list Byte.byte) :=
  {["DB_PASSWORD" := datastore.bytes "0b0f6a3e-8f9c-4a51-9f0e-1f2d3c4b5a69"]}.

Definition config : datastore.Config.t :=
  datastore.Config.mk
    (datastore.Secret.mk "tenant-00-datastore-config" "tenants"
       {[Checksum := CalculateMapChecksum stored]} ∅ [] stored)
    "etcd-0.etcd:2379" (datastore.DataStore.mk "default" "etcd").

Lemma mutate_password_witness :
  datastore.Secret.Annotations (datastore.Config.resource config) !! Checksum
  = Some (CalculateMapChecksum stored)
  ∧ datastore.mapIndex
      (datastore.Secret.Data
         (datastore.Config.resource
            (datastore.Config.mutate Checksum CalculateMapChecksum KamajiLabels
               MergeMaps controllerRef "7d3c1f0a-55aa-4b6e-8f10-c0ffee000001"
               tcp config).1)) "DB_PASSWORD"
    = datastore.bytes "0b0f6a3e-8f9c-4a51-9f0e-1f2d3c4b5a69".
Proof.
  split; [reflexivity|].
  apply (proj1 (config_facts.mutate_password Checksum CalculateMapChecksum KamajiLabels
                  MergeMaps controllerRef "7d3c1f0a-55aa-4b6e-8f10-c0ffee000001"
                  tcp config) (CalculateMapChecksum stored));
    reflexivity.
Defined.

Lemma mutate_schema_user_witness :
  TenantControlPlane.Status_Storage_Setup_Schema tcp = ""
  ∧ datastore.Secret.Data
      (datastore.Config.resource
         (datastore.Config.mutate Checksum CalculateMapChecksum KamajiLabels
            MergeMaps controllerRef "7d3c1f0a-55aa-4b6e-8f10-c0ffee000001"
            tcp config).1) !! "DB_SCHEMA"
    = Some (datastore.bytes "tenants_tenant-00").
Proof.
  split; [reflexivity|].
  apply (config_facts.mutate_schema_user Checksum CalculateMapChecksum KamajiLabels
           MergeMaps controllerRef "7d3c1f0a-55aa-4b6e-8f10-c0ffee000001" tcp config).
  reflexivity.
Defined.

Lemma Config_has_no_cleanup_witness :
  (datastore.Config.mutate Checksum CalculateMapChecksum KamajiLabels MergeMaps
     controllerRef "7d3c1f0a-55aa-4b6e-8f10-c0ffee000001" tcp config).2 = None
  ∧ ∃ controlled refs,
      controllerRef tcp controlled = inl refs
      ∧ datastore.Secret.OwnerReferences
          (datastore.Config.resource
             (datastore.Config.mutate Checksum CalculateMapChecksum KamajiLabels
                MergeMaps controllerRef "7d3c1f0a-55aa-4b6e-8f10-c0ffee000001"
                tcp config).1) = refs.
Proof.
  split; [reflexivity|].
  apply (config_facts.Config_has_no_cleanup Checksum CalculateMapChecksum KamajiLabels
           MergeMaps controllerRef config tcp).
  reflexivity.
Defined.

End example.

(** * Status reporting

    [UpdateTenantControlPlaneStatus] of the three resources writes into
    the status of the tenant instance; the tenant instance behind the
    pointer is threaded like [r.resource]. *)

Module reporting.
Import utilities konnectivity.

(** Assignments to the status fields of the tenant instance. *)
Module Status.
Import TenantControlPlane.
Definition set_Addons_Konnectivity_Enabled (v : bool) (t : TenantControlPlane.t)
    : TenantControlPlane.t :=
  mk (Name t) (Namespace t) (Spec_Addons_Konnectivity t)
     (Spec_ControlPlane_Deployment_Replicas t) v
     (Status_Addons_Konnectivity_ConfigMap_Name t)
     (Status_Addons_Konnectivity_Kubeconfig_SecretName t)
     (Status_Addons_Konnectivity_ClusterRoleBinding_Name t)
     (Status_Storage_Driver t) (Status_Storage_DataStoreName t)
     (Status_Storage_Config_SecretName t) (Status_Storage_Config_Checksum t)
     (Status_Storage_Setup_Schema t) (Status_Storage_Setup_User t).
Definition set_Addons_Konnectivity_ClusterRoleBinding_Name (v : string)
    (t : TenantControlPlane.t) : TenantControlPlane.t :=
  mk (Name t) (Namespace t) (Spec_Addons_Konnectivity t)
     (Spec_ControlPlane_Deployment_Replicas t)
     (Status_Addons_Konnectivity_Enabled t)
     (Status_Addons_Konnectivity_ConfigMap_Name t)
     (Status_Addons_Konnectivity_Kubeconfig_SecretName t) v
     (Status_Storage_Driver t) (Status_Storage_DataStoreName t)
     (Status_Storage_Config_SecretName t) (Status_Storage_Config_Checksum t)
     (Status_Storage_Setup_Schema t) (Status_Storage_Setup_User t).
Definition set_Storage_Driver (v : string) (t : TenantControlPlane.t)
    : TenantControlPlane.t :=
  mk (Name t) (Namespace t) (Spec_Addons_Konnectivity t)
     (Spec_ControlPlane_Deployment_Replicas t)
     (Status_Addons_Konnectivity_Enabled t)
     (Status_Addons_Konnectivity_ConfigMap_Name t)
     (Status_Addons_Konnectivity_Kubeconfig_SecretName t)
     (Status_Addons_Konnectivity_ClusterRoleBinding_Name t)
     v (Status_Storage_DataStoreName t)
     (Status_Storage_Config_SecretName t) (Status_Storage_Config_Checksum t)
     (Status_Storage_Setup_Schema t) (Status_Storage_Setup_User t).
Definition set_Storage_DataStoreName (v : string) (t : TenantControlPlane.t)
    : TenantControlPlane.t :=
  mk (Name t) (Namespace t) (Spec_Addons_Konnectivity t)
     (Spec_ControlPlane_Deployment_Replicas t)
     (Status_Addons_Konnectivity_Enabled t)
     (Status_Addons_Konnectivity_ConfigMap_Name t)
     (Status_Addons_Konnectivity_Kubeconfig_SecretName t)
     (Status_Addons_Konnectivity_ClusterRoleBinding_Name t)
     (Status_Storage_Driver t) v
     (Status_Storage_Config_SecretName t) (Status_Storage_Config_Checksum t)
     (Status_Storage_Setup_Schema t) (Status_Storage_Setup_User t).
Definition set_Storage_Config_SecretName (v : string) (t : TenantControlPlane.t)
    : TenantControlPlane.t :=
  mk (Name t) (Namespace t) (Spec_Addons_Konnectivity t)
     (Spec_ControlPlane_Deployment_Replicas t)
     (Status_Addons_Konnectivity_Enabled t)
     (Status_Addons_Konnectivity_ConfigMap_Name t)
     (Status_Addons_Konnectivity_Kubeconfig_SecretName t)
     (Status_Addons_Konnectivity_ClusterRoleBinding_Name t)
     (Status_Storage_Driver t) (Status_Storage_DataStoreName t)
     v (Status_Storage_Config_Checksum t)
     (Status_Storage_Setup_Schema t) (Status_Storage_Setup_User t).
Definition set_Storage_Config_Checksum (v : string) (t : TenantControlPlane.t)
    : TenantControlPlane.t :=
  mk (Name t) (Namespace t) (Spec_Addons_Konnectivity t)
     (Spec_ControlPlane_Deployment_Replicas t)
     (Status_Addons_Konnectivity_Enabled t)
     (Status_Addons_Konnectivity_ConfigMap_Name t)
     (Status_Addons_Konnectivity_Kubeconfig_SecretName t)
     (Status_Addons_Konnectivity_ClusterRoleBinding_Name t)
     (Status_Storage_Driver t) (Status_Storage_DataStoreName t)
     (Status_Storage_Config_SecretName t) v
     (Status_Storage_Setup_Schema t) (Status_Storage_Setup_User t).
End Status.

(** [KubernetesDeploymentResource]: the rest of its methods. *)
Module KubernetesDeploymentResource.

Definition GetName : string := "konnectivity-deployment".

Definition UpdateTenantControlPlaneStatus (tenantControlPlane : TenantControlPlane.t)
    : TenantControlPlane.t * option error :=
  (Status.set_Addons_Konnectivity_Enabled
     (bool_decide (TenantControlPlane.Spec_Addons_Konnectivity tenantControlPlane ≠ None))
     tenantControlPlane, None).

End KubernetesDeploymentResource.

(** [ClusterRoleBindingResource]: its status update.  Of
    [ExternalKubernetesObjectStatus] the name alone is read by this
    package; the struct is assigned whole. *)
Module ClusterRoleBindingResource.

Definition UpdateTenantControlPlaneStatus (resource : ClusterRoleBinding.t)
    (tenantControlPlane : TenantControlPlane.t) : TenantControlPlane.t * option error :=
  match TenantControlPlane.Spec_Addons_Konnectivity tenantControlPlane with
  | Some _ =>
      let tenantControlPlane :=
        Status.set_Addons_Konnectivity_Enabled true tenantControlPlane in
      (Status.set_Addons_Konnectivity_ClusterRoleBinding_Name
         (ClusterRoleBinding.Name resource) tenantControlPlane, None)
  | None =>
      (Status.set_Addons_Konnectivity_ClusterRoleBinding_Name "" tenantControlPlane, None)
  end.

End ClusterRoleBindingResource.

(** [datastore.Config]: its status update. *)
Module Config.
Import datastore.
Section Resource.
Variable Checksum : string.

Definition UpdateTenantControlPlaneStatus (r : Config.t)
    (tenantControlPlane : TenantControlPlane.t) : TenantControlPlane.t * option error :=
  let tenantControlPlane :=
    Status.set_Storage_Driver (DataStore.Spec_Driver (Config.DataStore r))
      tenantControlPlane in
  let tenantControlPlane :=
    Status.set_Storage_DataStoreName (DataStore.Name (Config.DataStore r))
      tenantControlPlane in
  let tenantControlPlane :=
    Status.set_Storage_Config_SecretName (Secret.Name (Config.resource r))
      tenantControlPlane in
  let tenantControlPlane :=
    Status.set_Storage_Config_Checksum
      (default "" (Secret.Annotations (Config.resource r) !! Checksum))
      tenantControlPlane in
  (tenantControlPlane, None).

End Resource.
End Config.

End reporting.

(** * Further facts about the locator *)

Module locator_more.
Import utilities locator.

Section hasNamed.
Context {A : Type} (nameOf : A → string).

(** The element that the locator points at, if any. *)
Definition located (l : list A) (name : string) : option A :=
  let '(found, index) := hasNamed nameOf l name in
  if found then l !! index else None.

Lemma located_head (l : list A) name :
  located l name = head (filter (λ x, nameOf x = name) l).
Proof.
  unfold located. induction l as [|x l IH]; simpl; [done|].
  destruct (decide (nameOf x = name)) as [Hx|Hx].
  - by rewrite filter_cons_True.
  - rewrite filter_cons_False by done. rewrite <-IH.
    by destruct (hasNamed nameOf l name) as [[] i].
Qed.

Lemma located_Some (l : list A) name x :
  located l name = Some x ↔
  ∃ i, hasNamed nameOf l name = (true, i) ∧ l !! i = Some x.
Proof.
  unfold located. destruct (hasNamed nameOf l name) as [[] i] eqn:Hi.
  - split; [intros Hx; by exists i|]. by intros (i' & [= <-] & Hx).
  - split; [done|]. by intros (i' & [=] & _).
Qed.

Lemma located_deleteNamed_other (l : list A) name name' :
  name ≠ name' → located (deleteNamed nameOf name l) name' = located l name'.
Proof.
  intros Hne. rewrite !located_head.
  rewrite (deleteNamed_filter nameOf (λ x, nameOf x = name')); [done|].
  intros x Hx. congruence.
Qed.

Lemma length_upsert zero g name (l : list A) :
  length (upsert nameOf zero g name l)
  = (length l + if (hasNamed nameOf l name).1 then 0 else 1)%nat.
Proof.
  unfold upsert. destruct (hasNamed nameOf l name) as [[] i]; simpl.
  - rewrite length_alter. lia.
  - by rewrite length_alter, length_app.
Qed.

Lemma names_upsert zero g name (l : list A) :
  (∀ x, nameOf (g x) = name) →
  nameOf <$> upsert nameOf zero g name l
  = if (hasNamed nameOf l name).1 then nameOf <$> l else (nameOf <$> l) ++ [name].
Proof.
  intros Hg. destruct (hasNamed_cases nameOf l name) as [[i Hi]|Hi].
  - rewrite (upsert_found _ _ _ _ _ _ Hi), Hi. simpl.
    apply names_alter. intros x Hx. rewrite Hg.
    destruct (hasNamed_true _ _ _ _ Hi) as (y & Hy & Hn & _). congruence.
  - rewrite (upsert_absent _ _ _ _ _ Hi), Hi. simpl.
    by rewrite fmap_app; simpl; rewrite Hg.
Qed.

Lemma length_deleteNamed name (l : list A) :
  length (deleteNamed nameOf name l)
  = (length l - if (hasNamed nameOf l name).1 then 1 else 0)%nat.
Proof.
  unfold deleteNamed. destruct (hasNamed nameOf l name) as [[] i] eqn:Hi; simpl; [|lia].
  destruct (hasNamed_true _ _ _ _ Hi) as (x & Hx & _).
  apply lookup_lt_Some in Hx.
  unfold konnectivity.KubernetesDeploymentResource.removeAt.
  rewrite length_app, length_take, length_drop. lia.
Qed.

(** When at most one element is called [name], none is once it is
    deleted. *)
Lemma deleteNamed_gone name (l : list A) :
  (length (filter (λ x, nameOf x = name) l) ≤ 1)%nat →
  Forall (λ x, nameOf x ≠ name) (deleteNamed nameOf name l).
Proof.
  intros Hcount. unfold deleteNamed.
  destruct (hasNamed nameOf l name) as [[] i] eqn:Hi.
  - destruct (hasNamed_true _ _ _ _ Hi) as (x & Hx & Hn & Hbefore).
    unfold konnectivity.KubernetesDeploymentResource.removeAt.
    rewrite <-(take_drop_middle l i x Hx) in Hcount.
    rewrite filter_app, filter_cons_True, length_app in Hcount by done.
    simpl in Hcount.
    apply Forall_app. split; [done|].
    apply Forall_forall. intros y Hy Hyn.
    assert (y ∈ filter (λ x, nameOf x = name) (drop (S i) l)) as Hin
      by (by apply list_elem_of_filter).
    destruct (filter (λ x, nameOf x = name) (drop (S i) l)) as [|z k];
      [by apply elem_of_nil in Hin|simpl in Hcount; lia].
  - by destruct (hasNamed_false _ _ _ _ Hi) as [_ Hall].
Qed.

End hasNamed.
End locator_more.

(** * Further properties of the sidecar patcher *)

Module deployment_more.
Import utilities konnectivity konnectivity.KubernetesDeploymentResource codec locator.
Import deployment_facts.

(** ** Status and clean-up predicates *)

Lemma ShouldStatusBeUpdated_eq tcp :
  ShouldStatusBeUpdated tcp
  = negb (eqb (TenantControlPlane.Status_Addons_Konnectivity_Enabled tcp)
              (bool_decide (TenantControlPlane.Spec_Addons_Konnectivity tcp ≠ None))).
Proof.
  unfold ShouldStatusBeUpdated.
  by destruct (TenantControlPlane.Spec_Addons_Konnectivity tcp),
              (TenantControlPlane.Status_Addons_Konnectivity_Enabled tcp).
Qed.

(** X1: the status is stale exactly when the recorded enablement
    disagrees with the presence of the add-on in the spec, and the status
    update removes the disagreement: after it neither a status update nor
    a clean-up is due, and the spec is as it was. *)
Theorem status_update_settles tcp :
  (ShouldStatusBeUpdated tcp = true ↔
   TenantControlPlane.Status_Addons_Konnectivity_Enabled tcp
   ≠ bool_decide (TenantControlPlane.Spec_Addons_Konnectivity tcp ≠ None))
  ∧ ShouldStatusBeUpdated
      (reporting.KubernetesDeploymentResource.UpdateTenantControlPlaneStatus tcp).1 = false
  ∧ ShouldCleanup
      (reporting.KubernetesDeploymentResource.UpdateTenantControlPlaneStatus tcp).1 = false
  ∧ (reporting.KubernetesDeploymentResource.UpdateTenantControlPlaneStatus tcp).2 = None
  ∧ TenantControlPlane.Spec_Addons_Konnectivity
      (reporting.KubernetesDeploymentResource.UpdateTenantControlPlaneStatus tcp).1
    = TenantControlPlane.Spec_Addons_Konnectivity tcp.
Proof.
  split_and!; [|..|done|done].
  - rewrite ShouldStatusBeUpdated_eq.
    destruct (TenantControlPlane.Status_Addons_Konnectivity_Enabled tcp),
             (bool_decide _); simpl; split; congruence.
  - rewrite ShouldStatusBeUpdated_eq. simpl.
    by destruct (bool_decide _).
  - unfold ShouldCleanup. simpl.
    by destruct (TenantControlPlane.Spec_Addons_Konnectivity tcp).
Qed.

Section Facts.
Variable AgentName : string.
Variable CertCommonName : string.

Abbreviation serverArgs := (serverArgs AgentName CertCommonName).
Abbreviation syncContainerFields := (syncContainerFields AgentName CertCommonName).
Abbreviation syncContainer := (syncContainer AgentName CertCommonName).
Abbreviation mutate := (mutate AgentName CertCommonName).
Abbreviation CreateOrUpdate := (CreateOrUpdate AgentName CertCommonName).

(** X2: when clean-up is due (the add-on has left the spec while the
    status still records it) the status is stale, and the inject mutation
    does nothing at all, on any Deployment, the empty one included. *)
Theorem cleanup_due_mutate_is_noop tcp :
  ShouldCleanup tcp = true →
  ShouldStatusBeUpdated tcp = true
  ∧ ∀ r, mutate tcp r = (r, None).
Proof.
  unfold ShouldCleanup. intros [Hspec Henabled]%andb_prop.
  apply bool_decide_eq_true_1 in Hspec. split.
  - rewrite ShouldStatusBeUpdated_eq, Hspec, Henabled. done.
  - intros r. unfold KubernetesDeploymentResource.mutate. by rewrite Hspec.
Qed.

(** ** What injection leaves alone *)

(** X3: [syncContainer] keeps the names of the containers in place and
    adds the name of the sidecar at the end exactly when no container had
    it; every container that is not called konnectivity-server stays at
    its index as it was. *)
Theorem syncContainer_names tcp spec r :
  Container.Name <$> Deployment.Containers (syncContainer tcp spec r)
  = (if (HasNamedContainer (Deployment.Containers r) konnectivityServerName).1
     then Container.Name <$> Deployment.Containers r
     else (Container.Name <$> Deployment.Containers r) ++ [konnectivityServerName])
  ∧ ∀ i c, Deployment.Containers r !! i = Some c →
           Container.Name c ≠ konnectivityServerName →
           Deployment.Containers (syncContainer tcp spec r) !! i = Some c.
Proof.
  rewrite syncContainer_upsert. simpl. split.
  - apply locator_more.names_upsert. intros x. apply syncContainerFields_name.
  - intros i c Hc Hn. by apply lookup_upsert_other.
Qed.

(** X26: after [syncContainer] the sidecar is located by name, whether it
    was there or has been appended, and carries the image, the command,
    the arguments and the pull policy of the add-on.  Its resources are
    those of the spec; when the spec gives none, limits and requests are
    empty, whatever a previous sidecar had. *)
Theorem syncContainer_sidecar_fields tcp spec r :
  ∃ index c,
    HasNamedContainer (Deployment.Containers (syncContainer tcp spec r))
                      konnectivityServerName = (true, index)
    ∧ Deployment.Containers (syncContainer tcp spec r) !! index = Some c
    ∧ Container.Image c
      = KonnectivityServerSpec.Image spec +:+ ":" +:+ KonnectivityServerSpec.Version spec
    ∧ Container.Command c = ["/proxy-server"]
    ∧ Container.Args c = ArgsFromMapToSlice (serverArgs tcp spec)
    ∧ Container.ImagePullPolicy c = "Always"
    ∧ (KonnectivityServerSpec.Resources spec = None →
       Container.Resources c = ResourceRequirements.mk ∅ ∅)
    ∧ (∀ resources, KonnectivityServerSpec.Resources spec = Some resources →
                    Container.Resources c = resources).
Proof.
  destruct (syncContainer_sidecar AgentName CertCommonName tcp spec r)
    as (index & c & Hfound & Hc & Hfields).
  exists index, c. split_and!; [done|done|..]; rewrite Hfields;
    unfold KubernetesDeploymentResource.syncContainerFields.
  - by destruct (KonnectivityServerSpec.Resources spec).
  - by destruct (KonnectivityServerSpec.Resources spec).
  - by destruct (KonnectivityServerSpec.Resources spec).
  - by destruct (KonnectivityServerSpec.Resources spec).
  - by intros ->.
  - intros resources ->. by destruct resources.
Qed.

Lemma syncContainer_lookup_other tcp spec r i c :
  Deployment.Containers r !! i = Some c →
  Container.Name c ≠ konnectivityServerName →
  Deployment.Containers (syncContainer tcp spec r) !! i = Some c.
Proof.
  intros Hc Hn. rewrite syncContainer_upsert. simpl. by apply lookup_upsert_other.
Qed.

Lemma syncContainer_rest tcp spec r :
  Deployment.Volumes (syncContainer tcp spec r) = Deployment.Volumes r
  ∧ Deployment.Name (syncContainer tcp spec r) = Deployment.Name r
  ∧ Deployment.Namespace (syncContainer tcp spec r) = Deployment.Namespace r.
Proof. by rewrite syncContainer_upsert. Qed.

(** [mutate], outcome by outcome. *)
Lemma mutate_cases tcp r :
  (TenantControlPlane.Spec_Addons_Konnectivity tcp = None ∧ mutate tcp r = (r, None))
  ∨ (∃ spec,
       TenantControlPlane.Spec_Addons_Konnectivity tcp = Some spec
       ∧ ((Deployment.Containers r = [] ∧ ∃ err, mutate tcp r = (r, Some err))
          ∨ (Deployment.Containers r ≠ []
             ∧ (HasNamedContainer (Deployment.Containers r) "kube-apiserver").1 = false
             ∧ ∃ err, mutate tcp r = (syncContainer tcp spec r, Some err))
          ∨ (∃ j, HasNamedContainer (Deployment.Containers r) "kube-apiserver" = (true, j)
                  ∧ mutate tcp r
                    = (syncVolumes tcp
                         (Deployment.set_Containers
                            (alter patchKubeAPIServer j
                               (Deployment.Containers (syncContainer tcp spec r)))
                            (syncContainer tcp spec r)), None)))).
Proof.
  destruct (TenantControlPlane.Spec_Addons_Konnectivity tcp) as [spec|] eqn:Hspec.
  - right. exists spec. split; [done|].
    destruct (HasNamedContainer (Deployment.Containers r) "kube-apiserver")
      as [[] j] eqn:Hj.
    + right. right. exists j. split; [done|]. by apply mutate_present.
    + unfold KubernetesDeploymentResource.mutate. rewrite Hspec.
      case_bool_decide as Hlen.
      * left. apply length_zero_iff_nil in Hlen. split; [done|]. by eexists.
      * right. left. split_and!; [by intros Hnil; rewrite Hnil in Hlen|done|].
        unfold patchKubeAPIServerContainer.
        rewrite syncContainer_kube_apiserver, Hj. simpl. by eexists.
  - left. split; [done|]. unfold KubernetesDeploymentResource.mutate. by rewrite Hspec.
Qed.

(** X4: whatever the outcome of [mutate], a container that is not called
    konnectivity-server and is not the located kube-apiserver container
    stays at its index as it was; so do the containers with other names
    and a second container called kube-apiserver. *)
Theorem mutate_keeps_other_containers tcp r i c :
  Deployment.Containers r !! i = Some c →
  Container.Name c ≠ konnectivityServerName →
  HasNamedContainer (Deployment.Containers r) "kube-apiserver" ≠ (true, i) →
  Deployment.Containers (mutate tcp r).1 !! i = Some c.
Proof.
  intros Hc Hn Hi.
  destruct (mutate_cases tcp r)
    as [[_ ->]|(spec & _ & [(_ & err & ->)|[(_ & _ & err & ->)|(j & Hj & ->)]])];
    simpl; [done|done|by apply syncContainer_lookup_other|].
  rewrite list_lookup_alter_ne by congruence.
  by apply syncContainer_lookup_other.
Qed.

(** X5: when [mutate] returns an error the volumes, the name and the
    namespace are as they were.  On an empty pod template nothing has
    changed at all; on a pod template without a kube-apiserver container
    the object in memory has already been through [syncContainer]. *)
Theorem mutate_error_state tcp r err :
  (mutate tcp r).2 = Some err →
  Deployment.Volumes (mutate tcp r).1 = Deployment.Volumes r
  ∧ Deployment.Name (mutate tcp r).1 = Deployment.Name r
  ∧ Deployment.Namespace (mutate tcp r).1 = Deployment.Namespace r
  ∧ (Deployment.Containers r = [] → (mutate tcp r).1 = r)
  ∧ (Deployment.Containers r ≠ [] →
     ∃ spec, TenantControlPlane.Spec_Addons_Konnectivity tcp = Some spec
             ∧ (mutate tcp r).1 = syncContainer tcp spec r).
Proof.
  destruct (mutate_cases tcp r)
    as [[_ ->]|(spec & Hspec & [(Hnil & e & ->)|[(Hcs & _ & e & ->)|(j & Hj & ->)]])];
    simpl; [done| | |done]; intros _.
  - split_and!; [done|done|done|done|]. by intros [].
  - destruct (syncContainer_rest tcp spec r) as (Hv & Hname & Hns).
    split_and!; [done|done|done|by intros ?|]. intros _. by exists spec.
Qed.

(** X9: [mutate] never removes a container or a volume; it adds at most
    one container and at most three volumes. *)
Theorem mutate_grows tcp r :
  (length (Deployment.Containers r) ≤ length (Deployment.Containers (mutate tcp r).1)
   ≤ length (Deployment.Containers r) + 1)%nat
  ∧ (length (Deployment.Volumes r) ≤ length (Deployment.Volumes (mutate tcp r).1)
     ≤ length (Deployment.Volumes r) + 3)%nat.
Proof.
  assert (∀ spec,
    (length (Deployment.Containers r)
     ≤ length (Deployment.Containers (syncContainer tcp spec r))
     ≤ length (Deployment.Containers r) + 1)%nat) as Hsync.
  { intros spec. rewrite syncContainer_upsert. simpl.
    rewrite locator_more.length_upsert. case_match; lia. }
  destruct (mutate_cases tcp r)
    as [[_ ->]|(spec & _ & [(_ & err & ->)|[(_ & _ & err & ->)|(j & Hj & ->)]])];
    simpl; [lia|lia| |].
  - destruct (syncContainer_rest tcp spec r) as (-> & _). split; [apply Hsync|lia].
  - rewrite length_alter. split; [apply Hsync|].
    destruct (syncContainer_rest tcp spec r) as (-> & _).
    rewrite !syncVolume_upsert, !locator_more.length_upsert.
    repeat case_match; lia.
Qed.

(** ** The patch of the primary container and the volumes *)

Lemma patchKubeAPIServer_args c :
  ArgsFromSliceToMap (Container.Args (patchKubeAPIServer c))
  = <["--egress-selector-config-file" := konnectivityEgressSelectorConfigurationPath]>
      (ArgsFromSliceToMap (Container.Args c)).
Proof.
  rewrite patchKubeAPIServer_eq. simpl.
  apply decode_encode, flagsNoEq_insert; [done|apply flagsNoEq_decode].
Qed.

(** X6: when a kube-apiserver container is located,
    [patchKubeAPIServerContainer] returns no error and changes that
    container alone.  Its arguments decode to the mapping of before with
    [--egress-selector-config-file] set to the configuration path,
    whatever the flag was set to; every other flag keeps its value, and of
    the container only the arguments and the mounts are written. *)
Theorem patchKubeAPIServerContainer_primary r j c :
  HasNamedContainer (Deployment.Containers r) "kube-apiserver" = (true, j) →
  Deployment.Containers r !! j = Some c →
  ∃ r' c',
    patchKubeAPIServerContainer r = (r', None)
    ∧ Deployment.Containers r' !! j = Some c'
    ∧ (∀ i, i ≠ j → Deployment.Containers r' !! i = Deployment.Containers r !! i)
    ∧ Deployment.Volumes r' = Deployment.Volumes r
    ∧ ArgsFromSliceToMap (Container.Args c')
      = <["--egress-selector-config-file" := konnectivityEgressSelectorConfigurationPath]>
          (ArgsFromSliceToMap (Container.Args c))
    ∧ Container.set_VolumeMounts (Container.VolumeMounts c)
        (Container.set_Args (Container.Args c) c') = c.
Proof.
  intros Hj Hc. unfold patchKubeAPIServerContainer. rewrite Hj. simpl.
  eexists _, (patchKubeAPIServer c). split_and!; [done|..].
  - simpl. by rewrite list_lookup_alter_eq, Hc.
  - intros i Hi. simpl. by rewrite list_lookup_alter_ne.
  - done.
  - apply patchKubeAPIServer_args.
  - by destruct c.
Qed.

(** X7: after the patch of the primary container the socket mount and the
    configuration mount are located by name, writable, at their mount
    paths; a mount of that name that was there is overwritten in place and
    keeps its sub-path; mounts with other names stay at their index as
    they were, and at most two mounts are added. *)
Theorem patchKubeAPIServer_mounts c :
  (∃ i m,
     HasNamedVolumeMount (Container.VolumeMounts (patchKubeAPIServer c))
                         konnectivityUDSVolume = (true, i)
     ∧ Container.VolumeMounts (patchKubeAPIServer c) !! i = Some m
     ∧ VolumeMount.ReadOnly m = false
     ∧ VolumeMount.MountPath m = konnectivityServerPath)
  ∧ (∃ i m,
       HasNamedVolumeMount (Container.VolumeMounts (patchKubeAPIServer c))
                           egressSelectorConfigurationVolume = (true, i)
       ∧ Container.VolumeMounts (patchKubeAPIServer c) !! i = Some m
       ∧ VolumeMount.ReadOnly m = false
       ∧ VolumeMount.MountPath m = "/etc/kubernetes/konnectivity/configurations")
  ∧ (∀ i m0,
       HasNamedVolumeMount (Container.VolumeMounts c) konnectivityUDSVolume = (true, i) →
       Container.VolumeMounts c !! i = Some m0 →
       Container.VolumeMounts (patchKubeAPIServer c) !! i
       = Some (VolumeMount.mk konnectivityUDSVolume false konnectivityServerPath
                 (VolumeMount.SubPath m0)))
  ∧ (∀ k m, Container.VolumeMounts c !! k = Some m →
            VolumeMount.Name m ≠ konnectivityUDSVolume →
            VolumeMount.Name m ≠ egressSelectorConfigurationVolume →
            Container.VolumeMounts (patchKubeAPIServer c) !! k = Some m)
  ∧ (length (Container.VolumeMounts c)
     ≤ length (Container.VolumeMounts (patchKubeAPIServer c))
     ≤ length (Container.VolumeMounts c) + 2)%nat.
Proof.
  rewrite patchKubeAPIServer_eq. simpl.
  destruct (patchMounts_patched (Container.VolumeMounts c))
    as [(i1 & m1 & H1 & Hm1 & Hfix1) (i2 & m2 & H2 & Hm2 & Hfix2)].
  split_and!.
  - exists i1, m1. split_and!; [done|done| |]; by rewrite <-Hfix1.
  - exists i2, m2. split_and!; [done|done| |]; by rewrite <-Hfix2.
  - intros i m0 Hi Hm0. unfold patchMounts. rewrite !patchVolumeMount_upsert.
    apply lookup_upsert_other; [|done].
    rewrite (upsert_found _ _ _ _ _ _ Hi).
    by rewrite list_lookup_alter_eq, Hm0.
  - intros k m Hm Hn1 Hn2. unfold patchMounts. rewrite !patchVolumeMount_upsert.
    by do 2 (apply lookup_upsert_other; [|done]).
  - unfold patchMounts.
    rewrite !patchVolumeMount_upsert, !locator_more.length_upsert.
    repeat case_match; lia.
  - unfold patchMounts.
    rewrite !patchVolumeMount_upsert, !locator_more.length_upsert.
    repeat case_match; lia.
Qed.

Lemma volumeFields_fixed name source v :
  volumeFields name source v = v → v = Volume.mk name source.
Proof. by intros <-. Qed.

(** X8: after [syncVolumes] each of the three volumes is located by name
    and is exactly the volume of the add-on: the in-memory socket
    directory, the config map named in the status and the secret named in
    the status, whatever a volume of that name held before.  Volumes with
    other names stay at their index as they were, and the containers are
    not touched. *)
Theorem syncVolumes_volumes tcp r :
  (∃ i, HasNamedVolume (Deployment.Volumes (syncVolumes tcp r)) konnectivityUDSVolume
        = (true, i)
        ∧ Deployment.Volumes (syncVolumes tcp r) !! i
          = Some (Volume.mk konnectivityUDSVolume udsSource))
  ∧ (∃ i, HasNamedVolume (Deployment.Volumes (syncVolumes tcp r))
                         egressSelectorConfigurationVolume = (true, i)
          ∧ Deployment.Volumes (syncVolumes tcp r) !! i
            = Some (Volume.mk egressSelectorConfigurationVolume (egressSource tcp)))
  ∧ (∃ i, HasNamedVolume (Deployment.Volumes (syncVolumes tcp r))
                         konnectivityServerKubeconfigVolume = (true, i)
          ∧ Deployment.Volumes (syncVolumes tcp r) !! i
            = Some (Volume.mk konnectivityServerKubeconfigVolume (kubeconfigSource tcp)))
  ∧ (∀ k v, Deployment.Volumes r !! k = Some v →
            Volume.Name v ∉ konnectivityVolumeNames →
            Deployment.Volumes (syncVolumes tcp r) !! k = Some v)
  ∧ Deployment.Containers (syncVolumes tcp r) = Deployment.Containers r.
Proof.
  rewrite syncVolumes_eq. simpl. rewrite !syncVolume_upsert.
  set (U1 := upsert Volume.Name Volume.zero
               (volumeFields konnectivityUDSVolume udsSource) konnectivityUDSVolume
               (Deployment.Volumes r)).
  set (U2 := upsert Volume.Name Volume.zero
               (volumeFields egressSelectorConfigurationVolume (egressSource tcp))
               egressSelectorConfigurationVolume U1).
  split_and!; [| | | |done].
  - destruct (settled_upsert_other Volume.Name Volume.zero
                (volumeFields konnectivityServerKubeconfigVolume (kubeconfigSource tcp))
                konnectivityServerKubeconfigVolume
                (volumeFields konnectivityUDSVolume udsSource) konnectivityUDSVolume U2)
      as (i & v & Hi & Hv & Hfix); [done|done| |].
    { apply settled_upsert_other; [done|done|].
      apply upsert_settled; [apply volumeFields_name|apply volumeFields_idem]. }
    exists i. split; [done|]. by rewrite Hv, (volumeFields_fixed _ _ _ Hfix).
  - destruct (settled_upsert_other Volume.Name Volume.zero
                (volumeFields konnectivityServerKubeconfigVolume (kubeconfigSource tcp))
                konnectivityServerKubeconfigVolume
                (volumeFields egressSelectorConfigurationVolume (egressSource tcp))
                egressSelectorConfigurationVolume U2)
      as (i & v & Hi & Hv & Hfix); [done|done| |].
    { apply upsert_settled; [apply volumeFields_name|apply volumeFields_idem]. }
    exists i. split; [done|]. by rewrite Hv, (volumeFields_fixed _ _ _ Hfix).
  - destruct (upsert_settled Volume.Name Volume.zero
                (volumeFields konnectivityServerKubeconfigVolume (kubeconfigSource tcp))
                konnectivityServerKubeconfigVolume
                (volumeFields_name _ _) (volumeFields_idem _ _) U2)
      as (i & v & Hi & Hv & Hfix).
    exists i. split; [done|]. by rewrite Hv, (volumeFields_fixed _ _ _ Hfix).
  - intros k v Hv Hn.
    do 3 (apply lookup_upsert_other;
          [|intros Heq; apply Hn; rewrite Heq;
            unfold konnectivityVolumeNames; set_solver]).
    done.
Qed.

(** ** Clean-up *)

Lemma cleanContainer_args c :
  ArgsFromSliceToMap (Container.Args (cleanContainer c))
  = delete "--egress-selector-config-file" (ArgsFromSliceToMap (Container.Args c)).
Proof.
  unfold cleanContainer, deleteMount, cleanArgs. simpl.
  destruct (ArgsFromSliceToMap (Container.Args c) !! "--egress-selector-config-file")
    as [value|] eqn:Hflag; simpl.
  - apply decode_encode, flagsNoEq_delete, flagsNoEq_decode.
  - by rewrite delete_id.
Qed.

Lemma cleanContainer_rest c :
  Container.set_VolumeMounts (Container.VolumeMounts c)
    (Container.set_Args (Container.Args c) (cleanContainer c)) = c.
Proof.
  unfold cleanContainer, deleteMount, cleanArgs. destruct c; simpl.
  by case_match.
Qed.

Lemma cleanUpMutate_length r :
  length (Deployment.Containers (cleanUpMutate r).1)
  = (length (Deployment.Containers r)
     - if (HasNamedContainer (Deployment.Containers r) konnectivityServerName).1
       then 1 else 0)%nat.
Proof.
  rewrite cleanUpMutate_eq. cbv zeta.
  destruct (hasNamed Container.Name _ "kube-apiserver") as [[] j]; simpl;
    rewrite ?length_alter; apply locator_more.length_deleteNamed.
Qed.

(** X10: without a kube-apiserver container the closure of [CleanUp]
    stops after the sidecar: the volumes are returned as they were, the
    konnectivity ones included, and of the containers only the first one
    called konnectivity-server is gone. *)
Theorem cleanUp_without_primary r :
  Forall (λ c, Container.Name c ≠ "kube-apiserver") (Deployment.Containers r) →
  Deployment.Volumes (cleanUpMutate r).1 = Deployment.Volumes r
  ∧ Deployment.Containers (cleanUpMutate r).1
    = deleteNamed Container.Name konnectivityServerName (Deployment.Containers r)
  ∧ (cleanUpMutate r).2 = None.
Proof.
  intros Habsent. rewrite cleanUpMutate_eq. cbv zeta.
  rewrite (hasNamed_absent Container.Name
             (deleteNamed Container.Name konnectivityServerName (Deployment.Containers r))
             "kube-apiserver"); [done|].
  apply Forall_forall. intros c Hc.
  apply (proj1 (Forall_forall _ _) Habsent).
  eapply elem_of_sublist; [exact Hc|apply deleteNamed_sublist].
Qed.

(** X11: the kube-apiserver container that the locator finds before
    clean-up is the one it finds after it.  Its arguments then decode to
    the mapping of before without [--egress-selector-config-file]: the
    flag is gone, every other flag keeps its value; and of the container
    only the arguments and the mounts are written. *)
Theorem cleanUp_strips_flag r j c :
  HasNamedContainer (Deployment.Containers r) "kube-apiserver" = (true, j) →
  Deployment.Containers r !! j = Some c →
  ∃ j' c',
    HasNamedContainer (Deployment.Containers (cleanUpMutate r).1) "kube-apiserver"
    = (true, j')
    ∧ Deployment.Containers (cleanUpMutate r).1 !! j' = Some c'
    ∧ ArgsFromSliceToMap (Container.Args c')
      = delete "--egress-selector-config-file" (ArgsFromSliceToMap (Container.Args c))
    ∧ Container.set_VolumeMounts (Container.VolumeMounts c)
        (Container.set_Args (Container.Args c) c') = c.
Proof.
  intros Hj Hc.
  assert (locator_more.located Container.Name
            (deleteNamed Container.Name konnectivityServerName (Deployment.Containers r))
            "kube-apiserver" = Some c) as Hloc.
  { rewrite locator_more.located_deleteNamed_other by done.
    apply locator_more.located_Some. by exists j. }
  apply locator_more.located_Some in Hloc as (j' & Hj' & Hc').
  rewrite cleanUpMutate_eq. cbv zeta. rewrite Hj'. simpl.
  exists j', (cleanContainer c). split_and!.
  - unfold HasNamedContainer. rewrite hasNamed_alter; [done|].
    intros x _. apply cleanContainer_name.
  - by rewrite list_lookup_alter_eq, Hc'.
  - apply cleanContainer_args.
  - apply cleanContainer_rest.
Qed.

(** X12: the closure of [CleanUp] removes one container when a
    konnectivity-server container is found and none otherwise; when at
    most one container carries that name, none does afterwards. *)
Theorem cleanUp_removes_one_sidecar r :
  length (Deployment.Containers (cleanUpMutate r).1)
  = (length (Deployment.Containers r)
     - if (HasNamedContainer (Deployment.Containers r) konnectivityServerName).1
       then 1 else 0)%nat
  ∧ ((length (filter (λ c, Container.Name c = konnectivityServerName)
                     (Deployment.Containers r)) ≤ 1)%nat →
     Forall (λ c, Container.Name c ≠ konnectivityServerName)
            (Deployment.Containers (cleanUpMutate r).1)).
Proof.
  split; [apply cleanUpMutate_length|].
  intros Hcount.
  pose proof (locator_more.deleteNamed_gone Container.Name konnectivityServerName
                (Deployment.Containers r) Hcount) as Hgone.
  rewrite cleanUpMutate_eq. cbv zeta.
  destruct (hasNamed Container.Name _ "kube-apiserver") as [[] j]; simpl; [|done].
  apply (Forall_fmap Container.Name (λ name, name ≠ konnectivityServerName)).
  rewrite names_alter by (intros; apply cleanContainer_name).
  by apply Forall_fmap.
Qed.

(** X13: when the fetch finds a Deployment with a konnectivity-server
    container, [CleanUp] hands the cleaned Deployment to the store: it
    returns (true, nil) when the update is accepted, and (false, err) when
    the update fails with an error err that is not a conflict. *)
Theorem CleanUp_reports_update (client : Client Deployment.t)
    (retries : list (Client Deployment.t)) (resource r : Deployment.t) :
  Get client = GetFound r →
  (HasNamedContainer (Deployment.Containers r) konnectivityServerName).1 = true →
  (Update client (cleanUpMutate r).1 = None →
   CleanUp client retries resource = ((true, None), (cleanUpMutate r).1))
  ∧ (∀ err, Update client (cleanUpMutate r).1 = Some err → IsConflict err = false →
            CleanUp client retries resource = ((false, Some err), (cleanUpMutate r).1)).
Proof.
  intros Hget Hside.
  assert (r ≠ (cleanUpMutate r).1) as Hne.
  { intros Heq. pose proof (cleanUpMutate_length r) as Hlen.
    rewrite <-Heq, Hside in Hlen.
    destruct (hasNamed_true Container.Name (Deployment.Containers r)
                konnectivityServerName
                (HasNamedContainer (Deployment.Containers r) konnectivityServerName).2)
      as (x & Hx%lookup_lt_Some & _); [|lia].
    unfold HasNamedContainer in *.
    by destruct (hasNamed Container.Name _ _) as [[] i]. }
  assert ((cleanUpMutate r).2 = None) as Hnil
    by (rewrite cleanUpMutate_eq; cbv zeta; by repeat case_match).
  destruct (cleanUpMutate r) as [r' e] eqn:Hclean. simpl in *. subst e.
  unfold CleanUp. split.
  - intros Hupdate.
    assert (utilities.CreateOrUpdate client resource cleanUpMutate
            = ((OperationResultUpdated, None), r')) as Hone.
    { unfold utilities.CreateOrUpdate. rewrite Hget, Hclean.
      case_decide; [done|]. by rewrite Hupdate. }
    destruct retries; simpl; by rewrite Hone.
  - intros err Hupdate Hconflict.
    assert (utilities.CreateOrUpdate client resource cleanUpMutate
            = ((OperationResultNone, Some err), r')) as Hone.
    { unfold utilities.CreateOrUpdate. rewrite Hget, Hclean.
      case_decide; [done|]. by rewrite Hupdate. }
    destruct retries; simpl; rewrite Hone; [done|]. by rewrite Hconflict.
Qed.

(** X14: the patcher never creates the Deployment.  When the fetch
    reports that it does not exist, [CreateOrUpdate] with the add-on
    enabled runs the mutation on the shell of [Define], which has no
    container: the outcome is "no operation" with an error that is not a
    conflict, whatever the store would answer to a create. *)
Theorem CreateOrUpdate_never_creates (client : Client Deployment.t)
    (retries : list (Client Deployment.t)) tcp :
  TenantControlPlane.Spec_Addons_Konnectivity tcp ≠ None →
  Get client = GetNotFound →
  ∃ err,
    CreateOrUpdate client retries tcp (Define tcp)
    = ((OperationResultNone, Some err), Define tcp)
    ∧ IsConflict err = false.
Proof.
  intros Hspec Hget.
  destruct (TenantControlPlane.Spec_Addons_Konnectivity tcp) as [spec|] eqn:Hs; [|done].
  eexists. unfold KubernetesDeploymentResource.CreateOrUpdate.
  assert (utilities.CreateOrUpdate client (Define tcp) (mutate tcp)
          = ((OperationResultNone,
              Some (Errorf "the Deployment resource is not ready to be mangled for Konnectivity server enrichment")),
             Define tcp)) as Hone.
  { unfold utilities.CreateOrUpdate. rewrite Hget.
    unfold KubernetesDeploymentResource.mutate. by rewrite Hs. }
  split; [destruct retries; simpl; by rewrite Hone|done].
Qed.

End Facts.

(** ** Clean-up twice *)

Lemma deleteNamed_Forall {A : Type} (nameOf : A → string) (P : A → Prop) name (l : list A) :
  Forall P l → Forall P (deleteNamed nameOf name l).
Proof.
  intros Hall. apply Forall_forall. intros x Hx.
  apply (proj1 (Forall_forall _ _) Hall).
  eapply elem_of_sublist; [exact Hx|apply deleteNamed_sublist].
Qed.

(** The number of elements called [name]. *)
Definition named {A : Type} (nameOf : A → string) (name : string) (l : list A) : nat :=
  length (filter (λ x, nameOf x = name) l).

Lemma named_deleteNamed_other {A : Type} (nameOf : A → string) name name' (l : list A) :
  name ≠ name' → named nameOf name' (deleteNamed nameOf name l) = named nameOf name' l.
Proof.
  intros Hne. unfold named.
  rewrite (deleteNamed_filter nameOf (λ x, nameOf x = name')); [done|].
  intros x Hx. congruence.
Qed.

Lemma decode_keeps args flag (m : gmap string string) :
  is_Some (m !! flag) →
  is_Some (foldl (λ m arg, let '(flag, value) := SplitN2 arg in
                           <[flag := default "" value]> m) m args !! flag).
Proof.
  revert m. induction args as [|b args IH]; intros m Hm; simpl; [done|].
  apply IH. destruct (SplitN2 b) as [f w].
  destruct (decide (f = flag)) as [->|Hne].
  - rewrite lookup_insert_eq. by eexists.
  - by rewrite lookup_insert_ne.
Qed.

(** A flag that occurs in the list is a key of the decoded map. *)
Lemma decode_present args arg :
  arg ∈ args → is_Some (ArgsFromSliceToMap args !! (SplitN2 arg).1).
Proof.
  unfold ArgsFromSliceToMap. generalize (∅ : gmap string string).
  induction args as [|a args IH]; intros m Harg; [by apply elem_of_nil in Harg|].
  simpl. apply elem_of_cons in Harg as [->|Harg]; [|by apply IH].
  apply decode_keeps. destruct (SplitN2 a) as [f v]. simpl.
  rewrite lookup_insert_eq. by eexists.
Qed.

Lemma cleanContainer_settled c :
  (∀ name, name ∈ konnectivityVolumeNames →
           (named VolumeMount.Name name (Container.VolumeMounts c) ≤ 1)%nat) →
  cleanContainer (cleanContainer c) = cleanContainer c.
Proof.
  intros Hcount.
  assert (Forall (λ m, VolumeMount.Name m ∉ konnectivityVolumeNames)
            (Container.VolumeMounts (cleanContainer c))) as Hmounts.
  { unfold cleanContainer, deleteMount. simpl.
    assert (Container.VolumeMounts (cleanArgs c) = Container.VolumeMounts c) as ->
      by (unfold cleanArgs; by case_match).
    set (ms := Container.VolumeMounts c) in *.
    assert (Forall (λ m, VolumeMount.Name m ≠ konnectivityUDSVolume)
              (deleteNamed VolumeMount.Name konnectivityUDSVolume ms)) as H1.
    { apply locator_more.deleteNamed_gone, Hcount.
      unfold konnectivityVolumeNames. by left. }
    assert (Forall (λ m, VolumeMount.Name m ≠ egressSelectorConfigurationVolume)
              (deleteNamed VolumeMount.Name egressSelectorConfigurationVolume
                 (deleteNamed VolumeMount.Name konnectivityUDSVolume ms))) as H2.
    { apply locator_more.deleteNamed_gone.
      fold (named VolumeMount.Name egressSelectorConfigurationVolume
              (deleteNamed VolumeMount.Name konnectivityUDSVolume ms)).
      rewrite named_deleteNamed_other by done.
      apply Hcount. unfold konnectivityVolumeNames. right. by left. }
    assert (Forall (λ m, VolumeMount.Name m ≠ konnectivityServerKubeconfigVolume)
              (deleteNamed VolumeMount.Name konnectivityServerKubeconfigVolume
                 (deleteNamed VolumeMount.Name egressSelectorConfigurationVolume
                    (deleteNamed VolumeMount.Name konnectivityUDSVolume ms)))) as H3.
    { apply locator_more.deleteNamed_gone.
      fold (named VolumeMount.Name konnectivityServerKubeconfigVolume
              (deleteNamed VolumeMount.Name egressSelectorConfigurationVolume
                 (deleteNamed VolumeMount.Name konnectivityUDSVolume ms))).
      rewrite !named_deleteNamed_other by done.
      apply Hcount. unfold konnectivityVolumeNames. right. right. by left. }
    apply (deleteNamed_Forall VolumeMount.Name _ konnectivityServerKubeconfigVolume) in H2.
    apply (deleteNamed_Forall VolumeMount.Name _ egressSelectorConfigurationVolume) in H1.
    apply (deleteNamed_Forall VolumeMount.Name _ konnectivityServerKubeconfigVolume) in H1.
    rewrite Forall_forall in H1, H2, H3. apply Forall_forall. intros m Hm Hin.
    unfold konnectivityVolumeNames in Hin.
    apply elem_of_cons in Hin as [Heq|Hin]; [by apply (H1 m Hm)|].
    apply elem_of_cons in Hin as [Heq|Hin]; [by apply (H2 m Hm)|].
    apply elem_of_cons in Hin as [Heq|Hin]; [by apply (H3 m Hm)|].
    by apply elem_of_nil in Hin. }
  apply cleanContainer_fixed; [|done].
  apply Forall_forall. intros arg Harg Hflag.
  destruct (decode_present _ _ Harg) as [value Hvalue].
  rewrite Hflag, cleanContainer_args, lookup_delete_eq in Hvalue. done.
Qed.

Lemma cleanVolumes_settled volumes :
  (∀ name, name ∈ [konnectivityUDSVolume; egressSelectorConfigurationVolume] →
           (named Volume.Name name volumes ≤ 1)%nat) →
  cleanVolumes (cleanVolumes volumes) = cleanVolumes volumes.
Proof.
  intros Hcount. unfold cleanVolumes.
  assert (Forall (λ v, Volume.Name v ≠ konnectivityUDSVolume)
            (deleteNamed Volume.Name konnectivityUDSVolume volumes)) as H1.
  { apply locator_more.deleteNamed_gone, Hcount. by left. }
  assert (Forall (λ v, Volume.Name v ≠ egressSelectorConfigurationVolume)
            (deleteNamed Volume.Name egressSelectorConfigurationVolume
               (deleteNamed Volume.Name konnectivityUDSVolume volumes))) as H2.
  { apply locator_more.deleteNamed_gone.
    fold (named Volume.Name egressSelectorConfigurationVolume
            (deleteNamed Volume.Name konnectivityUDSVolume volumes)).
    rewrite named_deleteNamed_other by done. apply Hcount. right. by left. }
  apply (deleteNamed_Forall Volume.Name _ egressSelectorConfigurationVolume) in H1.
  rewrite (deleteNamed_absent _ konnectivityUDSVolume _ H1).
  by rewrite (deleteNamed_absent _ egressSelectorConfigurationVolume _ H2).
Qed.

(** X25: clean-up can be run again.  When at most one container is called
    konnectivity-server, at most one volume carries each of the two names
    that clean-up removes, and every kube-apiserver container has at most
    one mount of each konnectivity name, the closure of [CleanUp] applied
    to its own result changes nothing. *)
Theorem cleanUp_repeatable r :
  (named Container.Name konnectivityServerName (Deployment.Containers r) ≤ 1)%nat →
  (∀ name, name ∈ [konnectivityUDSVolume; egressSelectorConfigurationVolume] →
           (named Volume.Name name (Deployment.Volumes r) ≤ 1)%nat) →
  Forall (λ c, Container.Name c = "kube-apiserver" →
               ∀ name, name ∈ konnectivityVolumeNames →
                       (named VolumeMount.Name name (Container.VolumeMounts c) ≤ 1)%nat)
         (Deployment.Containers r) →
  cleanUpMutate (cleanUpMutate r).1 = ((cleanUpMutate r).1, None).
Proof.
  intros Hside Hvolumes Hmounts.
  pose proof (locator_more.deleteNamed_gone Container.Name konnectivityServerName
                (Deployment.Containers r) Hside) as Hgone.
  set (cs := deleteNamed Container.Name konnectivityServerName (Deployment.Containers r))
    in *.
  rewrite (cleanUpMutate_eq r). cbv zeta. fold cs.
  destruct (hasNamed Container.Name cs "kube-apiserver") as [[] j] eqn:Hj; simpl.
  - destruct (hasNamed_true _ _ _ _ Hj) as (x & Hx & Hxn & _).
    assert (x ∈ Deployment.Containers r) as Hin.
    { eapply elem_of_sublist; [by eapply list_elem_of_lookup_2|].
      apply deleteNamed_sublist. }
    pose proof (proj1 (Forall_forall _ _) Hmounts x Hin Hxn) as Hxm.
    rewrite cleanUpMutate_eq. simpl.
    assert (deleteNamed Container.Name konnectivityServerName
              (alter cleanContainer j cs) = alter cleanContainer j cs) as ->.
    { apply deleteNamed_absent.
      apply (Forall_fmap Container.Name (λ name, name ≠ konnectivityServerName)).
      rewrite names_alter by (intros; apply cleanContainer_name).
      by apply Forall_fmap. }
    rewrite hasNamed_alter by (intros; apply cleanContainer_name). rewrite Hj.
    rewrite list_alter_alter_eq.
    rewrite (list_alter_ext (cleanContainer ∘ cleanContainer) cleanContainer cs cs j);
      [|intros y Hy; assert (y = x) as -> by congruence; simpl;
        by apply cleanContainer_settled|done].
    by rewrite (cleanVolumes_settled _ Hvolumes).
  - rewrite cleanUpMutate_eq. simpl.
    rewrite (deleteNamed_absent _ _ _ Hgone). by rewrite Hj.
Qed.

End deployment_more.

(** * The deletions of clean-up, one by one *)

Module cleanup_order.
Import utilities konnectivity konnectivity.KubernetesDeploymentResource codec locator.
Import deployment_facts.







End cleanup_order.

(** * Further properties of the RBAC binding *)

Module binding_more.
Import utilities konnectivity konnectivity.ClusterRoleBindingResource.

(** X15: after the status update of the binding no clean-up is due.  With
    the add-on enabled the status records the name of the binding and the
    enablement, and is no longer stale; with the add-on disabled the
    recorded name is emptied and the enablement is left as it was, so the
    status stays stale for every binding whose name is not empty. *)
Theorem binding_status_update (resource : ClusterRoleBinding.t)
    (tcp : TenantControlPlane.t) :
  let tcp' :=
    (reporting.ClusterRoleBindingResource.UpdateTenantControlPlaneStatus resource tcp).1 in
  ShouldCleanup tcp' = false
  ∧ (TenantControlPlane.Spec_Addons_Konnectivity tcp ≠ None →
     ShouldStatusBeUpdated resource tcp' = false
     ∧ TenantControlPlane.Status_Addons_Konnectivity_Enabled tcp' = true
     ∧ TenantControlPlane.Status_Addons_Konnectivity_ClusterRoleBinding_Name tcp'
       = ClusterRoleBinding.Name resource)
  ∧ (TenantControlPlane.Spec_Addons_Konnectivity tcp = None →
     TenantControlPlane.Status_Addons_Konnectivity_ClusterRoleBinding_Name tcp' = ""
     ∧ TenantControlPlane.Status_Addons_Konnectivity_Enabled tcp'
       = TenantControlPlane.Status_Addons_Konnectivity_Enabled tcp
     ∧ (ShouldStatusBeUpdated resource tcp' = true ↔ ClusterRoleBinding.Name resource ≠ "")).
Proof.
  unfold reporting.ClusterRoleBindingResource.UpdateTenantControlPlaneStatus,
    ShouldCleanup, ShouldStatusBeUpdated.
  destruct (TenantControlPlane.Spec_Addons_Konnectivity tcp) as [spec|] eqn:Hspec;
    simpl; rewrite Hspec; simpl.
  - split_and!; [done| |done]. intros _.
    split_and!; [|done|done]. by apply bool_decide_eq_false_2; intros [].
  - split_and!; [done|done|]. intros _. split_and!; [done|done|].
    rewrite bool_decide_eq_true. split; intros H Heq; by apply H.
Qed.

Section Facts.
Variable CertCommonName : string.
Variable roleAuthDelegator : string.
Variable KamajiLabels : gmap string string.
Variable MergeMaps : gmap string string → gmap string string → gmap string string.

Abbreviation mutate :=
  (mutate CertCommonName roleAuthDelegator KamajiLabels MergeMaps).
Abbreviation CreateOrUpdate :=
  (CreateOrUpdate CertCommonName roleAuthDelegator KamajiLabels MergeMaps).

(** X16: the mutation of the binding reads nothing but its name, which it
    keeps: a second application changes nothing.  So when the fetch finds
    the binding as a previous cycle wrote it, [CreateOrUpdate] returns "no
    operation" without an error, whatever the store would answer to an
    update. *)
Theorem binding_second_pass (tenantClient : Client ClusterRoleBinding.t)
    (tcp : TenantControlPlane.t) (resource binding : ClusterRoleBinding.t) :
  TenantControlPlane.Spec_Addons_Konnectivity tcp ≠ None →
  Get tenantClient = GetFound (mutate binding).1 →
  ClusterRoleBinding.Name (mutate binding).1 = ClusterRoleBinding.Name binding
  ∧ mutate (mutate binding).1 = mutate binding
  ∧ CreateOrUpdate tenantClient tcp resource
    = ((OperationResultNone, None), (mutate binding).1).
Proof.
  intros Hspec Hget. split_and!; [done|done|].
  unfold ClusterRoleBindingResource.CreateOrUpdate.
  destruct (TenantControlPlane.Spec_Addons_Konnectivity tcp); [|done].
  unfold utilities.CreateOrUpdate. rewrite Hget.
  change (mutate (mutate binding).1) with (mutate binding). simpl.
  by case_decide.
Qed.

End Facts.
End binding_more.

(** * Further properties of the datastore configuration *)

Module config_more.
Import utilities datastore datastore.Config config_facts.

Section Facts.
Variable Checksum : string.
Variable CalculateMapChecksum : gmap string (list Byte.byte) → string.
Variable KamajiLabels : gmap string string.
Variable MergeMaps : gmap string string → gmap string string → gmap string string.
Variable controllerRef : TenantControlPlane.t → Secret.t → list OwnerReference.t + error.

Abbreviation mutate :=
  (mutate Checksum CalculateMapChecksum KamajiLabels MergeMaps controllerRef).
Abbreviation payload := (payload Checksum CalculateMapChecksum).
Abbreviation password := (password Checksum CalculateMapChecksum).
Abbreviation mutate_Data :=
  (mutate_Data Checksum CalculateMapChecksum KamajiLabels MergeMaps controllerRef).
Abbreviation mutate_Annotations :=
  (mutate_Annotations Checksum CalculateMapChecksum KamajiLabels MergeMaps controllerRef).
Abbreviation mutate_ConnString :=
  (mutate_ConnString Checksum CalculateMapChecksum KamajiLabels MergeMaps controllerRef).

Lemma mutate_Labels uuid tcp r :
  Secret.Labels (resource (mutate uuid tcp r).1)
  = MergeMaps KamajiLabels
      (<["kamaji.clastix.io/component" := "datastore-config"]>
         (<["kamaji.clastix.io/name" := TenantControlPlane.Name tcp]> ∅)).
Proof.
  unfold Config.mutate, SetControllerReference.
  by destruct (controllerRef tcp _).
Qed.

Lemma mutate_identity uuid tcp r :
  Secret.Name (resource (mutate uuid tcp r).1) = Secret.Name (resource r)
  ∧ Secret.Namespace (resource (mutate uuid tcp r).1) = Secret.Namespace (resource r)
  ∧ DataStore (mutate uuid tcp r).1 = DataStore r.
Proof.
  unfold Config.mutate, SetControllerReference.
  by destruct (controllerRef tcp _).
Qed.

(** X17: after [mutate] the checksum annotation of the secret is the
    checksum of the payload the secret now holds, whether or not
    [SetControllerReference] failed. *)
Theorem mutate_checksum_of_payload uuid tcp r :
  Secret.Annotations (resource (mutate uuid tcp r).1) !! Checksum
  = Some (CalculateMapChecksum (Secret.Data (resource (mutate uuid tcp r).1))).
Proof. by rewrite mutate_Annotations, mutate_Data, lookup_insert_eq. Qed.

(** X18: the payload that [mutate] writes has the four keys
    [DB_CONNECTION_STRING], [DB_SCHEMA], [DB_USER] and [DB_PASSWORD] and
    no other: whatever else the secret held is dropped.  The connection
    string is the one of the resource. *)
Theorem mutate_payload_keys uuid tcp r :
  dom (Secret.Data (resource (mutate uuid tcp r).1))
  = ({["DB_CONNECTION_STRING"; "DB_SCHEMA"; "DB_USER"; "DB_PASSWORD"]} : gset string)
  ∧ Secret.Data (resource (mutate uuid tcp r).1) !! "DB_CONNECTION_STRING"
    = Some (bytes (ConnString r))
  ∧ ∀ key, key ∉ ["DB_CONNECTION_STRING"; "DB_SCHEMA"; "DB_USER"; "DB_PASSWORD"] →
           Secret.Data (resource (mutate uuid tcp r).1) !! key = None.
Proof.
  rewrite mutate_Data. unfold config_facts.payload. split_and!.
  - rewrite !dom_insert_L, dom_empty_L. set_solver.
  - by rewrite !lookup_insert_ne, lookup_insert_eq by done.
  - intros key Hkey.
    rewrite !lookup_insert_ne, lookup_empty; [done|..];
      intros <-; apply Hkey; set_solver.
Qed.

Lemma payload_rerun uuid uuid' tcp r :
  payload uuid' tcp (mutate uuid tcp r).1 = payload uuid tcp r.
Proof.
  unfold config_facts.payload at 1. rewrite mutate_ConnString.
  assert (password uuid' (resource (mutate uuid tcp r).1)
          = password uuid (resource r)) as ->; [|done].
  unfold config_facts.password at 1.
  rewrite mutate_Annotations, lookup_insert_eq, mutate_Data.
  case_bool_decide; [|done].
  unfold mapIndex. by rewrite payload_password.
Qed.

(** X19: a second [mutate] on the result of the first writes the same
    payload, the same annotations and the same labels, whatever value
    would be generated in the second run. *)
Theorem mutate_rerun_stable uuid uuid' tcp r :
  Secret.Data (resource (mutate uuid' tcp (mutate uuid tcp r).1).1)
  = Secret.Data (resource (mutate uuid tcp r).1)
  ∧ Secret.Annotations (resource (mutate uuid' tcp (mutate uuid tcp r).1).1)
    = Secret.Annotations (resource (mutate uuid tcp r).1)
  ∧ Secret.Labels (resource (mutate uuid' tcp (mutate uuid tcp r).1).1)
    = Secret.Labels (resource (mutate uuid tcp r).1).
Proof.
  split_and!.
  - by rewrite !mutate_Data, payload_rerun.
  - by rewrite !mutate_Annotations, payload_rerun, insert_insert_eq.
  - by rewrite !mutate_Labels.
Qed.

(** X20: [mutate] keeps every annotation other than the checksum, and
    replaces the labels: the labels it leaves do not depend on the labels
    the secret had. *)
Theorem mutate_metadata uuid tcp r :
  (∀ key, key ≠ Checksum →
          Secret.Annotations (resource (mutate uuid tcp r).1) !! key
          = Secret.Annotations (resource r) !! key)
  ∧ ∀ labels,
      Secret.Labels
        (resource (mutate uuid tcp (set_resource (Secret.SetLabels labels (resource r)) r)).1)
      = Secret.Labels (resource (mutate uuid tcp r).1).
Proof.
  split.
  - intros key Hkey. by rewrite mutate_Annotations, lookup_insert_ne.
  - intros labels. by rewrite !mutate_Labels.
Qed.

(** X21: after the status update of the resource the status is not
    stale, and the schema and the user recorded by the set-up resource
    are not touched. *)
Theorem config_status_update r tcp :
  let tcp' := (reporting.Config.UpdateTenantControlPlaneStatus Checksum r tcp).1 in
  ShouldStatusBeUpdated Checksum r tcp' = false
  ∧ TenantControlPlane.Status_Storage_Config_SecretName tcp' = Secret.Name (resource r)
  ∧ TenantControlPlane.Status_Storage_Driver tcp' = DataStore.Spec_Driver (DataStore r)
  ∧ TenantControlPlane.Status_Storage_Setup_Schema tcp'
    = TenantControlPlane.Status_Storage_Setup_Schema tcp
  ∧ TenantControlPlane.Status_Storage_Setup_User tcp'
    = TenantControlPlane.Status_Storage_Setup_User tcp.
Proof.
  simpl. split_and!; [|done..].
  unfold Config.ShouldStatusBeUpdated. simpl.
  rewrite !bool_decide_eq_false_2; [done|by intros []..].
Qed.

(** X22: on the secret that [Define] allocates, which carries no
    annotation, [mutate] generates the credential: the password is the
    fresh value.  The secret keeps the prefixed name and the namespace of
    the tenant instance. *)
Theorem mutate_after_Define (AddTenantPrefix : string → TenantControlPlane.t → string)
    uuid tcp r :
  let r' := (mutate uuid tcp (Define AddTenantPrefix r tcp).1).1 in
  Secret.Data (resource r') !! "DB_PASSWORD" = Some (bytes uuid)
  ∧ Secret.Name (resource r') = AddTenantPrefix "datastore-config" tcp
  ∧ Secret.Namespace (resource r') = TenantControlPlane.Namespace tcp.
Proof.
  simpl. split_and!.
  - by rewrite mutate_Data, payload_password.
  - by rewrite (proj1 (mutate_identity _ _ _)).
  - by rewrite (proj1 (proj2 (mutate_identity _ _ _))).
Qed.

Lemma bytes_nonempty s : s ≠ "" → bytes s ≠ [].
Proof. by destruct s. Qed.

Lemma coalesceFn_nonempty tcp fromStatus : coalesceFn tcp fromStatus ≠ [].
Proof.
  unfold coalesceFn. case_bool_decide as Hlen.
  - apply bytes_nonempty. intros ->. simpl in Hlen. lia.
  - apply bytes_nonempty.
    by destruct (TenantControlPlane.Namespace tcp).
Qed.

(** X23: [DB_SCHEMA] and [DB_USER] are never empty: with an empty status
    value the fallback still holds the separator between the namespace
    and the name. *)
Theorem mutate_schema_user_nonempty uuid tcp r :
  (∃ schema, Secret.Data (resource (mutate uuid tcp r).1) !! "DB_SCHEMA" = Some schema
             ∧ schema ≠ [])
  ∧ (∃ user, Secret.Data (resource (mutate uuid tcp r).1) !! "DB_USER" = Some user
             ∧ user ≠ []).
Proof.
  rewrite mutate_Data. unfold config_facts.payload. split.
  - eexists. rewrite lookup_insert_ne, lookup_insert_ne, lookup_insert_eq by done.
    split; [done|apply coalesceFn_nonempty].
  - eexists. rewrite lookup_insert_ne, lookup_insert_eq by done.
    split; [done|apply coalesceFn_nonempty].
Qed.

(** X24: [mutate] fails only with the error of [SetControllerReference].
    The secret in memory then already carries the new payload, and its
    owner references are those it had. *)
Theorem Config_mutate_error_state uuid tcp r err :
  (mutate uuid tcp r).2 = Some err →
  (∃ controlled, controllerRef tcp controlled = inr err)
  ∧ Secret.OwnerReferences (resource (mutate uuid tcp r).1)
    = Secret.OwnerReferences (resource r)
  ∧ Secret.Data (resource (mutate uuid tcp r).1) = payload uuid tcp r.
Proof.
  intros Herr. split_and!; [| |apply mutate_Data].
  - revert Herr. unfold Config.mutate, SetControllerReference.
    destruct (controllerRef tcp _) as [refs|e] eqn:Href; [done|].
    intros [= ->]. by eexists.
  - revert Herr. unfold Config.mutate, SetControllerReference.
    by destruct (controllerRef tcp _).
Qed.

End Facts.
End config_more.

(** * The tenant again *)

Module example_more.
Import utilities konnectivity codec locator example.

Abbreviation mutate := (KubernetesDeploymentResource.mutate AgentName CertCommonName).
Abbreviation syncContainer :=
  (KubernetesDeploymentResource.syncContainer AgentName CertCommonName).
Abbreviation cleanUpMutate := KubernetesDeploymentResource.cleanUpMutate.

(** The add-on has left the spec; the status still records it. *)
Definition retired : TenantControlPlane.t :=
  TenantControlPlane.mk "tenant-00" "tenants" None 2 true
    "tenant-00-konnectivity-egress-selector-configuration"
    "tenant-00-konnectivity-kubeconfig" "system:konnectivity-server" "" "" "" "" "" "".

Definition scheduler : Container.t :=
  Container.mk "kube-scheduler" "registry.k8s.io/kube-scheduler:v1.25.0"
    ["kube-scheduler"] ["--leader-elect=true"] [] [] None "" ResourceRequirements.zero.

Definition controlPlane : Deployment.t :=
  Deployment.mk "tenant-00" "tenants" [apiserver; scheduler] [pki].

(** The Deployment after injection. *)
Definition enriched : Deployment.t := (mutate tcp deployment).1.

(** A sidecar and its socket volume, the primary container gone. *)
Definition orphan : Deployment.t :=
  Deployment.mk "tenant-00" "tenants"
    [Container.set_Name "konnectivity-server" Container.zero]
    [Volume.mk "konnectivity-uds" deployment_facts.udsSource].

Definition absent : Client Deployment.t :=
  mkClient _ GetNotFound (λ _, None) (λ _, None) (λ _, None).

Lemma status_update_settles_witness :
  KubernetesDeploymentResource.ShouldStatusBeUpdated retired = true
  ∧ KubernetesDeploymentResource.ShouldStatusBeUpdated
      (reporting.KubernetesDeploymentResource.UpdateTenantControlPlaneStatus retired).1
    = false.
Proof.
  destruct (deployment_more.status_update_settles retired) as (Hstale & Hdone & _).
  split; [apply Hstale; discriminate|exact Hdone].
Defined.

Lemma cleanup_due_witness :
  KubernetesDeploymentResource.ShouldCleanup retired = true
  ∧ mutate retired enriched = (enriched, None).
Proof.
  split; [reflexivity|].
  apply (deployment_more.cleanup_due_mutate_is_noop AgentName CertCommonName retired).
  reflexivity.
Defined.

Lemma syncContainer_names_witness :
  Deployment.Containers controlPlane !! 1%nat = Some scheduler
  ∧ Container.Name scheduler ≠ konnectivityServerName
  ∧ Deployment.Containers (syncContainer tcp spec controlPlane) !! 1%nat = Some scheduler.
Proof.
  split_and!; [reflexivity|discriminate|].
  apply (deployment_more.syncContainer_names AgentName CertCommonName tcp spec controlPlane);
    [reflexivity|discriminate].
Defined.

(** A previous cycle gave the sidecar limits; the spec gives none. *)
Definition limited : Deployment.t :=
  Deployment.mk "tenant-00" "tenants"
    [apiserver;
     Container.set_Resources (ResourceRequirements.mk {["cpu" := "100m"]} ∅)
       (Container.set_Name "konnectivity-server" Container.zero)] [pki].

Lemma syncContainer_sidecar_fields_witness :
  KonnectivityServerSpec.Resources spec = None
  ∧ ∃ index c,
      HasNamedContainer (Deployment.Containers (syncContainer tcp spec limited))
                        konnectivityServerName = (true, index)
      ∧ Deployment.Containers (syncContainer tcp spec limited) !! index = Some c
      ∧ Container.Resources c = ResourceRequirements.mk ∅ ∅.
Proof.
  split; [reflexivity|].
  destruct (deployment_more.syncContainer_sidecar_fields AgentName CertCommonName
              tcp spec limited)
    as (index & c & Hfound & Hc & _ & _ & _ & _ & Hnone & _).
  exists index, c. split_and!; [exact Hfound|exact Hc|apply Hnone; reflexivity].
Defined.

Lemma mutate_keeps_other_containers_witness :
  Deployment.Containers controlPlane !! 1%nat = Some scheduler
  ∧ Container.Name scheduler ≠ konnectivityServerName
  ∧ HasNamedContainer (Deployment.Containers controlPlane) "kube-apiserver" ≠ (true, 1%nat)
  ∧ Deployment.Containers (mutate tcp controlPlane).1 !! 1%nat = Some scheduler.
Proof.
  split_and!; [reflexivity|discriminate|vm_compute; discriminate|].
  apply (deployment_more.mutate_keeps_other_containers AgentName CertCommonName
           tcp controlPlane 1%nat scheduler);
    [reflexivity|discriminate|vm_compute; discriminate].
Defined.

Lemma mutate_error_state_witness :
  (mutate tcp shell).2
  = Some (Errorf "the Deployment resource is not ready to be mangled for Konnectivity server enrichment")
  ∧ Deployment.Containers shell = []
  ∧ (mutate tcp shell).1 = shell.
Proof.
  split_and!; [reflexivity|reflexivity|].
  apply (deployment_more.mutate_error_state AgentName CertCommonName tcp shell
           (Errorf "the Deployment resource is not ready to be mangled for Konnectivity server enrichment"));
    reflexivity.
Defined.

Lemma patchKubeAPIServerContainer_primary_witness :
  HasNamedContainer (Deployment.Containers deployment) "kube-apiserver" = (true, 0%nat)
  ∧ Deployment.Containers deployment !! 0%nat = Some apiserver
  ∧ ∃ r' c',
      KubernetesDeploymentResource.patchKubeAPIServerContainer deployment = (r', None)
      ∧ Deployment.Containers r' !! 0%nat = Some c'
      ∧ ArgsFromSliceToMap (Container.Args c') !! "--egress-selector-config-file"
        = Some konnectivityEgressSelectorConfigurationPath.
Proof.
  split_and!; [reflexivity|reflexivity|].
  destruct (deployment_more.patchKubeAPIServerContainer_primary
              deployment 0%nat apiserver eq_refl eq_refl)
    as (r' & c' & Hpatch & Hc' & _ & _ & Hargs & _).
  exists r', c'. split_and!; [exact Hpatch|exact Hc'|].
  rewrite Hargs. apply lookup_insert_eq.
Defined.

Lemma patchKubeAPIServer_mounts_witness :
  Container.VolumeMounts apiserver !! 0%nat
  = Some (VolumeMount.mk "etc-kubernetes-pki" true "/etc/kubernetes/pki" "")
  ∧ (Container.VolumeMounts (KubernetesDeploymentResource.patchKubeAPIServer apiserver))
    !! 0%nat
    = Some (VolumeMount.mk "etc-kubernetes-pki" true "/etc/kubernetes/pki" "").
Proof.
  split; [reflexivity|].
  apply (deployment_more.patchKubeAPIServer_mounts apiserver);
    [reflexivity|discriminate|discriminate].
Defined.

Lemma syncVolumes_volumes_witness :
  Deployment.Volumes deployment !! 0%nat = Some pki
  ∧ (Volume.Name pki ∉ deployment_facts.konnectivityVolumeNames)
  ∧ Deployment.Volumes (KubernetesDeploymentResource.syncVolumes tcp deployment) !! 0%nat
    = Some pki.
Proof.
  assert (Volume.Name pki ∉ deployment_facts.konnectivityVolumeNames) as Hpki.
  { apply (bool_decide_unpack _). vm_compute. exact I. }
  split_and!; [reflexivity|exact Hpki|].
  apply (deployment_more.syncVolumes_volumes tcp deployment); [reflexivity|exact Hpki].
Defined.

Lemma cleanUp_without_primary_witness :
  Forall (λ c, Container.Name c ≠ "kube-apiserver") (Deployment.Containers orphan)
  ∧ Deployment.Volumes (cleanUpMutate orphan).1
    = [Volume.mk "konnectivity-uds" deployment_facts.udsSource].
Proof.
  assert (Forall (λ c, Container.Name c ≠ "kube-apiserver") (Deployment.Containers orphan))
    as Habsent by (apply (bool_decide_unpack _); vm_compute; exact I).
  split; [exact Habsent|].
  apply (deployment_more.cleanUp_without_primary orphan Habsent).
Defined.

Lemma cleanUp_strips_flag_witness :
  HasNamedContainer (Deployment.Containers enriched) "kube-apiserver" = (true, 0%nat)
  ∧ Deployment.Containers enriched !! 0%nat
    = Some (KubernetesDeploymentResource.patchKubeAPIServer apiserver)
  ∧ ∃ j' c',
      Deployment.Containers (cleanUpMutate enriched).1 !! j' = Some c'
      ∧ ArgsFromSliceToMap (Container.Args c') !! "--egress-selector-config-file" = None.
Proof.
  assert (HasNamedContainer (Deployment.Containers enriched) "kube-apiserver"
          = (true, 0%nat)) as Hj by (vm_compute; reflexivity).
  assert (Deployment.Containers enriched !! 0%nat
          = Some (KubernetesDeploymentResource.patchKubeAPIServer apiserver)) as Hc
    by (vm_compute; reflexivity).
  split_and!; [exact Hj|exact Hc|].
  destruct (deployment_more.cleanUp_strips_flag enriched 0%nat _ Hj Hc)
    as (j' & c' & _ & Hc' & Hargs & _).
  exists j', c'. split; [exact Hc'|]. rewrite Hargs. apply lookup_delete_eq.
Defined.

Lemma cleanUp_removes_one_sidecar_witness :
  (length (filter (λ c, Container.Name c = konnectivityServerName)
                  (Deployment.Containers enriched)) ≤ 1)%nat
  ∧ Forall (λ c, Container.Name c ≠ konnectivityServerName)
           (Deployment.Containers (cleanUpMutate enriched).1).
Proof.
  assert (length (filter (λ c, Container.Name c = konnectivityServerName)
                         (Deployment.Containers enriched)) ≤ 1)%nat as Hcount
    by (vm_compute; lia).
  split; [exact Hcount|].
  apply (deployment_more.cleanUp_removes_one_sidecar enriched), Hcount.
Defined.

Lemma CleanUp_reports_update_witness :
  Get (found enriched) = GetFound enriched
  ∧ (HasNamedContainer (Deployment.Containers enriched) konnectivityServerName).1 = true
  ∧ Update (found enriched) (cleanUpMutate enriched).1 = None
  ∧ KubernetesDeploymentResource.CleanUp (found enriched) [] shell
    = ((true, None), (cleanUpMutate enriched).1).
Proof.
  assert ((HasNamedContainer (Deployment.Containers enriched) konnectivityServerName).1
          = true) as Hside by (vm_compute; reflexivity).
  split_and!; [reflexivity|exact Hside|reflexivity|].
  apply (deployment_more.CleanUp_reports_update (found enriched) [] shell enriched);
    [reflexivity|exact Hside|reflexivity].
Defined.

Lemma CreateOrUpdate_never_creates_witness :
  TenantControlPlane.Spec_Addons_Konnectivity tcp ≠ None
  ∧ Get absent = GetNotFound
  ∧ ∃ err,
      KubernetesDeploymentResource.CreateOrUpdate AgentName CertCommonName absent [] tcp
        (KubernetesDeploymentResource.Define tcp)
      = ((OperationResultNone, Some err), KubernetesDeploymentResource.Define tcp)
      ∧ IsConflict err = false.
Proof.
  split_and!; [discriminate|reflexivity|].
  apply (deployment_more.CreateOrUpdate_never_creates AgentName CertCommonName absent [] tcp);
    [discriminate|reflexivity].
Defined.

Lemma cleanUp_repeatable_witness :
  (deployment_more.named Container.Name konnectivityServerName
     (Deployment.Containers enriched) ≤ 1)%nat
  ∧ cleanUpMutate (cleanUpMutate enriched).1 = ((cleanUpMutate enriched).1, None).
Proof.
  assert (deployment_more.named Container.Name konnectivityServerName
            (Deployment.Containers enriched) ≤ 1)%nat as Hside by (vm_compute; lia).
  split; [exact Hside|].
  apply (deployment_more.cleanUp_repeatable enriched Hside).
  - intros name Hin.
    apply elem_of_cons in Hin as [->|Hin]; [vm_compute; lia|].
    apply elem_of_cons in Hin as [->|Hin]; [vm_compute; lia|].
    by apply elem_of_nil in Hin.
  - assert (Deployment.Containers enriched
            = [KubernetesDeploymentResource.patchKubeAPIServer apiserver;
               KubernetesDeploymentResource.syncContainerFields AgentName CertCommonName
                 tcp spec Container.zero]) as -> by (vm_compute; reflexivity).
    constructor; [|constructor; [|constructor]].
    + intros _ name Hin. unfold deployment_facts.konnectivityVolumeNames in Hin.
      apply elem_of_cons in Hin as [->|Hin]; [vm_compute; lia|].
      apply elem_of_cons in Hin as [->|Hin]; [vm_compute; lia|].
      apply elem_of_cons in Hin as [->|Hin]; [vm_compute; lia|].
      by apply elem_of_nil in Hin.
    + intros Hname. vm_compute in Hname. discriminate Hname.
Defined.

(** The binding as a previous cycle wrote it. *)
Definition written : ClusterRoleBinding.t :=
  (ClusterRoleBindingResource.mutate CertCommonName roleAuthDelegator KamajiLabels
     MergeMaps binding).1.

Definition present : Client ClusterRoleBinding.t :=
  mkClient _ (GetFound written) (λ _, None) (λ _, None) (λ _, None).

Lemma binding_status_update_witness :
  TenantControlPlane.Spec_Addons_Konnectivity tcp ≠ None
  ∧ ClusterRoleBindingResource.ShouldStatusBeUpdated binding
      (reporting.ClusterRoleBindingResource.UpdateTenantControlPlaneStatus binding tcp).1
    = false.
Proof.
  split; [discriminate|].
  apply (binding_more.binding_status_update binding tcp). discriminate.
Defined.

Lemma binding_second_pass_witness :
  TenantControlPlane.Spec_Addons_Konnectivity tcp ≠ None
  ∧ Get present = GetFound written
  ∧ ClusterRoleBindingResource.CreateOrUpdate CertCommonName roleAuthDelegator
      KamajiLabels MergeMaps present tcp binding
    = ((OperationResultNone, None), written).
Proof.
  split_and!; [discriminate|reflexivity|].
  apply (binding_more.binding_second_pass CertCommonName roleAuthDelegator KamajiLabels
           MergeMaps present tcp binding binding); [discriminate|reflexivity].
Defined.

Abbreviation configMutate :=
  (datastore.Config.mutate Checksum CalculateMapChecksum KamajiLabels MergeMaps).

Lemma mutate_payload_keys_witness :
  ("DB_ROOT_PASSWORD" ∉ ["DB_CONNECTION_STRING"; "DB_SCHEMA"; "DB_USER"; "DB_PASSWORD"])
  ∧ (datastore.Secret.Data
       (datastore.Config.resource
          (configMutate controllerRef "7d3c1f0a-55aa-4b6e-8f10-c0ffee000001" tcp config).1))
    !! "DB_ROOT_PASSWORD" = None.
Proof.
  assert ("DB_ROOT_PASSWORD"
          ∉ ["DB_CONNECTION_STRING"; "DB_SCHEMA"; "DB_USER"; "DB_PASSWORD"]) as Hkey
    by (apply (bool_decide_unpack _); vm_compute; exact I).
  split; [exact Hkey|].
  apply (config_more.mutate_payload_keys Checksum CalculateMapChecksum KamajiLabels
           MergeMaps controllerRef "7d3c1f0a-55aa-4b6e-8f10-c0ffee000001" tcp config),
    Hkey.
Defined.

Lemma mutate_metadata_witness :
  "owner" ≠ Checksum
  ∧ (datastore.Secret.Annotations
       (datastore.Config.resource
          (configMutate controllerRef "7d3c1f0a-55aa-4b6e-8f10-c0ffee000001" tcp config).1))
    !! "owner"
    = datastore.Secret.Annotations (datastore.Config.resource config) !! "owner".
Proof.
  split; [discriminate|].
  apply (config_more.mutate_metadata Checksum CalculateMapChecksum KamajiLabels
           MergeMaps controllerRef "7d3c1f0a-55aa-4b6e-8f10-c0ffee000001" tcp config).
  discriminate.
Defined.

(** A secret that another controller owns already. *)
Definition refuse (owner : TenantControlPlane.t) (controlled : datastore.Secret.t)
    : list datastore.OwnerReference.t + error :=
  inr (Errorf "Object is already owned by another controller").

Lemma Config_mutate_error_state_witness :
  (configMutate refuse "7d3c1f0a-55aa-4b6e-8f10-c0ffee000001" tcp config).2
  = Some (Errorf "Object is already owned by another controller")
  ∧ datastore.Secret.OwnerReferences
      (datastore.Config.resource
         (configMutate refuse "7d3c1f0a-55aa-4b6e-8f10-c0ffee000001" tcp config).1)
    = datastore.Secret.OwnerReferences (datastore.Config.resource config).
Proof.
  split; [reflexivity|].
  apply (config_more.Config_mutate_error_state Checksum CalculateMapChecksum KamajiLabels
           MergeMaps refuse "7d3c1f0a-55aa-4b6e-8f10-c0ffee000001" tcp config
           (Errorf "Object is already owned by another controller")).
  reflexivity.
Defined.

End example_more.

(** * Clean-up on a Deployment cleaned in part *)

Module cleanup_example.
Import utilities konnectivity konnectivity.KubernetesDeploymentResource.

(** A primary container that still carries the flag of the add-on, between
    two flags of its own of which the later is first in the alphabet, and
    the socket mount. *)
Definition tunnelled : Container.t :=
  Container.set_VolumeMounts
    [VolumeMount.mk "etc-kubernetes-pki" true "/etc/kubernetes/pki" "";
     VolumeMount.mk konnectivityUDSVolume false konnectivityServerPath ""]
    (Container.set_Args
       ["--secure-port=6443"; "--egress-selector-config-file=/etc/egress.yaml";
        "--advertise-address=10.0.0.1"]
       example.apiserver).

(** The same container, its own two flags the other way round. *)
Definition tunnelled' : Container.t :=
  Container.set_Args
    ["--advertise-address=10.0.0.1"; "--egress-selector-config-file=/etc/egress.yaml";
     "--secure-port=6443"]
    tunnelled.



(** The two containers decode to one mapping. *)
Lemma tunnelled_same_mapping :
  delete "--egress-selector-config-file" (ArgsFromSliceToMap (Container.Args tunnelled'))
  = delete "--egress-selector-config-file" (ArgsFromSliceToMap (Container.Args tunnelled)).
Proof.
  rewrite !codec.ArgsFromSliceToMap_foldl.
  change (Container.Args tunnelled')
    with ["--advertise-address=10.0.0.1";
          "--egress-selector-config-file=/etc/egress.yaml"; "--secure-port=6443"].
  change (Container.Args tunnelled)
    with ["--secure-port=6443"; "--egress-selector-config-file=/etc/egress.yaml";
          "--advertise-address=10.0.0.1"].
  cbn [fmap list_fmap].
  assert (codec.parseArg "--advertise-address=10.0.0.1"
          = ("--advertise-address", "10.0.0.1")) as -> by (by vm_compute).
  assert (codec.parseArg "--secure-port=6443" = ("--secure-port", "6443")) as ->
    by (by vm_compute).
  assert (codec.parseArg "--egress-selector-config-file=/etc/egress.yaml"
          = ("--egress-selector-config-file", "/etc/egress.yaml")) as ->
    by (by vm_compute).
  cbn [foldl fst snd].
  rewrite !delete_insert_ne by done. rewrite !delete_insert_eq.
  by rewrite insert_insert_ne by done.
Qed.

Ltac sublists :=
  repeat match goal with
         | H : sublist _ _ |- _ => inversion H; clear H; simplify_eq
         end.

(** The order of the remaining arguments is lost whatever encoder stands
    in for [ArgsFromMapToSlice]: the closure of [CleanUp] hands it the
    mapping alone, two argument lists that differ in order only decode to
    one mapping, and an encoder that gives back the flags it was given
    cannot keep the order of both. *)
Lemma no_encoder_keeps_order (encode : gmap string string → list string) :
  (∀ m, codec.flagsNoEq m → ArgsFromSliceToMap (encode m) = m) →
  ¬ ∀ args,
      encode (delete "--egress-selector-config-file" (ArgsFromSliceToMap args))
      `sublist_of` args.
Proof.
  intros Hback Horder.
  pose proof (Horder (Container.Args tunnelled)) as H1.
  pose proof (Horder (Container.Args tunnelled')) as H2.
  pose proof (Hback (delete "--egress-selector-config-file"
                       (ArgsFromSliceToMap (Container.Args tunnelled)))
                (codec.flagsNoEq_delete _ _ (codec.flagsNoEq_decode _))) as Hm.
  rewrite tunnelled_same_mapping in H2.
  remember (encode (delete "--egress-selector-config-file"
                      (ArgsFromSliceToMap (Container.Args tunnelled)))) as l eqn:Hl.
  clear Hl Hback Horder.
  assert (ArgsFromSliceToMap l !! "--secure-port" = Some "6443") as Hport
    by (by rewrite Hm).
  assert (ArgsFromSliceToMap l !! "--advertise-address" = Some "10.0.0.1") as Haddress
    by (by rewrite Hm).
  clear Hm. simpl in H1, H2.
  sublists; by vm_compute in Hport, Haddress.
Qed.



End cleanup_example.
